(** * Smokeball receipt automation: a shallow embedding and its properties

    The development follows [backend/smokeball_receipt_automation.py].
    Python statements are embedded as state-passing computations with
    Python's completion signals (normal, [return], [raise]); the browser
    is an oracle that answers every awaited call, indexed by logical time. *)

From Stdlib Require Import ZArith String Ascii List Bool Lia Arith.
Import ListNotations.
Open Scope string_scope.
Open Scope list_scope.
Open Scope Z_scope.

(** ** Python exceptions *)

(** The exception classes the script can meet.  [KeyboardInterrupt] is the
    user interruption as the code itself names it; with [SystemExit] it is
    the part of [BaseException] that [except Exception] lets through. *)
Inductive exn : Type :=
| Exception (msg : string)
| ValueError (msg : string)
| BinasciiError (msg : string)
| TypeError (msg : string)
| AttributeError (msg : string)
| IndexError (msg : string)
| OSError (msg : string)
| EOFError (msg : string)
| PlaywrightError (msg : string)
| KeyboardInterrupt
| SystemExit (code : Z).

(** [isinstance(e, Exception)] *)
Definition is_Exception (e : exn) : bool :=
  match e with
  | KeyboardInterrupt | SystemExit _ => false
  | _ => true
  end.

(** [isinstance(e, ValueError)]; [binascii.Error] derives from it. *)
Definition is_ValueError (e : exn) : bool :=
  match e with
  | ValueError _ | BinasciiError _ => true
  | _ => false
  end.

(** [str(e)] *)
Definition str_exn (e : exn) : string :=
  match e with
  | Exception m | ValueError m | BinasciiError m | TypeError m
  | AttributeError m | IndexError m | OSError m | EOFError m
  | PlaywrightError m => m
  | KeyboardInterrupt => ""
  | SystemExit c => ""
  end.

(** ** Generic list helpers *)

Fixpoint chunks_fuel {A : Type} (fuel n : nat) (l : list A) : list (list A) :=
  match fuel with
  | O => []
  | S f =>
      match l with
      | [] => []
      | _ :: _ => firstn n l :: chunks_fuel f n (skipn n l)
      end
  end.

(** [l[i : i + n] for i in range(0, len(l), n)] *)
Definition chunks {A : Type} (n : nat) (l : list A) : list (list A) :=
  chunks_fuel (length l) n l.

(** [x.to_bytes(n, 'big')], bytes as integers in 0..255 *)
Definition to_bytes_be (n : nat) (x : Z) : list Z :=
  map (fun i => Z.land (Z.shiftr x (8 * Z.of_nat i)) 255) (rev (seq 0 n)).

(** [int.from_bytes(bs, 'big')] *)
Definition from_bytes_be (bs : list Z) : Z :=
  fold_left (fun acc b => acc * 256 + b) bs 0.

(** ** SHA-1 and HMAC (FIPS 180-4, RFC 2104)

    The standard one-time-password algorithm of section 4.1 rests on
    HMAC-SHA-1: [hashlib.sha1] and [hmac.new(key, msg, hashlib.sha1)] of
    the Python standard library, which are not part of the sources.
    Words are integers reduced modulo 2^32. *)
Module SHA1.

Definition w32 (x : Z) : Z := x mod 4294967296.

Definition add32 (a b : Z) : Z := w32 (a + b).

Definition rotl (n x : Z) : Z :=
  w32 (Z.lor (Z.shiftl x n) (Z.shiftr x (32 - n))).

Definition not32 (x : Z) : Z := Z.lxor x 4294967295.

Definition pad (msg : list Z) : list Z :=
  let l := Z.of_nat (length msg) in
  let k := (55 - l) mod 64 in
  msg ++ [128] ++ repeat 0 (Z.to_nat k) ++ to_bytes_be 8 (8 * l).

(** The message schedule, most recent word first while it is extended. *)
Fixpoint extend (n : nat) (rw : list Z) : list Z :=
  match n with
  | O => rw
  | S n' =>
      let w := rotl 1 (Z.lxor (Z.lxor (nth 2 rw 0) (nth 7 rw 0))
                              (Z.lxor (nth 13 rw 0) (nth 15 rw 0))) in
      extend n' (w :: rw)
  end.

Definition schedule (block : list Z) : list Z :=
  rev (extend 64 (rev (map from_bytes_be (chunks 4 block)))).

Definition state : Type := Z * Z * Z * Z * Z.

Definition f_k (t : nat) (b c d : Z) : Z * Z :=
  if (t <? 20)%nat then
    (Z.lor (Z.land b c) (Z.land (not32 b) d), 1518500249)
  else if (t <? 40)%nat then
    (Z.lxor (Z.lxor b c) d, 1859775393)
  else if (t <? 60)%nat then
    (Z.lor (Z.lor (Z.land b c) (Z.land b d)) (Z.land c d), 2400959708)
  else
    (Z.lxor (Z.lxor b c) d, 3395469782).

Definition round (st : state) (tw : nat * Z) : state :=
  let '(a, b, c, d, e) := st in
  let '(t, w) := tw in
  let '(f, k) := f_k t b c d in
  let temp := add32 (add32 (add32 (add32 (rotl 5 a) f) e) k) w in
  (temp, a, rotl 30 b, c, d).

Definition compress (h : state) (block : list Z) : state :=
  let '(h0, h1, h2, h3, h4) := h in
  let '(a, b, c, d, e) :=
    fold_left round (combine (seq 0 80) (schedule block)) h in
  (add32 h0 a, add32 h1 b, add32 h2 c, add32 h3 d, add32 h4 e).

Definition init : state :=
  (1732584193, 4023233417, 2562383102, 271733878, 3285377520).

Definition words (h : state) : list Z :=
  let '(h0, h1, h2, h3, h4) := h in [h0; h1; h2; h3; h4].

(** Modelled from the spec: [hashlib.sha1(msg).digest()], the hash of the
    standard one-time-password algorithm, after FIPS 180-4. *)
Definition digest (msg : list Z) : list Z :=
  concat (map (to_bytes_be 4) (words (fold_left compress (chunks 64 (pad msg)) init))).

Definition block_size : nat := 64.

(** Modelled from the spec: [hmac.new(key, msg, hashlib.sha1).digest()],
    the keyed hash of the standard one-time-password algorithm, after
    RFC 2104. *)
Definition hmac (key msg : list Z) : list Z :=
  let key := if (block_size <? length key)%nat then digest key else key in
  let key := key ++ repeat 0 (block_size - length key) in
  digest (map (Z.lxor 92) key ++ digest (map (Z.lxor 54) key ++ msg)).

End SHA1.

(** ** Results of fallible pure calls *)

Inductive outcome (A : Type) : Type :=
| Returns (a : A)
| Raises (e : exn).
Arguments Returns {A} a.
Arguments Raises {A} e.

Definition obind {A B : Type} (m : outcome A) (k : A -> outcome B) : outcome B :=
  match m with
  | Returns a => k a
  | Raises e => Raises e
  end.

Notation "x <~ m ;; k" := (obind m (fun x => k))
  (at level 61, m at next level, right associativity).

(** [l[i]] for a non-negative index *)
Definition index (l : list Z) (i : nat) : outcome Z :=
  match nth_error l i with
  | Some x => Returns x
  | None => Raises (IndexError "bytearray index out of range")
  end.

(** [l[-1]] *)
Definition index_last (l : list Z) : outcome Z :=
  match l with
  | [] => Raises (IndexError "bytearray index out of range")
  | _ :: _ => Returns (last l 0)
  end.

(** [l[-n:]] *)
Definition slice_last {A : Type} (n : nat) (l : list A) : list A :=
  skipn (length l - n) l.

(** ** [str] of an integer *)

Definition digit_char (d : Z) : ascii := ascii_of_nat (48 + Z.to_nat d).

Definition is_digit (c : ascii) : bool :=
  ((48 <=? nat_of_ascii c) && (nat_of_ascii c <=? 57))%nat.

Fixpoint digits_fuel (fuel : nat) (n : Z) (acc : list ascii) : list ascii :=
  match fuel with
  | O => acc
  | S f =>
      let acc' := digit_char (n mod 10) :: acc in
      if n / 10 =? 0 then acc' else digits_fuel f (n / 10) acc'
  end.

(** Decimal digits of [n >= 0]; a number has no more digits than bits. *)
Definition digits (n : Z) : list ascii :=
  digits_fuel (S (Z.to_nat (Z.log2 n))) n [].

Definition str_int (n : Z) : string :=
  if n <? 0 then String "-" (string_of_list_ascii (digits (- n)))
  else string_of_list_ascii (digits n).

(** ** Base32 decoding

    [base64.b32decode(s, casefold=True)] of the Python standard library,
    which pyotp calls on the padded secret. *)
Module Base32.

Definition code (c : ascii) : Z := Z.of_nat (nat_of_ascii c).

Definition is_ascii (c : ascii) : bool := code c <? 128.

Definition pad_char : ascii := "="%char.

(** [bytes.upper] on one byte *)
Definition upper (c : ascii) : ascii :=
  if (97 <=? code c) && (code c <=? 122)
  then ascii_of_nat (nat_of_ascii c - 32)
  else c.

(** The reverse alphabet table [_b32rev]: [None] is the [KeyError]. *)
Definition b32rev (c : ascii) : option Z :=
  let n := code c in
  if (65 <=? n) && (n <=? 90) then Some (n - 65)
  else if (50 <=? n) && (n <=? 55) then Some (n - 24)
  else None.

Fixpoint lstrip (l : list ascii) : list ascii :=
  match l with
  | [] => []
  | c :: r => if Ascii.eqb c pad_char then lstrip r else l
  end.

(** [s.rstrip(b'=')] *)
Definition rstrip (l : list ascii) : list ascii := rev (lstrip (rev l)).

(** [for c in quanta: acc = (acc << 5) + b32rev[c]] *)
Definition decode_quantum (q : list ascii) : option Z :=
  fold_left
    (fun acc c =>
       match acc, b32rev c with
       | Some a, Some v => Some (Z.shiftl a 5 + v)
       | _, _ => None
       end)
    q (Some 0).

(** The loop over full quanta; it leaves [decoded] and the last [acc]. *)
Fixpoint decode_quanta (qs : list (list ascii)) (decoded : list Z) (acc : Z)
  : option (list Z * Z) :=
  match qs with
  | [] => Some (decoded, acc)
  | q :: rest =>
      match decode_quantum q with
      | None => None
      | Some a => decode_quanta rest (decoded ++ to_bytes_be 5 a) a
      end
  end.

Definition is_nil {A : Type} (l : list A) : bool :=
  match l with [] => true | _ => false end.

(** Modelled from the spec: [base64.b32decode(s, casefold=True)], which
    decides whether a secret is the "valid base32" of section 4.1; the
    checks and their order are those of the standard library. *)
Definition b32decode (s : list ascii) : outcome (list Z) :=
  if negb (forallb is_ascii s) then
    Raises (ValueError "string argument should contain only ASCII characters")
  else if negb (length s mod 8 =? 0)%nat then
    Raises (BinasciiError "Incorrect padding")
  else
    let s := map upper s in
    let l := length s in
    let s := rstrip s in
    let padchars := (l - length s)%nat in
    match decode_quanta (chunks 8 s) [] 0 with
    | None => Raises (BinasciiError "Non-base32 digit found")
    | Some (decoded, acc) =>
        if negb (l mod 8 =? 0)%nat
           || negb (existsb (Nat.eqb padchars) [0; 1; 3; 4; 6]%nat) then
          Raises (BinasciiError "Incorrect padding")
        else if negb (padchars =? 0)%nat && negb (is_nil decoded) then
          let acc := Z.shiftl acc (5 * Z.of_nat padchars) in
          let last := to_bytes_be 5 acc in
          let leftover := ((43 - 5 * padchars) / 8)%nat in
          Returns (firstn (length decoded - 5) decoded ++ firstn leftover last)
        else Returns decoded
    end.

End Base32.

(** ** The one-time-password generator

    [pyotp.TOTP] is a third-party library that is not part of the sources;
    section 4.1 asks for the standard time-step (30-second window)
    one-time-password algorithm, written here as pyotp implements RFC 6238
    with its defaults (SHA-1, six digits, interval 30). *)
Module Pyotp.

Definition digits : nat := 6.
Definition interval : Z := 30.

(** Modelled from the spec: [OTP.byte_secret] of pyotp, the shared secret
    as bytes; the secret is padded to a multiple of eight characters and
    decoded as base32. *)
Definition byte_secret (secret : string) : outcome (list Z) :=
  let s := list_ascii_of_string secret in
  let missing_padding := (length s mod 8)%nat in
  let s := if negb (missing_padding =? 0)%nat
           then s ++ repeat Base32.pad_char (8 - missing_padding)
           else s in
  Base32.b32decode s.

Fixpoint bytes_le (fuel : nat) (i : Z) : list Z :=
  match fuel with
  | O => []
  | S f => if i =? 0 then [] else Z.land i 255 :: bytes_le f (Z.shiftr i 8)
  end.

(** Modelled from the spec: [OTP.int_to_bytestring(i, padding=8)] of
    pyotp, the time step as eight big-endian bytes. *)
Definition int_to_bytestring (i : Z) : list Z :=
  let result := rev (bytes_le (S (Z.to_nat (Z.log2 i))) i) in
  repeat 0 (8 - length result) ++ result.

(** Modelled from the spec: [OTP.generate_otp] of pyotp, the code of the
    standard algorithm for one time step: HMAC of the step under the
    secret, dynamic truncation, the last six decimal digits. *)
Definition generate_otp (secret : string) (input : Z) : outcome string :=
  if input <? 0 then Raises (ValueError "input must be positive integer")
  else
    key <~ byte_secret secret ;;
    let hmac_hash := SHA1.hmac key (int_to_bytestring input) in
    lastb <~ index_last hmac_hash ;;
    let offset := Z.to_nat (Z.land lastb 15) in
    b0 <~ index hmac_hash offset ;;
    b1 <~ index hmac_hash (offset + 1) ;;
    b2 <~ index hmac_hash (offset + 2) ;;
    b3 <~ index hmac_hash (offset + 3) ;;
    let code :=
      Z.lor (Z.lor (Z.lor (Z.shiftl (Z.land b0 127) 24)
                          (Z.shiftl (Z.land b1 255) 16))
                   (Z.shiftl (Z.land b2 255) 8))
            (Z.land b3 255) in
    let str_code := str_int (10000000000 + code mod 10 ^ Z.of_nat digits) in
    Returns (string_of_list_ascii
               (slice_last digits (list_ascii_of_string str_code))).

(** Modelled from the spec: [TOTP.timecode] of pyotp, the 30-second
    window of a clock reading in whole seconds since the epoch; [int(...)]
    truncates towards zero. *)
Definition timecode (for_time : Z) : Z := Z.quot for_time interval.

(** Modelled from the spec: [TOTP.now()] of pyotp when the clock reads
    [clock]: the code is a function of the secret and the current
    30-second window. *)
Definition now (secret : string) (clock : Z) : outcome string :=
  generate_otp secret (timecode clock).

End Pyotp.

(** ** Strings as Python uses them here *)

Definition nl : string := String (ascii_of_nat 10) "".

Definition lower_char (c : ascii) : ascii :=
  let n := nat_of_ascii c in
  if ((65 <=? n) && (n <=? 90))%nat then ascii_of_nat (n + 32) else c.

(** [s.lower()] on ASCII text *)
Fixpoint lower (s : string) : string :=
  match s with
  | EmptyString => EmptyString
  | String c r => String (lower_char c) (lower r)
  end.

(** [needle in s] *)
Fixpoint contains (needle s : string) : bool :=
  if String.prefix needle s then true
  else match s with
       | EmptyString => false
       | String _ r => contains needle r
       end.

(** Truth value of a [str] or [None] *)
Definition truthy (o : option string) : bool :=
  match o with
  | Some (String _ _) => true
  | _ => false
  end.

(** [repr] of a [str].  The text is put between apostrophes, or between
    double quotes when it holds an apostrophe and no double quote; the
    quote in use and the backslash get a backslash before them, newline,
    carriage return and tab become two-character escapes, and any other
    control character becomes [\xNN].  A string is its UTF-8 bytes here,
    and text outside ASCII is taken to be printable, so its bytes are
    copied. *)
Definition apostrophe : ascii := "039"%char.
Definition double_quote : ascii := "034"%char.
Definition backslash : ascii := "092"%char.

Fixpoint has_char (c : ascii) (s : string) : bool :=
  match s with
  | EmptyString => false
  | String a r => Ascii.eqb a c || has_char c r
  end.

Definition hex_digit (n : nat) : ascii :=
  nth n (list_ascii_of_string "0123456789abcdef") "0"%char.

Definition repr_char (quote c : ascii) : string :=
  let n := nat_of_ascii c in
  if Ascii.eqb c quote || Ascii.eqb c backslash then String backslash (String c "")
  else if Ascii.eqb c "010"%char then String backslash "n"
  else if Ascii.eqb c "013"%char then String backslash "r"
  else if Ascii.eqb c "009"%char then String backslash "t"
  else if (n <? 32)%nat || (n =? 127)%nat then
    String backslash
      (String "x" (String (hex_digit (n / 16)) (String (hex_digit (n mod 16)) "")))
  else String c "".

Fixpoint repr_body (quote : ascii) (s : string) : string :=
  match s with
  | EmptyString => ""
  | String c r => (repr_char quote c ++ repr_body quote r)%string
  end.

Definition repr_str (s : string) : string :=
  let quote :=
    if has_char apostrophe s && negb (has_char double_quote s)
    then double_quote else apostrophe in
  String quote (repr_body quote s ++ String quote "")%string.

Definition str_option (o : option string) : string :=
  match o with
  | Some s => s
  | None => "None"
  end.

Definition str_bool (b : bool) : string := if b then "True" else "False".

(** ** The browser seen from the script *)

(** Playwright locators, as the script builds them. *)
Inductive locator : Type :=
| Css (selector : string)
| ByRole (role name : string) (exact : option bool)
| ByText (text : string) (exact : bool)
| First (l : locator)
| FilterText (l : locator) (has_text : string)
| Within (parent child : locator)
| Nth (l : locator) (i : nat).

(** Every call whose answer the script waits for.  Durations are in
    milliseconds. *)
Inductive action : Type :=
| Mkdir (path : string)
| StartPlaywright
| Launch
| NewPage
| SetDefaultTimeout (ms : Z)
| SetDefaultNavigationTimeout (ms : Z)
| SetViewportSize (width height : Z)
| SetExtraHttpHeaders
| Goto (url : string) (wait_until : option string)
| Screenshot (path : string)
| WaitForSelector (selector : string) (timeout : Z)
| WaitForLoadState (st : string) (timeout : Z)
| WaitForUrl (pattern : string) (timeout : Z)
| Url
| Fill (l : locator) (text : string)
| Click (l : locator)
| Press (l : locator) (key : string)
| Clear (l : locator)
| IsVisible (l : locator) (timeout : Z)
| IsEnabled (l : locator)
| TextContent (l : locator)
| GetAttribute (l : locator) (name : string)
| All (l : locator)
| Input (prompt : string)
| Sleep (ms : Z)
| CloseBrowser.

Inductive answer (A : Type) : Type :=
| Ans (a : A)
| Err (msg : string).
Arguments Ans {A} a.
Arguments Err {A} msg.

(** What the outside world does, call by call.  The index is the number
    of calls made so far, so an answer may depend on everything that
    happened before it. *)
Record World : Type := {
  (** [os.getenv] *)
  environ : string -> option string;
  (** whether [import pyotp] succeeded *)
  pyotp_installed : bool;
  (** the system clock, in whole seconds since the epoch *)
  wall_clock : nat -> Z;
  (** [datetime.now().strftime('%Y%m%d-%H%M%S')] *)
  strftime : nat -> string;
  (** the user presses Ctrl+C while this call is pending *)
  interrupt : nat -> bool;
  do_ : nat -> action -> answer unit;
  ask_bool : nat -> action -> answer bool;
  ask_text : nat -> action -> answer (option string);
  ask_count : nat -> action -> answer nat;
  ask_str : nat -> action -> answer string
}.

Definition uninterrupted (w : World) : Prop :=
  forall t, interrupt w t = false.

(** What a call came back with, for the record of a run. *)
Inductive reply : Type :=
| Done
| Bool (b : bool)
| Text (t : option string)
| Count (n : nat)
| Str (s : string)
| Failed (msg : string)
| NoPage
| Interrupted.

(** The observable record of a run: calls with their replies, and lines
    printed.  Printed text is given without its leading pictograph. *)
Inductive event : Type :=
| Ev (a : action) (r : reply)
| Out (line : string).

(** ** Statements as computations *)

(** How a Python statement ends. *)
Inductive completion (R A : Type) : Type :=
| Normal (a : A)
| Return (r : R)
| Raise (e : exn)
| Break
| Continue.
Arguments Normal {R A} a.
Arguments Return {R A} r.
Arguments Raise {R A} e.
Arguments Break {R A}.
Arguments Continue {R A}.

(** The mutable part of the automation object and the count of calls. *)
Record state : Type := mkState {
  clock : nat;
  browser : bool;
  page : bool
}.

Definition M (R A : Type) : Type := state -> completion R A * state * list event.

Definition ret {R A : Type} (a : A) : M R A := fun s => (Normal a, s, []).

Definition abrupt {R A B : Type} (c : completion R A) : completion R B :=
  match c with
  | Normal _ => Break
  | Return r => Return r
  | Raise e => Raise e
  | Break => Break
  | Continue => Continue
  end.

Definition bind {R A B : Type} (m : M R A) (k : A -> M R B) : M R B :=
  fun s =>
    let '(c, s1, e1) := m s in
    match c with
    | Normal a => let '(c2, s2, e2) := k a s1 in (c2, s2, e1 ++ e2)
    | _ => (abrupt c, s1, e1)
    end.

Notation "x <- m ;; k" := (bind m (fun x => k))
  (at level 61, m at next level, right associativity).
Notation "m ;; k" := (bind m (fun _ => k))
  (at level 61, right associativity).

Definition raise {R A : Type} (e : exn) : M R A := fun s => (Raise e, s, []).

Definition return_ {R A : Type} (r : R) : M R A := fun s => (Return r, s, []).

Definition continue_ {R A : Type} : M R A := fun s => (Continue, s, []).

Definition break_ {R A : Type} : M R A := fun s => (Break, s, []).

Definition print {R : Type} (line : string) : M R unit :=
  fun s => (Normal tt, s, [Out line]).

(** [try: body  except <class> as e: handler e] *)
Definition try_except {R A : Type}
  (body : M R A) (catches : exn -> bool) (handler : exn -> M R A) : M R A :=
  fun s =>
    let '(c, s1, e1) := body s in
    match c with
    | Raise e =>
        if catches e
        then let '(c2, s2, e2) := handler e s1 in (c2, s2, e1 ++ e2)
        else (c, s1, e1)
    | _ => (c, s1, e1)
    end.

(** [try: body  finally: final]; a [final] that does not complete
    normally replaces the completion of [body]. *)
Definition try_finally {R A : Type} (body : M R A) (final : M R unit) : M R A :=
  fun s =>
    let '(c, s1, e1) := body s in
    let '(cf, s2, e2) := final s1 in
    match cf with
    | Normal _ => (c, s2, e1 ++ e2)
    | _ => (abrupt cf, s2, e1 ++ e2)
    end.

(** [for x in xs: body x] *)
Fixpoint for_each {R X : Type} (xs : list X) (body : X -> M R unit) : M R unit :=
  match xs with
  | [] => ret tt
  | x :: rest =>
      fun s =>
        let '(c, s1, e1) := body x s in
        match c with
        | Normal _ | Continue =>
            let '(c2, s2, e2) := for_each rest body s1 in (c2, s2, e1 ++ e2)
        | Break => (Normal tt, s1, e1)
        | _ => (c, s1, e1)
        end
  end.

(** Calling a function: its [return r] is the value of the call, and
    falling off the end gives [none]. *)
Definition call {R R' : Type} (none : R) (body : M R unit) : M R' R :=
  fun s =>
    let '(c, s1, e1) := body s in
    match c with
    | Return r => (Normal r, s1, e1)
    | Raise e => (Raise e, s1, e1)
    | _ => (Normal none, s1, e1)
    end.

Definition any (_ : exn) : bool := true.

Definition is_KeyboardInterrupt (e : exn) : bool :=
  match e with KeyboardInterrupt => true | _ => false end.

Definition lift {R A : Type} (o : outcome A) : M R A :=
  match o with
  | Returns a => ret a
  | Raises e => raise e
  end.

Definition tick (s : state) : state :=
  mkState (S (clock s)) (browser s) (page s).

(** A double quote, and a quoted word, for selectors and messages. *)
Definition dq : string := String (ascii_of_nat 34) "".
Definition q (s : string) : string := (dq ++ s ++ dq)%string.

Infix "+++" := String.append (at level 60, right associativity).

(** ** Data of one run *)

Record credentials : Type := {
  username : string;
  password : string;
  two_factor_secret : option string
}.

(** The immutable part of the automation object. *)
Record automation : Type := {
  test_mode : bool;
  creds : credentials
}.

(** [receipt_data]; the amount is kept as the text [str] gives for it,
    the only way the script uses it. *)
Record receipt : Type := {
  amount : string;
  date : string;
  lastname : string;
  firstname : string;
  reason : option string;
  description : string;
  type_ : string
}.

Definition repr_receipt (d : receipt) : string :=
  "{'amount': " +++ amount d +++ ", 'date': " +++ repr_str (date d)
  +++ ", 'lastname': " +++ repr_str (lastname d)
  +++ ", 'firstname': " +++ repr_str (firstname d)
  +++ ", 'reason': " +++ match reason d with
                         | Some r => repr_str r
                         | None => "None"
                         end
  +++ ", 'description': " +++ repr_str (description d)
  +++ ", 'type': " +++ repr_str (type_ d) +++ "}".

(** The dictionary [run] returns. *)
Record summary : Type := {
  success : bool;
  error : option string;
  message : string
}.

Definition repr_summary (r : summary) : string :=
  "{'success': " +++ str_bool (success r)
  +++ match error r with
      | Some e => ", 'error': " +++ repr_str e
      | None => ""
      end
  +++ ", 'message': " +++ repr_str (message r) +++ "}".

(** Defaults of [os.getenv] in the constructor.  The literal password of
    the source is not reproduced; no property depends on its value. *)
Definition default_username : string := "pmanocha@stanford.au".
Definition default_password : string := "<default password literal>".

Definition getenv_default (env : string -> option string) (key default : string)
  : string :=
  match env key with
  | Some v => v
  | None => default
  end.

(** ** Selectors and locators of the script *)

Definition sel_email : string := "input[type=" +++ q "email" +++ "]".
Definition sel_password : string := "input[type=" +++ q "password" +++ "]".
Definition sel_two_factor : string :=
  "input[placeholder=" +++ q "Two-Factor Code" +++ "], textbox[name="
  +++ q "Two-Factor Code" +++ "]".
Definition sel_content : string :=
  "button, table, [role=" +++ q "button" +++ "]".
Definition sel_menu_items : string :=
  "[role=" +++ q "menuitem" +++ "], [role=" +++ q "option" +++ "], li, a".
Definition sel_buttons : string := "button, [role=" +++ q "button" +++ "]".
Definition sel_aria : string :=
  "button[aria-label*=" +++ q "Deposit" +++ "], button[title*="
  +++ q "Deposit" +++ "], [aria-label*=" +++ q "Deposit" +++ "]".
Definition sel_data : string :=
  "[data-testid*=" +++ q "deposit" +++ "], [class*=" +++ q "deposit"
  +++ "], [id*=" +++ q "deposit" +++ "]".
Definition sel_text_inputs : string :=
  "input[type=" +++ q "text" +++ "], textbox".
Definition sel_combobox : string :=
  "combobox, input[type=" +++ q "text" +++ "]".
Definition sel_spin : string :=
  "spinbutton, input[type=" +++ q "number" +++ "]".

Definition create_new_button : locator := ByRole "button" "Create New" (Some false).
Definition deposit_menuitem : locator := ByRole "menuitem" "Deposit Funds" (Some false).
Definition deposit_exact : locator := ByRole "button" "Deposit Funds" (Some true).
Definition deposit_inexact : locator := ByRole "button" "Deposit Funds" (Some false).
Definition deposit_by_text : locator := First (FilterText (Css "button") "Deposit").
Definition deposit_by_aria : locator := First (Css sel_aria).
Definition deposit_by_data : locator := First (Css sel_data).
Definition two_factor_input : locator := ByRole "textbox" "Two-Factor Code" None.
Definition verify_button : locator := ByRole "button" "Verify" None.
Definition process_button : locator := ByRole "button" "Process/Open Receipt" None.

Definition not_found_message : string :=
  "Could not find " +++ q "Deposit Funds" +++ " button after trying all strategies".

Definition coroutine_not_subscriptable : exn :=
  TypeError "'coroutine' object is not subscriptable".

Definition no_page_message : string := "'NoneType' object has no attribute".

Definition account_id : string := "34154dcb-8a76-4f8c-9281-a9b80e3cca16".

Definition transactions_url (matter_id account : string) : string :=
  "https://app.smokeball.com.au/#/billing/view-matter/" +++ matter_id
  +++ "/transactions/trust/" +++ account +++ "~2FTrust".

(** ** The script *)

Section Program.

Variable w : World.

(** One call: it is recorded with its reply; an interruption that is
    pending surfaces as [KeyboardInterrupt], otherwise the world answers. *)
Definition perform {R A : Type} (cls : string -> exn)
  (oracle : nat -> action -> answer A) (log : A -> reply) (a : action) : M R A :=
  fun s =>
    if interrupt w (clock s) then
      (Raise KeyboardInterrupt, tick s, [Ev a Interrupted])
    else
      match oracle (clock s) a with
      | Ans x => (Normal x, tick s, [Ev a (log x)])
      | Err m => (Raise (cls m), tick s, [Ev a (Failed m)])
      end.

(** A call on [self.page]; while [self.page] is [None] the attribute
    lookup raises and the call is recorded as not received. *)
Definition on_page {R A : Type}
  (oracle : nat -> action -> answer A) (log : A -> reply) (a : action) : M R A :=
  fun s =>
    if page s then perform PlaywrightError oracle log a s
    else (Raise (AttributeError no_page_message), s, [Ev a NoPage]).

Definition done (_ : unit) : reply := Done.

Definition page_do {R : Type} (a : action) : M R unit := on_page (do_ w) done a.
Definition page_bool {R : Type} (a : action) : M R bool := on_page (ask_bool w) Bool a.
Definition page_text {R : Type} (a : action) : M R (option string) :=
  on_page (ask_text w) Text a.
Definition page_count {R : Type} (a : action) : M R nat := on_page (ask_count w) Count a.
Definition page_str {R : Type} (a : action) : M R string := on_page (ask_str w) Str a.

(** [await asyncio.sleep(...)]: it can only end or be interrupted. *)
Definition sleep {R : Type} (ms : Z) : M R unit :=
  fun s =>
    if interrupt w (clock s) then
      (Raise KeyboardInterrupt, tick s, [Ev (Sleep ms) Interrupted])
    else (Normal tt, tick s, [Ev (Sleep ms) Done]).

Definition set_browser {R : Type} (b : bool) : M R unit :=
  fun s => (Normal tt, mkState (clock s) b (page s), []).

Definition set_page {R : Type} (p : bool) : M R unit :=
  fun s => (Normal tt, mkState (clock s) (browser s) p, []).

(** [SmokeBallReceiptAutomation.__init__] *)
Definition init_ {R : Type} (test_mode : bool) : M R automation :=
  set_browser false ;;
  set_page false ;;
  let credentials :=
    {| username := getenv_default (environ w) "SMOKEBALL_USERNAME" default_username;
       password := getenv_default (environ w) "SMOKEBALL_PASSWORD" default_password;
       two_factor_secret := environ w "SMOKEBALL_2FA_SECRET" |} in
  perform OSError (do_ w) done (Mkdir "screenshots") ;;
  ret {| test_mode := test_mode; creds := credentials |}.

(** [generate_totp_code] *)
Definition generate_totp_code {R : Type} (self : automation) : M R string :=
  call ""
    (if negb (truthy (two_factor_secret (creds self))) || negb (pyotp_installed w)
     then raise (ValueError "2FA secret not configured or pyotp not installed")
     else
       code <- (fun s =>
                  lift (Pyotp.now (str_option (two_factor_secret (creds self)))
                                  (wall_clock w (clock s))) s) ;;
       print ("Generated 2FA code: " +++ code) ;;
       return_ code).

(** [initialize] *)
Definition initialize {R : Type} : M R unit :=
  call tt
    (print "Initializing browser..." ;;
     perform PlaywrightError (do_ w) done StartPlaywright ;;
     perform PlaywrightError (do_ w) done Launch ;;
     set_browser true ;;
     perform PlaywrightError (do_ w) done NewPage ;;
     set_page true ;;
     page_do (SetDefaultTimeout 30000) ;;
     page_do (SetDefaultNavigationTimeout 45000) ;;
     page_do (SetViewportSize 1920 1080) ;;
     page_do SetExtraHttpHeaders ;;
     print "Browser initialized").

(** [take_screenshot] *)
Definition take_screenshot {R : Type} (name : string) : M R (option string) :=
  call None
    (try_except
       (fun s =>
          let timestamp := strftime w (clock s) in
          let filename :=
            "screenshots/receipt-" +++ name +++ "-" +++ timestamp +++ ".png" in
          (page_do (Screenshot filename) ;;
           print ("Screenshot saved: " +++ filename) ;;
           return_ (Some filename)) s)
       is_Exception
       (fun e =>
          print ("Failed to take screenshot: " +++ str_exn e) ;;
          return_ None)).

(** The body of [if 'dashboard' not in current_url:] in [login]. *)
Definition login_two_factor (self : automation) : M unit unit :=
  print "2FA required..." ;;
  try_except
    (page_do (WaitForSelector sel_two_factor 15000) ;;
     totp_code <-
       (if truthy (two_factor_secret (creds self)) && pyotp_installed w
        then generate_totp_code self
        else
          print "Manual 2FA required - please enter code:" ;;
          perform EOFError (ask_str w) Str (Input "Enter 2FA code: ")) ;;
     page_do (Fill two_factor_input totp_code) ;;
     sleep 1000 ;;
     try_except
       (page_do (Click verify_button))
       any
       (fun _ => page_do (Press two_factor_input "Enter")) ;;
     page_do (WaitForUrl "**/dashboard" 45000) ;;
     print "2FA verification successful")
    is_Exception
    (fun e =>
       take_screenshot "2fa-error" ;;
       raise (Exception ("2FA failed: " +++ str_exn e))).

(** [login].  Where the source calls [locator(...).all()] without
    awaiting it, the value is a coroutine object: it is true, and
    indexing it or taking its length raises [TypeError]. *)
Definition login {R : Type} (self : automation) : M R unit :=
  call tt
    (print "Logging into Smokeball..." ;;
     try_except
       (page_do (Goto "https://app.smokeball.com.au" (Some "networkidle")) ;;
        take_screenshot "login-page" ;;
        email_input <-
          try_except
            (page_do (WaitForSelector sel_email 10000) ;;
             ret (Some (First (Css sel_email))))
            any
            (fun _ =>
               page_do (WaitForSelector "textbox" 10000) ;;
               raise coroutine_not_subscriptable) ;;
        match email_input with
        | None => raise (Exception "Could not find email input field")
        | Some email_input =>
            page_do (Fill email_input (username (creds self))) ;;
            sleep 1000 ;;
            password_input <-
              try_except
                (ret (First (Css sel_password)))
                any
                (fun _ => raise (TypeError "object of type 'coroutine' has no len()")) ;;
            page_do (Fill password_input (password (creds self))) ;;
            sleep 1000 ;;
            try_except
              (page_do (Click (First (ByRole "button" "Log in" (Some false)))))
              any
              (fun _ => page_do (Click (First (FilterText (Css "button") "log")))) ;;
            sleep 3000 ;;
            current_url <- page_str Url ;;
            (if negb (contains "dashboard" current_url)
             then login_two_factor self
             else ret tt) ;;
            print "Successfully logged in"
        end)
       is_Exception
       (fun e =>
          take_screenshot "login-error" ;;
          raise (Exception ("Login failed: " +++ str_exn e)))).

(** [navigate_to_matter_transactions] *)
Definition navigate_to_matter_transactions {R : Type}
  (matter_id account : string) : M R unit :=
  call tt
    (print "Navigating to matter transactions..." ;;
     print ("   Matter ID: " +++ matter_id) ;;
     print ("   Account ID: " +++ account) ;;
     let url := transactions_url matter_id account in
     print ("Navigating to: " +++ url) ;;
     page_do (Goto url None) ;;
     print "Waiting for page to load..." ;;
     sleep 8000 ;;
     try_except
       (page_do (WaitForLoadState "networkidle" 20000) ;;
        print "Page network idle")
       any
       (fun _ => print "Network idle timeout, but continuing...") ;;
     try_except
       (page_do (WaitForSelector sel_content 15000) ;;
        print "Page content loaded")
       is_Exception
       (fun e =>
          take_screenshot "transactions-page-error" ;;
          print ("Could not verify page content: " +++ str_exn e)) ;;
     take_screenshot "transactions-page-loaded" ;;
     ret tt).

(** The statements that follow every successful click of the deposit
    control in [fill_receipt_form]. *)
Definition dialog_opened : M unit unit :=
  sleep 2000 ;;
  take_screenshot "deposit-dialog-opened" ;;
  return_ tt.

(** One pass of [for item in menu_items] / [for i, button in enumerate(buttons)]. *)
Definition try_item (announce : bool) (i : nat) (item : locator) : M unit unit :=
  try_except
    (text <- page_text (TextContent item) ;;
     (if announce
      then print ("   Button " +++ str_int (Z.of_nat (i + 1)) +++ ": "
                  +++ q (str_option text))
      else ret tt) ;;
     if truthy text && contains "deposit" (lower (str_option text)) then
       print (if announce
              then "Found deposit button at index " +++ str_int (Z.of_nat (i + 1))
                   +++ ": " +++ q (str_option text)
              else "Found deposit option: " +++ q (str_option text)) ;;
       page_do (Click item) ;;
       dialog_opened
     else ret tt)
    any
    (fun _ => continue_).

(** Strategy 1: the "Create New" menu (lines 237-270) *)
Definition strategy1 : M unit unit :=
  try_except
    (visible <- page_bool (IsVisible create_new_button 5000) ;;
     if visible then
       print ("Found " +++ q "Create New" +++ " button, clicking to open menu...") ;;
       page_do (Click create_new_button) ;;
       sleep 2000 ;;
       take_screenshot "create-new-menu-opened" ;;
       try_except
         (shown <- page_bool (IsVisible deposit_menuitem 3000) ;;
          if shown then
            print ("Found " +++ q "Deposit Funds" +++ " in menu") ;;
            page_do (Click deposit_menuitem) ;;
            dialog_opened
          else ret tt)
         any
         (fun _ =>
            n <- page_count (All (Css sel_menu_items)) ;;
            for_each (seq 0 n)
              (fun i => try_item false i (Nth (Css sel_menu_items) i)))
     else ret tt)
    is_Exception
    (fun e => print ("Strategy 1 (Create New menu) failed: " +++ str_exn e)).

(** The shape shared by strategies 2, 3, 4, 6 and 7: one locator, shown
    within five seconds, clicked. *)
Definition direct_strategy (number : string) (l : locator) (found : string)
  : M unit unit :=
  try_except
    (visible <- page_bool (IsVisible l 5000) ;;
     if visible then
       print found ;;
       page_do (Click l) ;;
       dialog_opened
     else ret tt)
    is_Exception
    (fun e => print ("Strategy " +++ number +++ " failed: " +++ str_exn e)).

Definition strategy2 : M unit unit :=
  direct_strategy "2" deposit_exact "Found button with exact name match".

Definition strategy3 : M unit unit :=
  direct_strategy "3" deposit_inexact "Found button with case-insensitive match".

Definition strategy4 : M unit unit :=
  direct_strategy "4" deposit_by_text
    ("Found button containing " +++ q "Deposit" +++ " text").

(** Strategy 5: every button, filtered by its text (lines 308-325) *)
Definition strategy5 : M unit unit :=
  try_except
    (n <- page_count (All (Css sel_buttons)) ;;
     print ("Found " +++ str_int (Z.of_nat n) +++ " buttons on page") ;;
     for_each (seq 0 n) (fun i => try_item true i (Nth (Css sel_buttons) i)))
    is_Exception
    (fun e => print ("Strategy 5 failed: " +++ str_exn e)).

Definition strategy6 : M unit unit :=
  direct_strategy "6" deposit_by_aria "Found button by aria-label/title".

Definition strategy7 : M unit unit :=
  direct_strategy "7" deposit_by_data "Found button by data attributes".

(** Lines 228-353: the chain of strategies and the raise that ends it. *)
Definition open_deposit_form (data : receipt) : M unit unit :=
  print "Filling receipt form..." ;;
  print ("Receipt details: " +++ repr_receipt data) ;;
  take_screenshot "before-fill-form" ;;
  print ("Clicking " +++ q "Deposit Funds" +++ " button...") ;;
  strategy1 ;;
  strategy2 ;;
  strategy3 ;;
  strategy4 ;;
  strategy5 ;;
  strategy6 ;;
  strategy7 ;;
  take_screenshot "deposit-button-not-found" ;;
  raise (Exception not_found_message).

Definition label_input (label selector : string) : locator :=
  First (Within (Within (ByText label false) (Css "..")) (Css selector)).

(** Lines 355-376: the date field *)
Definition fill_date (data : receipt) : M unit unit :=
  print ("Filling date: " +++ date data) ;;
  let date_input := label_input "Date Deposited" sel_text_inputs in
  try_except
    (page_do (Click date_input) ;;
     page_do (Fill date_input (date data)) ;;
     sleep 500 ;;
     print "Date filled")
    is_Exception
    (fun e =>
       print ("Could not fill date field with label method: " +++ str_exn e) ;;
       try_except
         ((raise coroutine_not_subscriptable : M unit unit) ;;
          print "Date filled (alternative selector)")
         is_Exception
         (fun e2 => print ("Failed to fill date: " +++ str_exn e2))).

(** Lines 378-427: the payer, as "Lastname, Firstname" *)
Definition fill_received_from (data : receipt) : M unit unit :=
  print ("Filling Received From: " +++ lastname data +++ ", " +++ firstname data) ;;
  let contact_name := lastname data +++ ", " +++ firstname data in
  let received_from_input := label_input "Received From" sel_combobox in
  try_except
    (page_do (Click received_from_input) ;;
     sleep 1000 ;;
     page_do (Clear received_from_input) ;;
     sleep 500 ;;
     page_do (Fill received_from_input contact_name) ;;
     sleep 2000 ;;
     try_except
       (let contact_option := First (ByText contact_name false) in
        shown <- page_bool (IsVisible contact_option 2000) ;;
        if shown then
          page_do (Click contact_option) ;;
          print ("Selected contact from dropdown: " +++ contact_name)
        else
          page_do (Press received_from_input "Enter") ;;
          sleep 500 ;;
          print ("Entered contact name: " +++ contact_name))
       is_Exception
       (fun e =>
          print ("Could not select from dropdown, leaving typed text: "
                 +++ contact_name)))
    is_Exception
    (fun e =>
       print ("Could not fill Received From field: " +++ str_exn e) ;;
       try_except
         ((raise coroutine_not_subscriptable : M unit unit) ;;
          sleep 1000 ;;
          print "Received From filled (alternative selector)")
         is_Exception
         (fun e2 => print ("Failed to fill Received From: " +++ str_exn e2))).

(** Lines 429-457: the reason *)
Definition fill_reason (data : receipt) : M unit unit :=
  if truthy (reason data) then
    print ("Filling reason: " +++ str_option (reason data)) ;;
    let reason_input := label_input "Reason" sel_text_inputs in
    try_except
      (page_do (Click reason_input) ;;
       page_do (Fill reason_input (str_option (reason data))) ;;
       sleep 500 ;;
       print "Reason filled")
      is_Exception
      (fun e =>
         print ("Could not fill reason field: " +++ str_exn e) ;;
         try_except
           (raise coroutine_not_subscriptable)
           is_Exception
           (fun e2 => print ("Failed to fill reason: " +++ str_exn e2)))
  else ret tt.

(** Lines 459-483: the amount, in the "Allocated Matters" section *)
Definition fill_amount (data : receipt) : M unit unit :=
  print ("Filling amount: $" +++ amount data) ;;
  let amount_input :=
    First (Within
             (Within
                (First (Within (Within (ByText "Allocated Matters" false) (Css ".."))
                               (ByText "Amount" false)))
                (Css ".."))
             (Css sel_spin)) in
  try_except
    (page_do (Click amount_input) ;;
     page_do (Fill amount_input (amount data)) ;;
     sleep 500 ;;
     print "Amount filled")
    is_Exception
    (fun e =>
       print ("Could not fill amount field: " +++ str_exn e) ;;
       try_except
         ((raise coroutine_not_subscriptable : M unit unit) ;;
          print "Amount filled (alternative selector)")
         is_Exception
         (fun e2 => print ("Failed to fill amount: " +++ str_exn e2))).

(** Lines 355-487: the four fields, then the checkpoint *)
Definition fill_fields (data : receipt) : M unit unit :=
  fill_date data ;;
  fill_received_from data ;;
  fill_reason data ;;
  fill_amount data ;;
  sleep 1000 ;;
  take_screenshot "form-filled" ;;
  ret tt.

(** Lines 489-529: the state of the commit control, then the hold of
    test mode or the commit. *)
Definition finish_form (self : automation) (data : receipt) : M unit unit :=
  try_except
    (is_enabled <- page_bool (IsEnabled process_button) ;;
     print (q "Process/Open Receipt" +++ " button enabled: " +++ str_bool is_enabled))
    any
    (fun _ => print ("Could not find " +++ q "Process/Open Receipt" +++ " button")) ;;
  if test_mode self then
    print "TEST MODE: Stopping before final submission" ;;
    print "Form has been filled successfully!" ;;
    print "Form Summary:" ;;
    print ("   - Date: " +++ date data) ;;
    print ("   - Received From: " +++ lastname data +++ ", " +++ firstname data) ;;
    print ("   - Reason: " +++ match reason data with Some r => r | None => "N/A" end) ;;
    print ("   - Amount: $" +++ amount data) ;;
    print "   - Matter: Pre-filled" ;;
    print "To actually create the receipt, run without --test-mode flag" ;;
    print "Keeping browser open for 30 seconds for inspection..." ;;
    print "   Press Ctrl+C to close early" ;;
    try_except
      (sleep 30000)
      is_KeyboardInterrupt
      (fun _ => print "Interrupted by user")
  else
    print ("Clicking " +++ q "Process/Open Receipt" +++ " button...") ;;
    try_except
      (page_do (Click process_button) ;;
       sleep 3000 ;;
       take_screenshot "after-submit" ;;
       print "Receipt submitted!")
      is_Exception
      (fun e =>
         print ("Failed to submit receipt: " +++ str_exn e) ;;
         raise e).

(** [fill_receipt_form], in the order of its statements. *)
Definition fill_receipt_form {R : Type} (self : automation) (data : receipt)
  : M R unit :=
  call tt
    (open_deposit_form data ;;
     fill_fields data ;;
     finish_form self data).

(** [cleanup] *)
Definition cleanup {R : Type} : M R unit :=
  call tt
    (fun s =>
       (if browser s then
          perform PlaywrightError (do_ w) done CloseBrowser ;;
          print "Browser closed"
        else ret tt) s).

Definition success_summary (self : automation) : summary :=
  {| success := true;
     error := None;
     message := if test_mode self
                then "Receipt form filled successfully"
                else "Receipt created successfully" |}.

Definition failure_summary (self : automation) (e : exn) : summary :=
  {| success := false;
     error := Some (str_exn e);
     message := if test_mode self
                then "Failed to fill receipt form"
                else "Failed to create receipt" |}.

(** The [try] block of [run]. *)
Definition run_stages (self : automation) (matter_id : string) (data : receipt)
  : M (option summary) unit :=
  initialize ;;
  login self ;;
  navigate_to_matter_transactions matter_id account_id ;;
  fill_receipt_form self data ;;
  print "Automation completed successfully!" ;;
  return_ (Some (success_summary self)).

(** The [except Exception as e] block of [run]. *)
Definition run_failed (self : automation) (e : exn) : M (option summary) unit :=
  print ("Automation failed: " +++ str_exn e) ;;
  take_screenshot "automation-error" ;;
  return_ (Some (failure_summary self e)).

(** The [finally] block of [run]. *)
Definition run_finally (self : automation) : M (option summary) unit :=
  (if negb (test_mode self) then sleep 5000 else ret tt) ;;
  cleanup.

(** [run] *)
Definition run {R : Type} (self : automation) (matter_id : string) (data : receipt)
  : M R (option summary) :=
  call None
    (try_finally
       (try_except (run_stages self matter_id data) is_Exception (run_failed self))
       (run_finally self)).

(** The parsed command line.  [--test-mode] is a [store_true] flag whose
    default is already [True]. *)
Record args : Type := {
  arg_matter_id : string;
  arg_amount : string;
  arg_lastname : string;
  arg_firstname : string;
  arg_reason : string;
  arg_date : string;
  arg_test_mode : bool;
  arg_submit : bool
}.

Definition final_result_line (r : option summary) : string :=
  nl +++ "Final Result: " +++ match r with
                              | Some r => repr_summary r
                              | None => "None"
                              end.

(** [main], after [parse_args] *)
Definition main {R : Type} (a : args) : M R unit :=
  call tt
    (let test_mode := arg_test_mode a && negb (arg_submit a) in
     let receipt_data :=
       {| amount := arg_amount a;
          date := arg_date a;
          lastname := arg_lastname a;
          firstname := arg_firstname a;
          reason := Some (arg_reason a);
          description := "Bank Transfer deposit";
          type_ := "Deposit" |} in
     print "Starting Smokeball Receipt Automation..." ;;
     print ("Matter ID: " +++ arg_matter_id a) ;;
     print ("Amount: $" +++ arg_amount a) ;;
     print ("Contact: " +++ arg_lastname a +++ ", " +++ arg_firstname a) ;;
     print ("Date: " +++ arg_date a) ;;
     print ("Test Mode: " +++ str_bool test_mode) ;;
     print "" ;;
     automation <- init_ test_mode ;;
     result <- run automation (arg_matter_id a) receipt_data ;;
     print (final_result_line result) ;;
     match result with
     | Some r => raise (SystemExit (if success r then 0 else 1))
     | None => raise (TypeError "'NoneType' object is not subscriptable")
     end).

(** The [if __name__ == '__main__':] block: [asyncio.run(main())] under
    its two handlers. *)
Definition script (a : args) : M unit unit :=
  try_except
    (main a)
    (fun e => is_KeyboardInterrupt e || is_Exception e)
    (fun e =>
       if is_KeyboardInterrupt e then
         print (nl +++ "Interrupted by user") ;;
         raise (SystemExit 1)
       else
         print (nl +++ "Unexpected error: " +++ str_exn e) ;;
         print "Traceback (most recent call last):" ;;
         raise (SystemExit 1)).

End Program.

(** The state of a fresh process. *)
Definition start : state := mkState 0 false false.

(** The exit status of the interpreter for the way the script ended. *)
Definition exit_status {R A : Type} (c : completion R A) : Z :=
  match c with
  | Raise (SystemExit code) => code
  | Raise _ => 1
  | _ => 0
  end.


(** ** Reading the record of a run *)

Fixpoint locator_eqb (a b : locator) : bool :=
  match a, b with
  | Css x, Css y => String.eqb x y
  | ByRole r n e, ByRole r' n' e' =>
      String.eqb r r' && String.eqb n n'
      && match e, e' with
         | Some x, Some y => Bool.eqb x y
         | None, None => true
         | _, _ => false
         end
  | ByText t e, ByText t' e' => String.eqb t t' && Bool.eqb e e'
  | First l, First l' => locator_eqb l l'
  | FilterText l t, FilterText l' t' => locator_eqb l l' && String.eqb t t'
  | Within p c, Within p' c' => locator_eqb p p' && locator_eqb c c'
  | Nth l i, Nth l' i' => locator_eqb l l' && Nat.eqb i i'
  | _, _ => false
  end.

(** The first call of each deposit strategy marks that the strategy was
    evaluated. *)
Definition entry_of (e : event) : option nat :=
  match e with
  | Ev (IsVisible l _) _ =>
      if locator_eqb l create_new_button then Some 1%nat
      else if locator_eqb l deposit_exact then Some 2%nat
      else if locator_eqb l deposit_inexact then Some 3%nat
      else if locator_eqb l deposit_by_text then Some 4%nat
      else if locator_eqb l deposit_by_aria then Some 6%nat
      else if locator_eqb l deposit_by_data then Some 7%nat
      else None
  | Ev (All l) _ =>
      if locator_eqb l (Css sel_buttons) then Some 5%nat else None
  | _ => None
  end.

Definition opt_list {A : Type} (o : option A) : list A :=
  match o with
  | Some a => [a]
  | None => []
  end.

(** The strategies evaluated, in the order of their evaluation. *)
Fixpoint attempted (evs : list event) : list nat :=
  match evs with
  | [] => []
  | e :: rest => opt_list (entry_of e) ++ attempted rest
  end.

(** The strategy a deposit control belongs to. *)
Definition click_strategy (l : locator) : option nat :=
  if locator_eqb l deposit_menuitem then Some 1%nat
  else if locator_eqb l deposit_exact then Some 2%nat
  else if locator_eqb l deposit_inexact then Some 3%nat
  else if locator_eqb l deposit_by_text then Some 4%nat
  else if locator_eqb l deposit_by_aria then Some 6%nat
  else if locator_eqb l deposit_by_data then Some 7%nat
  else match l with
       | Nth l' _ =>
           if locator_eqb l' (Css sel_menu_items) then Some 1%nat
           else if locator_eqb l' (Css sel_buttons) then Some 5%nat
           else None
       | _ => None
       end.

(** A strategy yields a match when its deposit control is shown and the
    click on it goes through. *)
Definition match_of (e : event) : option nat :=
  match e with
  | Ev (Click l) Done => click_strategy l
  | _ => None
  end.

Fixpoint matches (evs : list event) : list nat :=
  match evs with
  | [] => []
  | e :: rest => opt_list (match_of e) ++ matches rest
  end.

Definition first_match (evs : list event) : option nat := hd_error (matches evs).

Definition is_some {A : Type} (o : option A) : bool :=
  match o with Some _ => true | None => false end.

Fixpoint after_first_match (evs : list event) : list event :=
  match evs with
  | [] => []
  | e :: rest => if is_some (match_of e) then rest else after_first_match rest
  end.

(** Waiting, taking a screenshot, printing. *)
Definition passive (e : event) : bool :=
  match e with
  | Ev (Sleep _) _ | Ev (Screenshot _) _ | Out _ => true
  | _ => false
  end.

(** Calls that only the statements after the raise of line 353 make:
    typing into a field, the 30-second hold, the commit control. *)
Definition after_raise (e : event) : bool :=
  match e with
  | Ev (Fill _ _) _ | Ev (Clear _) _ | Ev (Press _ _) _ | Ev (IsEnabled _) _ => true
  | Ev (Sleep ms) _ => ms =? 30000
  | Ev (Click l) _ =>
      negb (locator_eqb l create_new_button) && negb (is_some (click_strategy l))
  | _ => false
  end.

Definition is_fill (e : event) : bool :=
  match e with
  | Ev (Fill _ _) _ => true
  | _ => false
  end.

Definition is_close (e : event) : bool :=
  match e with
  | Ev CloseBrowser _ => true
  | _ => false
  end.

(** An exception the script can meet in world [w]: an [Exception], or the
    interruption when the user does interrupt. *)
Definition exn_ok (w : World) (e : exn) : Prop :=
  is_Exception e = true \/ (e = KeyboardInterrupt /\ exists t, interrupt w t = true).

(** ** What "valid base32" means

    RFC 4648 text, as authenticator secrets are written: letters in
    either case and the digits 2 to 7, in groups of eight; the last
    group may hold 2, 4, 5 or 7 characters, and [=] signs may fill it up,
    in part or in full. *)

Definition is_base32_char (c : ascii) : bool :=
  let n := nat_of_ascii c in
  (((65 <=? n) && (n <=? 90)) || ((97 <=? n) && (n <=? 122))
   || ((50 <=? n) && (n <=? 55)))%nat.

Definition valid_base32 (s : string) : bool :=
  let cs := list_ascii_of_string s in
  let body := Base32.rstrip cs in
  negb (Base32.is_nil cs)
  && forallb is_base32_char body
  && existsb (Nat.eqb (length body mod 8)) [0; 2; 4; 5; 7]%nat
  && (length cs <=? 8 * ((length body + 7) / 8))%nat.

(** ** Concrete worlds and inputs *)

Module Scenario.

Definition secret : string := "GEZDGNBVGY3TQOJQGEZDGNBVGY3TQOJQ".

(** Every call succeeds, every control is shown, and the login lands on
    the dashboard. *)
Definition happy : World := {|
  environ := fun _ => None;
  pyotp_installed := true;
  wall_clock := fun _ => 59;
  strftime := fun _ => "20251121-101500";
  interrupt := fun _ => false;
  do_ := fun _ _ => Ans tt;
  ask_bool := fun _ _ => Ans true;
  ask_text := fun _ _ => Ans (Some "Deposit Funds");
  ask_count := fun _ _ => Ans 2%nat;
  ask_str := fun _ _ => Ans "https://app.smokeball.com.au/#/dashboard"
|}.

(** As [happy], with the 2FA secret configured. *)
Definition with_secret : World := {|
  environ := fun k => if String.eqb k "SMOKEBALL_2FA_SECRET" then Some secret else None;
  pyotp_installed := true;
  wall_clock := fun t => 30 + Z.of_nat t;
  strftime := strftime happy;
  interrupt := interrupt happy;
  do_ := do_ happy;
  ask_bool := ask_bool happy;
  ask_text := ask_text happy;
  ask_count := ask_count happy;
  ask_str := ask_str happy
|}.

(** The transactions page shows no deposit control of any kind. *)
Definition bare : World := {|
  environ := environ happy;
  pyotp_installed := true;
  wall_clock := wall_clock happy;
  strftime := strftime happy;
  interrupt := interrupt happy;
  do_ := do_ happy;
  ask_bool := fun _ _ => Ans false;
  ask_text := fun _ _ => Ans (Some "Withdraw");
  ask_count := ask_count happy;
  ask_str := ask_str happy
|}.

(** Only the fourth strategy finds the control. *)
Definition fourth : World := {|
  environ := environ happy;
  pyotp_installed := true;
  wall_clock := wall_clock happy;
  strftime := strftime happy;
  interrupt := interrupt happy;
  do_ := do_ happy;
  ask_bool := fun _ a =>
    match a with
    | IsVisible l _ => Ans (locator_eqb l deposit_by_text)
    | _ => Ans false
    end;
  ask_text := ask_text bare;
  ask_count := ask_count happy;
  ask_str := ask_str happy
|}.

(** The login page asks for a second factor; no secret is configured and
    the user types a code. *)
Definition two_factor : World := {|
  environ := environ happy;
  pyotp_installed := true;
  wall_clock := wall_clock happy;
  strftime := strftime happy;
  interrupt := interrupt happy;
  do_ := do_ happy;
  ask_bool := ask_bool happy;
  ask_text := ask_text happy;
  ask_count := ask_count happy;
  ask_str := fun _ a =>
    match a with
    | Input _ => Ans "123456"
    | _ => Ans "https://app.smokeball.com.au/#/login"
    end
|}.

(** The user presses Ctrl+C while call number [n] is pending. *)
Definition interrupted_at (n : nat) : World := {|
  environ := environ happy;
  pyotp_installed := true;
  wall_clock := wall_clock happy;
  strftime := strftime happy;
  interrupt := fun t => Nat.eqb t n;
  do_ := do_ happy;
  ask_bool := ask_bool happy;
  ask_text := ask_text happy;
  ask_count := ask_count happy;
  ask_str := ask_str happy
|}.

Definition default_args : args := {|
  arg_matter_id := "ce2582fe-b415-4f95-b9b9-c79c903a4654";
  arg_amount := "81.7";
  arg_lastname := "Stanford";
  arg_firstname := "Logan";
  arg_reason := "On account of test search fees";
  arg_date := "21/11/2025";
  arg_test_mode := true;
  arg_submit := false
|}.

(** The command line with [--submit]. *)
Definition submit_args : args := {|
  arg_matter_id := arg_matter_id default_args;
  arg_amount := arg_amount default_args;
  arg_lastname := arg_lastname default_args;
  arg_firstname := arg_firstname default_args;
  arg_reason := arg_reason default_args;
  arg_date := arg_date default_args;
  arg_test_mode := true;
  arg_submit := true
|}.

Definition receipt_data : receipt := {|
  amount := "81.7";
  date := "21/11/2025";
  lastname := "Stanford";
  firstname := "Logan";
  reason := Some "On account of test search fees";
  description := "Bank Transfer deposit";
  type_ := "Deposit"
|}.

Definition tester : automation := {|
  test_mode := true;
  creds := {| username := default_username;
              password := default_password;
              two_factor_secret := None |}
|}.

Definition with_totp : automation := {|
  test_mode := true;
  creds := {| username := default_username;
              password := default_password;
              two_factor_secret := Some secret |}
|}.

(** The state once [initialize] has run. *)
Definition ready : state := mkState 11 true true.

End Scenario.

(** ** Auxiliary notions for the proofs *)

(** A character the reverse alphabet table knows. *)
Definition known (c : ascii) : bool := is_some (Base32.b32rev c).

(** The counts of pad characters [b32decode] accepts. *)
Definition pad_ok (padchars : nat) : bool :=
  existsb (Nat.eqb padchars) [0; 1; 3; 4; 6]%nat.

(** A completion whose exception, if it is one, satisfies [okE]. *)
Definition raise_ok {R A : Type} (okE : exn -> Prop) (c : completion R A) : Prop :=
  match c with
  | Raise e => okE e
  | _ => True
  end.

(** Every run of [m] records only events in [P] and raises only
    exceptions in [okE]. *)
Definition fits {R A : Type} (okE : exn -> Prop) (P : event -> Prop) (m : M R A)
  : Prop :=
  forall s c s' evs, m s = (c, s', evs) -> Forall P evs /\ raise_ok okE c.

(** [m] ends normally or raises; it never leaves through [return],
    [break] or [continue]. *)
Definition plain {R A : Type} (m : M R A) : Prop :=
  forall s c s' evs, m s = (c, s', evs) ->
    (exists a, c = Normal a) \/ (exists e, c = Raise e).

(** [m] ends by returning [x], unless it raises. *)
Definition ends_with {R A : Type} (x : R) (m : M R A) : Prop :=
  forall s c s' evs, m s = (c, s', evs) ->
    c = Return x \/ (exists e, c = Raise e).

(** A run in which nobody interrupts and neither creating the
    screenshots directory nor closing the browser fails. *)
Definition calm (w : World) : Prop :=
  uninterrupted w
  /\ (forall t, do_ w t (Mkdir "screenshots") = Ans tt)
  /\ (forall t, do_ w t CloseBrowser = Ans tt).


(** Whatever [login] types is a stored credential, or goes into the
    two-factor field. *)
Definition types_credentials (self : automation) (e : event) : Prop :=
  match e with
  | Ev (Fill l t) _ =>
      t = username (creds self) \/ t = password (creds self)
      \/ l = two_factor_input
  | _ => True
  end.

(** The text [t] went into the field [l]. *)
Definition typed_into (l : locator) (t : string) (e : event) : bool :=
  match e with
  | Ev (Fill l' t') Done => locator_eqb l' l && String.eqb t' t
  | _ => false
  end.

Definition is_launch (e : event) : bool :=
  match e with
  | Ev Launch Done => true
  | _ => false
  end.

(** What one block of the chain of deposit strategies can do: it
    evaluates the strategies [entries]; either it returns, right after
    the one successful click of strategy [j], or it goes on without a
    click. *)
Definition block_outcome (entries : list nat) (j : nat)
  (c : completion unit unit) (evs : list event) : Prop :=
  attempted evs = entries
  /\ existsb after_raise evs = false
  /\ ((c = Return tt /\ matches evs = [j]
       /\ forallb passive (after_first_match evs) = true)
      \/ ((c = Normal tt \/ c = Continue) /\ matches evs = [])).

(** The same for a fragment that never ends in [continue]. *)
Definition step_outcome (entries : list nat) (j : nat)
  (c : completion unit unit) (evs : list event) : Prop :=
  attempted evs = entries
  /\ existsb after_raise evs = false
  /\ ((c = Return tt /\ matches evs = [j]
       /\ forallb passive (after_first_match evs) = true)
      \/ (c = Normal tt /\ matches evs = [])).

(** What the chain does from strategy [from] on: it evaluates the
    strategies [from .. k]; either strategy [k] clicks and the function
    returns, or all seven were evaluated and the function raises. *)
Definition chain_outcome (from : nat) (c : completion unit unit)
  (evs : list event) : Prop :=
  existsb after_raise evs = false
  /\ exists k,
       (from <= k + 1 /\ k <= 7)%nat
       /\ attempted evs = seq from (k + 1 - from)
       /\ ((c = Return tt /\ (from <= k)%nat /\ matches evs = [k]
            /\ forallb passive (after_first_match evs) = true)
           \/ (c = Raise (Exception not_found_message) /\ k = 7%nat
               /\ matches evs = [])).

(** [m] never completes normally. *)
Definition diverts {R A : Type} (m : M R A) : Prop :=
  forall s c s' evs, m s = (c, s', evs) -> forall a, c <> Normal a.

(** The login page shows the field for the two-factor code. *)
Definition two_factor_shown : event :=
  Ev (WaitForSelector sel_two_factor 15000) Done.

(** Right after the field is shown the script announces the manual
    entry and waits at the prompt; a code that is typed goes into the
    field next. *)
Definition prompted (evs : list event) : Prop :=
  exists pre r post,
    evs = pre ++ two_factor_shown
                 :: Out "Manual 2FA required - please enter code:"
                 :: Ev (Input "Enter 2FA code: ") r :: post
    /\ forall code, r = Str code ->
         exists r' post', post = Ev (Fill two_factor_input code) r' :: post'.

(** Every run of [m] that sees the two-factor field prompts for a code. *)
Definition prompts {R A : Type} (m : M R A) : Prop :=
  forall s c s' evs, m s = (c, s', evs) -> In two_factor_shown evs -> prompted evs.

(** No run of [m] sees the two-factor field. *)
Definition before_two_factor {R A : Type} (m : M R A) : Prop :=
  fits (fun _ => True) (fun e => e <> two_factor_shown) m.

(** [m] leaves [self.browser] as it found it. *)
Definition steady {R A : Type} (m : M R A) : Prop :=
  forall s c s' evs, m s = (c, s', evs) -> browser s' = browser s.

(** Neither a launch nor a close of the browser. *)
Definition off_browser (e : event) : Prop :=
  is_close e = false /\ is_launch e = false.

(** The number of calls of [browser.close()]. *)
Definition closes (evs : list event) : nat := length (filter is_close evs).


(** ** The head of the module and the command line *)

(** Lines 28-33: without Playwright the module prints two lines and
    leaves through [sys.exit(1)]. *)
Definition import_playwright {R : Type} (playwright_installed : bool) : M R unit :=
  if playwright_installed then ret tt
  else
    print "Playwright not installed. Install with: pip install playwright" ;;
    print "   Then run: playwright install chromium" ;;
    raise (SystemExit 1).

(** Lines 35-40: without pyotp the module prints two lines and goes on. *)
Definition import_pyotp {R : Type} (w : World) : M R unit :=
  if pyotp_installed w then ret tt
  else
    print "pyotp not installed. 2FA will require manual input." ;;
    print "   Install with: pip install pyotp".

(** What the module does when it is loaded, as a program or by an
    [import] (lines 20-42).  The standard library and [dotenv] are taken
    to be importable; what [load_dotenv] puts into the environment is
    part of [environ]. *)
Definition module_head {R : Type} (w : World) (playwright_installed : bool)
  : M R unit :=
  import_playwright playwright_installed ;;
  import_pyotp w.






(** ** The test of the second factor ([test-2fa-automation.py]) *)

(** White space that [int] strips from both ends of a text. *)
Definition is_space (c : ascii) : bool :=
  let n := nat_of_ascii c in
  (((9 <=? n) && (n <=? 13)) || ((28 <=? n) && (n <=? 32)))%nat.

Fixpoint drop_space (cs : list ascii) : list ascii :=
  match cs with
  | c :: rest => if is_space c then drop_space rest else cs
  | [] => []
  end.

Definition strip (cs : list ascii) : list ascii :=
  rev (drop_space (rev (drop_space cs))).

(** Decimal digits, with single underscores between them. *)
Fixpoint int_digits (cs : list ascii) (acc : Z) (after_digit : bool) : option Z :=
  match cs with
  | [] => if after_digit then Some acc else None
  | c :: rest =>
      if is_digit c
      then int_digits rest (10 * acc + Z.of_nat (nat_of_ascii c - 48)) true
      else if Ascii.eqb c "_" && after_digit then int_digits rest acc false
      else None
  end.

(** [int(s)] for a text [s]: white space around it, a sign, decimal
    digits.  The bound that recent interpreters put on the number of
    digits plays no part for the six-digit texts of this script. *)
Definition int_str (s : string) : outcome Z :=
  let cs := strip (list_ascii_of_string s) in
  let '(sign, body) :=
    match cs with
    | "-"%char :: rest => (-1, rest)
    | "+"%char :: rest => (1, rest)
    | _ => (1, cs)
    end in
  match int_digits body 0 false with
  | Some n => Returns (sign * n)
  | None =>
      Raises (ValueError ("invalid literal for int() with base 10: " +++ repr_str s))
  end.

(** ["=" * 60] *)
Definition rule : string := string_of_list_ascii (repeat "="%char 60).

Section Test2fa.

Variable w : World.
Variable playwright_installed : bool.

(** [totp.now()] for [totp = pyotp.TOTP(secret)], at the time of the call *)
Definition totp_now {R : Type} (secret : string) : M R string :=
  fun s => lift (Pyotp.now secret (wall_clock w (clock s))) s.

(** One pass of [for i in range(3)] in [test_2fa_generation]; the
    remaining time is computed from a second code, read as a number. *)
Definition show_code (secret : string) (i : nat) : M bool unit :=
  code <- totp_now secret ;;
  again <- totp_now secret ;;
  n <- lift (int_str again) ;;
  let remaining_time := Pyotp.interval - n mod Pyotp.interval in
  print ("   Code " +++ str_int (Z.of_nat (i + 1)) +++ ": " +++ code
         +++ " (valid for " +++ str_int remaining_time +++ " more seconds)") ;;
  if (i <? 2)%nat then sleep w 1000 else ret tt.

(** [test_2fa_generation] *)
Definition test_2fa_generation {R : Type} : M R bool :=
  call false
    (print "[TEST] Testing 2FA Token Generation" ;;
     print rule ;;
     let two_factor_secret := environ w "SMOKEBALL_2FA_SECRET" in
     if negb (truthy two_factor_secret) then
       print "[ERROR] SMOKEBALL_2FA_SECRET not found in environment variables" ;;
       print (nl +++ "[INFO] To configure:") ;;
       print "   1. Add SMOKEBALL_2FA_SECRET to your .env file" ;;
       print "   2. The secret should be in base32 format" ;;
       print "   3. You can get it from your authenticator app settings" ;;
       return_ false
     else
       let secret := str_option two_factor_secret in
       print "[OK] Found SMOKEBALL_2FA_SECRET in environment" ;;
       print ("   Secret length: " +++ str_int (Z.of_nat (String.length secret))
              +++ " characters") ;;
       print ("   Secret preview: " +++ substring 0 10 secret +++ "...") ;;
       try_except
         (print (nl +++ "[INFO] Generating TOTP code...") ;;
          code <- totp_now secret ;;
          print ("[OK] Successfully generated 2FA code: " +++ code) ;;
          print ("   Code length: " +++ str_int (Z.of_nat (String.length code))
                 +++ " digits") ;;
          print (nl +++ "[TEST] Testing code generation over time:") ;;
          print "   (Codes should change every 30 seconds)" ;;
          for_each (seq 0 3) (show_code secret) ;;
          print (nl +++ "[OK] 2FA token generation is working correctly!") ;;
          print (nl +++ "[INFO] This means the Python automation script will be able to:") ;;
          print "   - Automatically generate 2FA codes during login" ;;
          print "   - Complete login without manual intervention" ;;
          print "   - Run fully automated receipt creation" ;;
          return_ true)
         is_Exception
         (fun e =>
            print ("[ERROR] Failed to generate TOTP code: " +++ str_exn e) ;;
            print (nl +++ "[TROUBLESHOOTING]") ;;
            print "   - Verify SMOKEBALL_2FA_SECRET is in base32 format" ;;
            print "   - Check that the secret matches your authenticator app" ;;
            print "   - Ensure pyotp is installed: pip install pyotp" ;;
            return_ false)).

(** [from smokeball_receipt_automation import SmokeBallReceiptAutomation]
    (line 93): the head of that module runs, its [__main__] block does
    not.  Without Playwright the module leaves through [sys.exit(1)]. *)
Definition import_automation {R : Type} : M R unit :=
  module_head w playwright_installed.

(** [test_automation_2fa_integration].  No exception of this model is an
    [ImportError], so of its two handlers only [except Exception] is
    ever entered; the [SystemExit] of the import passes both. *)
Definition test_automation_2fa_integration {R : Type} : M R bool :=
  call false
    (print (nl +++ rule) ;;
     print "[TEST] Testing Automation Script 2FA Integration" ;;
     print rule ;;
     try_except
       (import_automation ;;
        print "[OK] Successfully imported SmokeBallReceiptAutomation" ;;
        automation <- init_ w true ;;
        if truthy (two_factor_secret (creds automation)) then
          print "[OK] 2FA secret is configured in automation class" ;;
          try_except
            (code <- generate_totp_code w automation ;;
             print ("[OK] generate_totp_code() works: " +++ code) ;;
             return_ true)
            is_Exception
            (fun e =>
               print ("[ERROR] generate_totp_code() failed: " +++ str_exn e) ;;
               return_ false)
        else
          print "[WARNING] 2FA secret not configured in automation class" ;;
          print "   The automation will prompt for manual 2FA input" ;;
          return_ false)
       is_Exception
       (fun e =>
          print ("[ERROR] Error testing automation integration: " +++ str_exn e) ;;
          return_ false)).

Definition verdict (passed : bool) : string :=
  if passed then "[PASS]" else "[FAIL]".

(** The test script: the import of pyotp at its head (lines 19-23; the
    standard library and [dotenv] are taken to be importable), then the
    [if __name__ == '__main__':] block. *)
Definition test_script : M unit unit :=
  if negb (pyotp_installed w) then
    print "[ERROR] pyotp not installed. Install with: pip install pyotp" ;;
    raise (SystemExit 1)
  else
    print (nl +++ rule) ;;
    print "[START] Smokeball 2FA Automation Test" ;;
    print (rule +++ nl) ;;
    test1_result <- test_2fa_generation ;;
    test2_result <- test_automation_2fa_integration ;;
    print (nl +++ rule) ;;
    print "[SUMMARY] Test Summary" ;;
    print rule ;;
    print ("   Basic 2FA Generation: " +++ verdict test1_result) ;;
    print ("   Automation Integration: " +++ verdict test2_result) ;;
    if test1_result && test2_result then
      print (nl +++ "[SUCCESS] All tests passed! 2FA automation is ready to use.") ;;
      raise (SystemExit 0)
    else
      print (nl +++ "[WARNING] Some tests failed. Please check the errors above.") ;;
      raise (SystemExit 1).

End Test2fa.

(** ** Further notions for the proofs *)

(** The configured secret is there and is valid base32. *)
Definition secret_usable (w : World) : bool :=
  match environ w "SMOKEBALL_2FA_SECRET" with
  | Some secret => valid_base32 secret
  | None => false
  end.

(** The system clock never reads a time before the epoch. *)
Definition after_epoch (w : World) : Prop :=
  forall t, 0 <= wall_clock w t.

(** Every normal result of [m] satisfies [Q]. *)
Definition yields {R A : Type} (Q : A -> Prop) (m : M R A) : Prop :=
  forall s c s' evs, m s = (c, s', evs) -> forall a, c = Normal a -> Q a.

(** A call that only the statements after the raise of line 353 can make,
    told from the calls of the rest of the script: a call on a control
    found through its label, as every field of the receipt is, or on the
    commit control, or the 30-second hold. *)
Definition form_step (e : event) : bool :=
  match e with
  | Ev (Click l) _ | Ev (Fill l _) _ | Ev (Clear l) _ | Ev (Press l _) _
  | Ev (IsEnabled l) _ =>
      match l with
      | First (Within _ _) => true
      | _ => locator_eqb l process_button
      end
  | Ev (Sleep ms) _ => ms =? 30000
  | _ => false
  end.

(** The address the browser is sent to is the login page or the
    transactions page of the matter. *)
Definition visits (matter_id : string) (e : event) : Prop :=
  match e with
  | Ev (Goto url _) _ =>
      url = "https://app.smokeball.com.au"
      \/ url = transactions_url matter_id account_id
  | _ => True
  end.

(** The exception a completion carries, if it is one. *)
Definition raised {R A : Type} (c : completion R A) : option exn :=
  match c with
  | Raise e => Some e
  | _ => None
  end.

(** Every run of [m] ends in a way and with a record that [T] allows. *)
Definition shows {R A : Type} (T : option exn -> list event -> Prop) (m : M R A)
  : Prop :=
  forall s c s' evs, m s = (c, s', evs) -> T (raised c) evs.

(** The line that opens the two-factor block of [login]. *)
Definition two_factor_required : event := Out "2FA required...".

(** A step of the two-factor block of [login] (lines 157-186): its
    opening line, the wait for the field, the prompt, the code typed
    into the field, the confirmation, the wait for the dashboard. *)
Definition second_factor_step (e : event) : bool :=
  match e with
  | Out line => String.eqb line "2FA required..."
  | Ev (WaitForSelector selector _) _ => String.eqb selector sel_two_factor
  | Ev (Fill l _) _ | Ev (Press l _) _ => locator_eqb l two_factor_input
  | Ev (Click l) _ => locator_eqb l verify_button
  | Ev (WaitForUrl _ _) _ | Ev (Input _) _ => true
  | _ => false
  end.

(** No second-factor step, and no reading of the address. *)
Definition before_address (e : event) : Prop :=
  second_factor_step e = false /\ forall r, e <> Ev Url r.

(** The address read after the login click decides whether the
    two-factor block runs. *)
Definition address_decides (_ : option exn) (evs : list event) : Prop :=
  forall url, In (Ev Url (Str url)) evs ->
    existsb second_factor_step evs = negb (contains "dashboard" url).

(** A failure of the two-factor block carries its prefix. *)
Definition second_factor_wrapped (x : option exn) (evs : list event) : Prop :=
  In two_factor_required evs ->
  forall e, x = Some e -> exists msg, e = Exception ("2FA failed: " +++ msg).

(** The wait for the e-mail field of the login page, and how it ended. *)
Definition email_awaited (r : reply) : event :=
  Ev (WaitForSelector sel_email 10000) r.

(** Neither typing nor the wait for the e-mail field. *)
Definition before_email (e : event) : Prop :=
  is_fill e = false /\ forall r, e <> email_awaited r.

(** Once the wait for the e-mail field has failed, the run raises and
    nothing was typed. *)
Definition email_field_needed (x : option exn) (evs : list event) : Prop :=
  (exists r, r <> Done /\ In (email_awaited r) evs) ->
  (exists e, x = Some e) /\ existsb is_fill evs = false.

(** Nobody is asked for a code, and what goes into the two-factor field
    is a code of [secret] for some reading of the clock. *)
Definition typed_code (w : World) (secret : string) (e : event) : Prop :=
  match e with
  | Ev (Input _) _ => False
  | Ev (Fill l code) _ =>
      l = two_factor_input ->
      exists t, Pyotp.now secret (wall_clock w t) = Returns code
  | _ => True
  end.

(** Every click in the record is on a button of the list of strategy 5
    whose text, read before, contains "deposit" in some letter case. *)
Definition clicks_deposit_buttons (evs : list event) : Prop :=
  forall l r,
    In (Ev (Click l) r) evs ->
    exists i text,
      l = Nth (Css sel_buttons) i
      /\ In (Ev (TextContent l) (Text (Some text))) evs
      /\ contains "deposit" (lower text) = true.

(** Every run of [m] ends in a way that [C] allows. *)
Definition always {R A : Type} (C : completion R A -> Prop) (m : M R A) : Prop :=
  forall s c s' evs, m s = (c, s', evs) -> C c.

(** The statement goes through to its end. *)
Definition completes {R A : Type} (c : completion R A) : Prop :=
  exists a, c = Normal a.

(** The statement raises an [Exception]. *)
Definition fails {R A : Type} (c : completion R A) : Prop :=
  exists e, c = Raise e /\ is_Exception e = true.

(** ** Further pages *)

(** As [Scenario.happy], but no field of the receipt form is on the
    page: every call on a control found through its label fails. *)
Definition without_fields : World := {|
  environ := environ Scenario.happy;
  pyotp_installed := true;
  wall_clock := wall_clock Scenario.happy;
  strftime := strftime Scenario.happy;
  interrupt := interrupt Scenario.happy;
  do_ := fun _ a =>
    match a with
    | Click (First (Within _ _)) | Fill (First (Within _ _)) _
    | Clear (First (Within _ _)) | Press (First (Within _ _)) _ =>
        Err "Timeout 30000ms exceeded."
    | _ => Ans tt
    end;
  ask_bool := ask_bool Scenario.happy;
  ask_text := ask_text Scenario.happy;
  ask_count := ask_count Scenario.happy;
  ask_str := ask_str Scenario.happy
|}.

(** As [Scenario.two_factor], with [SMOKEBALL_2FA_SECRET] set to a text
    that is not base32. *)
Definition malformed_secret : string := "not base32!".

Definition two_factor_malformed : World := {|
  environ := fun k =>
    if String.eqb k "SMOKEBALL_2FA_SECRET" then Some malformed_secret else None;
  pyotp_installed := true;
  wall_clock := wall_clock Scenario.happy;
  strftime := strftime Scenario.happy;
  interrupt := interrupt Scenario.happy;
  do_ := do_ Scenario.happy;
  ask_bool := ask_bool Scenario.happy;
  ask_text := ask_text Scenario.happy;
  ask_count := ask_count Scenario.happy;
  ask_str := ask_str Scenario.two_factor
|}.

(** The automation object its constructor builds there. *)
Definition with_malformed : automation := {|
  test_mode := true;
  creds := {| username := default_username;
              password := default_password;
              two_factor_secret := Some malformed_secret |}
|}.

(** A line of the log that holds [needle]. *)
Definition logs (needle : string) (e : event) : bool :=
  match e with
  | Out line => contains needle line
  | Ev _ _ => false
  end.

(** The lines of the log, in order. *)
Definition printed (evs : list event) : list string :=
  flat_map (fun e => match e with Out l => [l] | Ev _ _ => [] end) evs.

(** A prompt for input. *)
Definition is_input (e : event) : bool :=
  match e with
  | Ev (Input _) _ => true
  | _ => false
  end.


(** Once the two-factor field was shown, the block had been announced
    and the run raises. *)
Definition shown_then_raises (x : option exn) (evs : list event) : Prop :=
  In two_factor_shown evs ->
  In two_factor_required evs /\ exists e, x = Some e.
(** * Properties *)

(** ** The one-time-password generator *)

Lemma to_bytes_be_length (n : nat) (x : Z) : length (to_bytes_be n x) = n.
Proof.
  unfold to_bytes_be. now rewrite length_map, length_rev, length_seq.
Qed.

Lemma digest_length (msg : list Z) : length (SHA1.digest msg) = 20%nat.
Proof.
  unfold SHA1.digest.
  destruct (fold_left SHA1.compress (chunks 64 (SHA1.pad msg)) SHA1.init)
    as [[[[h0 h1] h2] h3] h4].
  unfold SHA1.words. cbv [map concat].
  rewrite !length_app, !to_bytes_be_length. reflexivity.
Qed.
Lemma hmac_length (key msg : list Z) : length (SHA1.hmac key msg) = 20%nat.
Proof. unfold SHA1.hmac. apply digest_length. Qed.

Lemma land_15_bounds (x : Z) : 0 <= Z.land x 15 < 16.
Proof.
  change 15 with (Z.ones 4). rewrite Z.land_ones by lia.
  apply Z.mod_pos_bound. reflexivity.
Qed.

Lemma index_in_range (l : list Z) (i : nat) :
  (i < length l)%nat -> exists x, index l i = Returns x.
Proof.
  intros H. unfold index.
  destruct (nth_error l i) eqn:E.
  - eauto.
  - apply nth_error_None in E. lia.
Qed.

Lemma is_digit_digit_char (d : Z) : 0 <= d < 10 -> is_digit (digit_char d) = true.
Proof.
  intros H.
  assert (d = 0 \/ d = 1 \/ d = 2 \/ d = 3 \/ d = 4 \/ d = 5 \/ d = 6 \/ d = 7
          \/ d = 8 \/ d = 9) as C by lia.
  repeat destruct C as [C | C]; subst; reflexivity.
Qed.

Lemma digits_fuel_all_digits (fuel : nat) :
  forall n acc, forallb is_digit acc = true ->
                forallb is_digit (digits_fuel fuel n acc) = true.
Proof.
  induction fuel as [| f IH]; intros n acc Hacc.
  - exact Hacc.
  - cbn [digits_fuel].
    assert (forallb is_digit (digit_char (n mod 10) :: acc) = true) as H.
    { cbn [forallb]. rewrite Hacc, is_digit_digit_char; [reflexivity |].
      apply Z.mod_pos_bound. reflexivity. }
    destruct (n / 10 =? 0); [exact H | now apply IH].
Qed.

Lemma digits_fuel_grows (fuel : nat) :
  forall n acc, (length acc <= length (digits_fuel fuel n acc))%nat.
Proof.
  induction fuel as [| f IH]; intros n acc; cbn [digits_fuel]; [lia |].
  destruct (n / 10 =? 0); cbn [length]; [lia |].
  specialize (IH (n / 10) (digit_char (n mod 10) :: acc)). cbn [length] in IH. lia.
Qed.

Lemma digits_fuel_length (k : nat) :
  forall fuel n acc,
    10 ^ Z.of_nat k <= n -> (k < fuel)%nat ->
    (k + 1 + length acc <= length (digits_fuel fuel n acc))%nat.
Proof.
  induction k as [| k IH]; intros fuel n acc Hn Hf.
  - destruct fuel as [| f]; [lia |]. cbn [digits_fuel].
    destruct (n / 10 =? 0).
    + cbn [length]. lia.
    + pose proof (digits_fuel_grows f (n / 10) (digit_char (n mod 10) :: acc)) as G.
      cbn [length] in G. lia.
  - destruct fuel as [| f]; [lia |]. cbn [digits_fuel].
    assert (0 < 10 ^ Z.of_nat k) as Hpos by (apply Z.pow_pos_nonneg; lia).
    assert (10 ^ Z.of_nat (S k) = 10 * 10 ^ Z.of_nat k) as Hs.
    { rewrite Nat2Z.inj_succ. apply Z.pow_succ_r. lia. }
    assert (10 ^ Z.of_nat k <= n / 10) as Hq.
    { apply Z.div_le_lower_bound; lia. }
    destruct (n / 10 =? 0) eqn:E.
    + apply Z.eqb_eq in E. lia.
    + specialize (IH f (n / 10) (digit_char (n mod 10) :: acc) Hq).
      cbn [length] in IH. lia.
Qed.

Lemma forallb_skipn {A : Type} (f : A -> bool) (n : nat) :
  forall l, forallb f l = true -> forallb f (skipn n l) = true.
Proof.
  induction n as [| n IH]; intros l H; [exact H |].
  destruct l as [| x l]; [reflexivity |].
  cbn [skipn]. apply IH. cbn [forallb] in H.
  now apply andb_true_iff in H.
Qed.

Lemma length_string_of_list_ascii (l : list ascii) :
  String.length (string_of_list_ascii l) = length l.
Proof.
  induction l as [| c l IH]; [reflexivity |].
  cbn [string_of_list_ascii String.length length]. now rewrite IH.
Qed.

Lemma otp_text (r : Z) :
  0 <= r ->
  let t := slice_last Pyotp.digits
             (list_ascii_of_string (str_int (10000000000 + r))) in
  length t = 6%nat /\ forallb is_digit t = true.
Proof.
  intros Hr. cbv zeta. unfold str_int.
  assert ((10000000000 + r <? 0) = false) as E by (apply Z.ltb_ge; lia).
  rewrite E, list_ascii_of_string_of_list_ascii.
  unfold slice_last, Pyotp.digits, digits.
  set (n := 10000000000 + r).
  assert (33 <= Z.log2 n) as Hlog.
  { change 33 with (Z.log2 10000000000). apply Z.log2_le_mono. lia. }
  pose proof (digits_fuel_length 5 (S (Z.to_nat (Z.log2 n))) n []) as Hlen.
  cbn [length] in Hlen.
  assert (10 ^ Z.of_nat 5 = 100000) as P by reflexivity.
  rewrite P in Hlen.
  specialize (Hlen ltac:(lia) ltac:(lia)).
  split.
  - rewrite length_skipn. lia.
  - apply forallb_skipn, digits_fuel_all_digits. reflexivity.
Qed.

Lemma generate_otp_returns (secret : string) (key : list Z) (input : Z) :
  Pyotp.byte_secret secret = Returns key ->
  0 <= input ->
  exists code,
    Pyotp.generate_otp secret input = Returns code
    /\ String.length code = 6%nat
    /\ forallb is_digit (list_ascii_of_string code) = true.
Proof.
  intros Hkey Hin. unfold Pyotp.generate_otp.
  assert ((input <? 0) = false) as E by (apply Z.ltb_ge; lia).
  rewrite E, Hkey. cbn [obind].
  set (h := SHA1.hmac key (Pyotp.int_to_bytestring input)).
  assert (length h = 20%nat) as Hlen by apply hmac_length.
  assert (exists lastb, index_last h = Returns lastb) as [lastb Hlast].
  { unfold index_last. destruct h; [discriminate | eauto]. }
  rewrite Hlast. cbn [obind].
  pose proof (land_15_bounds lastb) as Hoff.
  set (offset := Z.to_nat (Z.land lastb 15)).
  assert (offset < 16)%nat as Ho by (unfold offset; lia).
  destruct (index_in_range h offset) as [b0 H0]; [lia |].
  destruct (index_in_range h (offset + 1)) as [b1 H1]; [lia |].
  destruct (index_in_range h (offset + 2)) as [b2 H2]; [lia |].
  destruct (index_in_range h (offset + 3)) as [b3 H3]; [lia |].
  rewrite H0, H1, H2, H3. cbn [obind].
  eexists. split; [reflexivity |].
  rewrite length_string_of_list_ascii, list_ascii_of_string_of_list_ascii.
  apply otp_text.
  apply Z.mod_pos_bound. reflexivity.
Qed.

(** *** Chunks *)

Lemma chunks_fuel_concat {A : Type} (n : nat) :
  forall fuel (l : list A),
    (length l <= fuel)%nat -> concat (chunks_fuel fuel (S n) l) = l.
Proof.
  induction fuel as [| f IH]; intros l Hl.
  - destruct l; [reflexivity | cbn [length] in Hl; lia].
  - destruct l as [| x l]; [reflexivity |].
    cbn [chunks_fuel concat].
    rewrite IH.
    + apply firstn_skipn.
    + rewrite length_skipn. cbn [length] in *. lia.
Qed.

Lemma chunks_concat {A : Type} (n : nat) (l : list A) :
  concat (chunks (S n) l) = l.
Proof. apply chunks_fuel_concat. lia. Qed.

(** *** Characters *)

Ltac all_ascii c :=
  destruct c as [[] [] [] [] [] [] [] []]; vm_compute; reflexivity.

Lemma b32rev_upper (c : ascii) :
  is_some (Base32.b32rev (Base32.upper c)) = is_base32_char c.
Proof. all_ascii c. Qed.

Lemma upper_pad (c : ascii) :
  Ascii.eqb (Base32.upper c) Base32.pad_char = Ascii.eqb c Base32.pad_char.
Proof. all_ascii c. Qed.

Lemma base32_char_is_ascii (c : ascii) :
  is_base32_char c = true -> Base32.is_ascii c = true.
Proof. destruct c as [[] [] [] [] [] [] [] []]; vm_compute; congruence. Qed.

(** *** Stripping the padding *)

Lemma lstrip_repeat (k : nat) (l : list ascii) :
  Base32.lstrip (repeat Base32.pad_char k ++ l) = Base32.lstrip l.
Proof. induction k as [| k IH]; [reflexivity | exact IH]. Qed.

Lemma lstrip_map_upper (l : list ascii) :
  Base32.lstrip (map Base32.upper l) = map Base32.upper (Base32.lstrip l).
Proof.
  induction l as [| c l IH]; [reflexivity |].
  cbn [map Base32.lstrip]. rewrite upper_pad.
  destruct (Ascii.eqb c Base32.pad_char); [exact IH | reflexivity].
Qed.

Lemma lstrip_decompose (l : list ascii) :
  l = repeat Base32.pad_char (length l - length (Base32.lstrip l)) ++ Base32.lstrip l
  /\ (length (Base32.lstrip l) <= length l)%nat.
Proof.
  induction l as [| c l [IH1 IH2]]; [split; reflexivity |].
  cbn [Base32.lstrip].
  destruct (Ascii.eqb c Base32.pad_char) eqn:E.
  - apply Ascii.eqb_eq in E. subst c. cbn [length]. split; [| lia].
    replace (S (length l) - length (Base32.lstrip l))%nat
      with (S (length l - length (Base32.lstrip l))) by lia.
    cbn [repeat app]. f_equal. exact IH1.
  - split; [| lia]. now rewrite Nat.sub_diag.
Qed.

Lemma rev_repeat {A : Type} (x : A) (k : nat) : rev (repeat x k) = repeat x k.
Proof.
  induction k as [| k IH]; [reflexivity |].
  cbn [repeat rev]. rewrite IH. symmetry. apply repeat_cons.
Qed.

Lemma rstrip_pad (l : list ascii) (k : nat) :
  Base32.rstrip (l ++ repeat Base32.pad_char k) = Base32.rstrip l.
Proof.
  unfold Base32.rstrip. now rewrite rev_app_distr, rev_repeat, lstrip_repeat.
Qed.

Lemma rstrip_map_upper (l : list ascii) :
  Base32.rstrip (map Base32.upper l) = map Base32.upper (Base32.rstrip l).
Proof.
  unfold Base32.rstrip. now rewrite <- map_rev, lstrip_map_upper, map_rev.
Qed.

Lemma rstrip_decompose (l : list ascii) :
  l = Base32.rstrip l ++ repeat Base32.pad_char (length l - length (Base32.rstrip l))
  /\ (length (Base32.rstrip l) <= length l)%nat.
Proof.
  unfold Base32.rstrip.
  destruct (lstrip_decompose (rev l)) as [H1 H2].
  rewrite length_rev in *. split; [| exact H2].
  rewrite <- (rev_involutive l) at 1. rewrite H1 at 1.
  now rewrite rev_app_distr, rev_repeat.
Qed.

(** *** The decoding loop *)

Lemma decode_quantum_none (q : list ascii) :
  fold_left
    (fun acc c =>
       match acc, Base32.b32rev c with
       | Some a, Some v => Some (Z.shiftl a 5 + v)
       | _, _ => None
       end) q None = None.
Proof. induction q as [| c q IH]; [reflexivity | exact IH]. Qed.

Lemma decode_quantum_some (q : list ascii) :
  is_some (Base32.decode_quantum q) = forallb known q.
Proof.
  unfold Base32.decode_quantum. generalize 0 as a.
  induction q as [| c q IH]; intros a; [reflexivity |].
  cbn [fold_left forallb]. unfold known at 1.
  destruct (Base32.b32rev c) as [v |]; cbn [is_some andb].
  - apply IH.
  - now rewrite decode_quantum_none.
Qed.

Lemma decode_quanta_some (qs : list (list ascii)) :
  forall decoded acc,
    is_some (Base32.decode_quanta qs decoded acc) = forallb known (concat qs).
Proof.
  induction qs as [| q qs IH]; intros decoded acc; [reflexivity |].
  cbn [Base32.decode_quanta concat]. rewrite forallb_app, <- decode_quantum_some.
  destruct (Base32.decode_quantum q); cbn [is_some andb]; [apply IH | reflexivity].
Qed.

Lemma forallb_known_upper (l : list ascii) :
  forallb known (map Base32.upper l) = forallb is_base32_char l.
Proof.
  induction l as [| c l IH]; [reflexivity |].
  cbn [map forallb]. unfold known at 1. now rewrite b32rev_upper, IH.
Qed.

(** *** When [b32decode] returns *)

Lemma b32decode_returns (p : list ascii) :
  (length p mod 8 = 0)%nat ->
  (exists key, Base32.b32decode p = Returns key)
  <-> forallb Base32.is_ascii p = true
      /\ forallb is_base32_char (Base32.rstrip p) = true
      /\ pad_ok (length p - length (Base32.rstrip p)) = true.
Proof.
  intros Hlen. unfold Base32.b32decode.
  rewrite length_map, rstrip_map_upper, length_map, Hlen.
  change (0 =? 0)%nat with true. cbn [negb orb].
  pose proof (decode_quanta_some (chunks 8 (map Base32.upper (Base32.rstrip p))) [] 0) as D.
  rewrite chunks_concat, forallb_known_upper in D.
  fold (pad_ok (length p - length (Base32.rstrip p))).
  destruct (forallb Base32.is_ascii p); cbn [negb].
  2: { split; [intros [k H]; discriminate | intros [H _]; discriminate]. }
  destruct (Base32.decode_quanta _ _ _) as [[decoded acc] |]; cbn [is_some] in D;
    rewrite <- D.
  2: { split; [intros [k H]; discriminate | intros (_ & H & _); discriminate]. }
  destruct (pad_ok _); cbn [negb].
  2: { split; [intros [k H]; discriminate | intros (_ & _ & H); discriminate]. }
  split; [auto |]. intros _.
  destruct (_ && _); eauto.
Qed.

Lemma b32decode_raises (p : list ascii) (e : exn) :
  Base32.b32decode p = Raises e -> is_ValueError e = true.
Proof.
  unfold Base32.b32decode.
  repeat match goal with
         | |- context [if ?b then _ else _] => destruct b
         | |- context [match ?o with Some _ => _ | None => _ end] => destruct o as [[? ?] |]
         end; intros H; inversion H; reflexivity.
Qed.

Lemma pad_ok_iff (n : nat) :
  pad_ok n = true <-> (n = 0 \/ n = 1 \/ n = 3 \/ n = 4 \/ n = 6)%nat.
Proof.
  unfold pad_ok. cbn [existsb]. rewrite !orb_true_iff, !Nat.eqb_eq.
  intuition (try discriminate; auto).
Qed.

Lemma group_ok_iff (n : nat) :
  existsb (Nat.eqb n) [0; 2; 4; 5; 7]%nat = true
  <-> (n = 0 \/ n = 2 \/ n = 4 \/ n = 5 \/ n = 7)%nat.
Proof.
  cbn [existsb]. rewrite !orb_true_iff, !Nat.eqb_eq.
  intuition (try discriminate; auto).
Qed.

(** The padding that pyotp adds brings the count of pad characters into
    the accepted set exactly when the body ends in a group of an
    accepted size that the written padding does not overrun. *)
Lemma padding_arith (b c : nat) :
  (b <= c)%nat ->
  let k := (if (c mod 8 =? 0)%nat then 0 else 8 - c mod 8)%nat in
  pad_ok (c + k - b) = true
  <-> existsb (Nat.eqb (b mod 8)) [0; 2; 4; 5; 7]%nat = true
      /\ (c <= 8 * ((b + 7) / 8))%nat.
Proof.
  intros Hbc k. rewrite pad_ok_iff, group_ok_iff.
  pose proof (Nat.div_mod_eq c 8) as Hc.
  pose proof (Nat.mod_upper_bound c 8 ltac:(lia)) as Hcm.
  pose proof (Nat.div_mod_eq b 8) as Hb.
  pose proof (Nat.mod_upper_bound b 8 ltac:(lia)) as Hbm.
  pose proof (Nat.div_mod_eq (b + 7) 8) as Hr.
  pose proof (Nat.mod_upper_bound (b + 7) 8 ltac:(lia)) as Hrm.
  subst k.
  destruct (c mod 8 =? 0)%nat eqn:E;
    [apply Nat.eqb_eq in E | apply Nat.eqb_neq in E]; lia.
Qed.

Lemma forallb_repeat_pad (k : nat) :
  forallb Base32.is_ascii (repeat Base32.pad_char k) = true.
Proof. induction k as [| k IH]; [reflexivity | exact IH]. Qed.

Lemma forallb_impl {A : Type} (f g : A -> bool) (l : list A) :
  (forall x, f x = true -> g x = true) ->
  forallb f l = true -> forallb g l = true.
Proof.
  intros H. rewrite !forallb_forall. auto.
Qed.

Lemma padded_length (c : nat) :
  ((c + (if (c mod 8 =? 0)%nat then 0 else 8 - c mod 8)) mod 8 = 0)%nat.
Proof.
  pose proof (Nat.div_mod_eq c 8) as Hc.
  pose proof (Nat.mod_upper_bound c 8 ltac:(lia)) as Hcm.
  destruct (c mod 8 =? 0)%nat eqn:E;
    [apply Nat.eqb_eq in E | apply Nat.eqb_neq in E].
  - now rewrite Nat.add_0_r.
  - replace (c + (8 - c mod 8))%nat with ((c / 8 + 1) * 8)%nat by lia.
    apply Nat.Div0.mod_mul.
Qed.

Lemma byte_secret_padded (secret : string) :
  let cs := list_ascii_of_string secret in
  Pyotp.byte_secret secret
  = Base32.b32decode
      (cs ++ repeat Base32.pad_char
                    (if (length cs mod 8 =? 0)%nat then 0 else 8 - length cs mod 8)).
Proof.
  cbv zeta. unfold Pyotp.byte_secret.
  destruct (length (list_ascii_of_string secret) mod 8 =? 0)%nat; cbn [negb repeat].
  - now rewrite app_nil_r.
  - reflexivity.
Qed.

(** The secrets that pyotp can decode are the valid base32 texts. *)
Lemma byte_secret_returns_iff (secret : string) :
  secret <> "" ->
  (exists key, Pyotp.byte_secret secret = Returns key)
  <-> valid_base32 secret = true.
Proof.
  intros Hne. rewrite byte_secret_padded. cbv zeta.
  unfold valid_base32.
  set (cs := list_ascii_of_string secret).
  set (k := (if (length cs mod 8 =? 0)%nat then 0 else 8 - length cs mod 8)%nat).
  assert (Base32.is_nil cs = false) as Hnil.
  { subst cs. destruct secret; [congruence | reflexivity]. }
  rewrite Hnil. cbn [negb andb].
  rewrite b32decode_returns
    by (rewrite length_app, repeat_length; apply padded_length).
  rewrite rstrip_pad, length_app, repeat_length.
  destruct (rstrip_decompose cs) as [Hdec Hle].
  pose proof (padding_arith (length (Base32.rstrip cs)) (length cs) Hle) as Har.
  cbv zeta in Har. fold k in Har.
  rewrite !andb_true_iff, Nat.leb_le.
  split.
  - intros (_ & Hbody & Hpad). apply Har in Hpad. tauto.
  - intros ((Hbody & Hgroup) & Hfit). repeat split.
    + rewrite Hdec, <- app_assoc, forallb_app.
      rewrite (forallb_impl _ _ _ base32_char_is_ascii Hbody).
      rewrite <- repeat_app. apply forallb_repeat_pad.
    + exact Hbody.
    + apply Har. tauto.
Qed.

Lemma byte_secret_raises (secret : string) (e : exn) :
  Pyotp.byte_secret secret = Raises e -> is_ValueError e = true.
Proof. unfold Pyotp.byte_secret. apply b32decode_raises. Qed.

(** The model against the published test vectors: SHA-1 of "abc"
    (FIPS 180-4) and the codes of RFC 6238 for the secret
    "12345678901234567890", cut to six digits. *)
Example sha1_abc :
  SHA1.digest [97; 98; 99]
  = [169; 153; 62; 54; 71; 6; 129; 106; 186; 62; 37; 113; 120; 80; 194; 108;
     156; 208; 216; 157].
Proof. vm_compute. reflexivity. Qed.

Example rfc6238_vectors :
  Pyotp.now Scenario.secret 59 = Returns "287082"
  /\ Pyotp.now Scenario.secret 1111111109 = Returns "081804"
  /\ Pyotp.now Scenario.secret 1234567890 = Returns "005924"
  /\ Pyotp.now Scenario.secret 20000000000 = Returns "353130".
Proof. vm_compute. repeat split. Qed.

Lemma valid_base32_nonempty (secret : string) :
  valid_base32 secret = true -> secret <> "".
Proof. intros H E. subst secret. discriminate H. Qed.

Lemma generate_otp_raises (secret : string) (input : Z) :
  secret <> "" ->
  valid_base32 secret = false ->
  exists e, Pyotp.generate_otp secret input = Raises e /\ is_ValueError e = true.
Proof.
  intros Hne Hbad. unfold Pyotp.generate_otp.
  destruct (input <? 0); [eexists; split; reflexivity |].
  destruct (Pyotp.byte_secret secret) as [key | e] eqn:E.
  - assert (valid_base32 secret = true) as Hv
      by (apply byte_secret_returns_iff; eauto).
    congruence.
  - exists e. split; [reflexivity | exact (byte_secret_raises _ _ E)].
Qed.

Lemma generate_totp_code_run (w : World) (self : automation) (secret code : string)
  (s : state) :
  pyotp_installed w = true ->
  two_factor_secret (creds self) = Some secret ->
  secret <> "" ->
  Pyotp.now secret (wall_clock w (clock s)) = Returns code ->
  generate_totp_code (R := unit) w self s
  = (Normal code, s, [Out ("Generated 2FA code: " +++ code)]).
Proof.
  intros Hpy Hsec Hne Hnow. unfold generate_totp_code, call, bind.
  rewrite Hsec, Hpy. cbn [str_option].
  destruct secret as [| c r]; [congruence |].
  cbn [truthy negb orb]. rewrite Hnow. reflexivity.
Qed.

(** C4. For a valid, non-empty base32 secret (with pyotp present and a
    clock that reads a time since the epoch), [generate_totp_code]
    returns a string of six decimal digits, and two calls whose clock
    readings fall in the same 30-second window return the same code. *)
Theorem totp_code_six_digits_per_window :
  forall (w : World) (self : automation) (secret : string) (s1 s2 : state),
    pyotp_installed w = true ->
    two_factor_secret (creds self) = Some secret ->
    valid_base32 secret = true ->
    0 <= wall_clock w (clock s1) ->
    0 <= wall_clock w (clock s2) ->
    wall_clock w (clock s1) / 30 = wall_clock w (clock s2) / 30 ->
    exists code,
      generate_totp_code (R := unit) w self s1
      = (Normal code, s1, [Out ("Generated 2FA code: " +++ code)])
      /\ generate_totp_code (R := unit) w self s2
         = (Normal code, s2, [Out ("Generated 2FA code: " +++ code)])
      /\ String.length code = 6%nat
      /\ forallb is_digit (list_ascii_of_string code) = true.
Proof.
  intros w self secret s1 s2 Hpy Hsec Hvalid H1 H2 Hwin.
  pose proof (valid_base32_nonempty _ Hvalid) as Hne.
  destruct (proj2 (byte_secret_returns_iff secret Hne) Hvalid) as [key Hkey].
  assert (0 <= wall_clock w (clock s1) / 30) as Hin
    by (apply Z.div_pos; lia).
  destruct (generate_otp_returns secret key _ Hkey Hin) as (code & Hgen & Hlen & Hdig).
  exists code. repeat split; try assumption.
  - apply generate_totp_code_run with (secret := secret); try assumption.
    unfold Pyotp.now, Pyotp.timecode, Pyotp.interval.
    now rewrite Z.quot_div_nonneg by lia.
  - apply generate_totp_code_run with (secret := secret); try assumption.
    unfold Pyotp.now, Pyotp.timecode, Pyotp.interval.
    now rewrite Z.quot_div_nonneg, <- Hwin by lia.
Qed.

Lemma totp_code_six_digits_per_window_witness :
  exists code,
    generate_totp_code (R := unit) Scenario.with_secret Scenario.with_totp
      (mkState 0 true true)
    = (Normal code, mkState 0 true true, [Out ("Generated 2FA code: " +++ code)])
    /\ generate_totp_code (R := unit) Scenario.with_secret Scenario.with_totp
         (mkState 5 true true)
       = (Normal code, mkState 5 true true, [Out ("Generated 2FA code: " +++ code)])
    /\ String.length code = 6%nat
    /\ forallb is_digit (list_ascii_of_string code) = true.
Proof.
  apply (totp_code_six_digits_per_window Scenario.with_secret Scenario.with_totp
           Scenario.secret (mkState 0 true true) (mkState 5 true true)).
  - reflexivity.
  - reflexivity.
  - vm_compute. reflexivity.
  - simpl. lia.
  - simpl. lia.
  - reflexivity.
Defined.

(** C5. A malformed secret, empty or not valid base32, makes
    [generate_totp_code] raise a [ValueError] (the invalid-secret error;
    [binascii.Error] is one) before anything is printed or called: the
    state is unchanged and the record is empty. *)
Theorem malformed_secret_is_rejected :
  forall (w : World) (self : automation) (secret : string) (s : state),
    two_factor_secret (creds self) = Some secret ->
    valid_base32 secret = false ->
    exists e,
      generate_totp_code (R := unit) w self s = (Raise e, s, [])
      /\ is_ValueError e = true.
Proof.
  intros w self secret s Hsec Hbad.
  unfold generate_totp_code, call, bind. rewrite Hsec. cbn [str_option].
  destruct secret as [| c r].
  - eexists. split; reflexivity.
  - cbn [truthy negb orb].
    destruct (pyotp_installed w); cbn [negb].
    + destruct (generate_otp_raises (String c r)
                  (Pyotp.timecode (wall_clock w (clock s)))
                  ltac:(discriminate) Hbad) as (e & He & Hv).
      unfold Pyotp.now. rewrite He. exists e. split; [reflexivity | exact Hv].
    + eexists. split; reflexivity.
Qed.

Lemma malformed_secret_is_rejected_witness :
  exists e,
    generate_totp_code (R := unit) Scenario.happy
      {| test_mode := true;
         creds := {| username := default_username;
                     password := default_password;
                     two_factor_secret := Some "not base32!" |} |}
      Scenario.ready
    = (Raise e, Scenario.ready, [])
    /\ is_ValueError e = true.
Proof.
  apply (malformed_secret_is_rejected Scenario.happy _ "not base32!" Scenario.ready).
  - reflexivity.
  - vm_compute. reflexivity.
Defined.

(** ** Rules for the combinators *)

Lemma triple_eta {A B C : Type} (x : A * B * C) :
  x = (fst (fst x), snd (fst x), snd x).
Proof. destruct x as [[a b] c]. reflexivity. Qed.

Section Rules.

Variable okE : exn -> Prop.
Variable P : event -> Prop.

Lemma fits_ret {R A : Type} (a : A) : fits okE P (ret (R := R) a).
Proof. intros s c s' evs H. inversion H. split; constructor. Qed.

Lemma fits_return {R A : Type} (r : R) : fits okE P (return_ (A := A) r).
Proof. intros s c s' evs H. inversion H. split; constructor. Qed.

Lemma fits_continue {R A : Type} : fits okE P (continue_ (R := R) (A := A)).
Proof. intros s c s' evs H. inversion H. split; constructor. Qed.

Lemma fits_raise {R A : Type} (e : exn) :
  okE e -> fits okE P (raise (R := R) (A := A) e).
Proof. intros He s c s' evs H. inversion H. split; [constructor | exact He]. Qed.

Lemma fits_print {R : Type} (line : string) :
  P (Out line) -> fits okE P (print (R := R) line).
Proof.
  intros Hp s c s' evs H. inversion H. split; [| exact I].
  constructor; [exact Hp | constructor].
Qed.

Lemma fits_set_browser {R : Type} (b : bool) : fits okE P (set_browser (R := R) b).
Proof. intros s c s' evs H. inversion H. split; constructor. Qed.

Lemma fits_set_page {R : Type} (b : bool) : fits okE P (set_page (R := R) b).
Proof. intros s c s' evs H. inversion H. split; constructor. Qed.

Lemma fits_bind {R A B : Type} (m : M R A) (k : A -> M R B) :
  fits okE P m -> (forall a, fits okE P (k a)) -> fits okE P (bind m k).
Proof.
  intros Hm Hk s c s' evs H. unfold bind in H.
  destruct (m s) as [[c1 s1] e1] eqn:E1.
  destruct (Hm _ _ _ _ E1) as [F1 O1].
  destruct c1 as [a | r | e | |].
  - destruct (k a s1) as [[c2 s2] e2] eqn:E2.
    destruct (Hk a _ _ _ _ E2) as [F2 O2].
    inversion H; subst. split; [apply Forall_app; auto | exact O2].
  - inversion H; subst. split; [exact F1 | exact I].
  - inversion H; subst. split; [exact F1 | exact O1].
  - inversion H; subst. split; [exact F1 | exact I].
  - inversion H; subst. split; [exact F1 | exact I].
Qed.

Lemma fits_try_except {R A : Type} (body : M R A) (catches : exn -> bool)
  (handler : exn -> M R A) :
  fits okE P body ->
  (forall e, okE e -> catches e = true -> fits okE P (handler e)) ->
  fits okE P (try_except body catches handler).
Proof.
  intros Hb Hh s c s' evs H. unfold try_except in H.
  destruct (body s) as [[c1 s1] e1] eqn:E1.
  destruct (Hb _ _ _ _ E1) as [F1 O1].
  destruct c1 as [a | r | e | |]; try (inversion H; subst; split; assumption).
  destruct (catches e) eqn:Ec.
  - destruct (handler e s1) as [[c2 s2] e2] eqn:E2.
    destruct (Hh e O1 Ec _ _ _ _ E2) as [F2 O2].
    inversion H; subst. split; [apply Forall_app; auto | exact O2].
  - inversion H; subst. split; assumption.
Qed.

Lemma fits_try_finally {R A : Type} (body : M R A) (final : M R unit) :
  fits okE P body -> fits okE P final -> fits okE P (try_finally body final).
Proof.
  intros Hb Hf s c s' evs H. unfold try_finally in H.
  destruct (body s) as [[c1 s1] e1] eqn:E1.
  destruct (Hb _ _ _ _ E1) as [F1 O1].
  destruct (final s1) as [[cf s2] e2] eqn:E2.
  destruct (Hf _ _ _ _ E2) as [F2 O2].
  destruct cf; inversion H; subst; (split; [apply Forall_app; auto |]);
    try exact I; assumption.
Qed.

Lemma fits_for_each {R X : Type} (xs : list X) (body : X -> M R unit) :
  (forall x, fits okE P (body x)) -> fits okE P (for_each xs body).
Proof.
  intros Hb. induction xs as [| x xs IH]; intros s c s' evs H.
  - inversion H. split; constructor.
  - cbn [for_each] in H.
    destruct (body x s) as [[c1 s1] e1] eqn:E1.
    destruct (Hb x _ _ _ _ E1) as [F1 O1].
    destruct c1 as [a | r | e | |];
      try (inversion H; subst; split; [assumption | try exact I; assumption]).
    + destruct (for_each xs body s1) as [[c2 s2] e2] eqn:E2.
      destruct (IH _ _ _ _ E2) as [F2 O2].
      inversion H; subst. split; [apply Forall_app; auto | exact O2].
    + destruct (for_each xs body s1) as [[c2 s2] e2] eqn:E2.
      destruct (IH _ _ _ _ E2) as [F2 O2].
      inversion H; subst. split; [apply Forall_app; auto | exact O2].
Qed.

Lemma fits_call {R R' : Type} (none : R) (body : M R unit) :
  fits okE P body -> fits okE P (call (R' := R') none body).
Proof.
  intros Hb s c s' evs H. unfold call in H.
  destruct (body s) as [[c1 s1] e1] eqn:E1.
  destruct (Hb _ _ _ _ E1) as [F1 O1].
  destruct c1; inversion H; subst; split; try assumption; exact I.
Qed.

Lemma fits_lift {R A : Type} (o : outcome A) :
  (forall e, o = Raises e -> okE e) -> fits okE P (lift (R := R) o).
Proof.
  intros Ho s c s' evs H. destruct o as [a | e]; inversion H; subst.
  - split; constructor.
  - split; [constructor | apply Ho; reflexivity].
Qed.

(** A computation that first reads the state. *)
Lemma fits_reading {R A : Type} (f : state -> M R A) :
  (forall s0, fits okE P (f s0)) -> fits okE P (fun s => f s s).
Proof. intros Hf s c s' evs H. exact (Hf s _ _ _ _ H). Qed.

Section Calls.

Variable w : World.

Hypothesis interruption_ok : (exists t, interrupt w t = true) -> okE KeyboardInterrupt.

Lemma fits_perform {R A : Type} (cls : string -> exn)
  (oracle : nat -> action -> answer A) (log : A -> reply) (a : action) :
  (forall r, P (Ev a r)) -> (forall m, okE (cls m)) ->
  fits okE P (perform (R := R) w cls oracle log a).
Proof.
  intros Hp Hc s c s' evs H. unfold perform in H.
  destruct (interrupt w (clock s)) eqn:Ei.
  - inversion H; subst. split; [repeat constructor; apply Hp |].
    apply interruption_ok. eauto.
  - destruct (oracle (clock s) a); inversion H; subst;
      (split; [repeat constructor; apply Hp |]); [exact I | apply Hc].
Qed.

Lemma fits_on_page {R A : Type}
  (oracle : nat -> action -> answer A) (log : A -> reply) (a : action) :
  (forall r, P (Ev a r)) ->
  (forall m, okE (PlaywrightError m)) -> okE (AttributeError no_page_message) ->
  fits okE P (on_page (R := R) w oracle log a).
Proof.
  intros Hp Hc Ha s c s' evs H. unfold on_page in H.
  destruct (page s).
  - exact (fits_perform _ _ _ _ Hp Hc _ _ _ _ H).
  - inversion H; subst. split; [repeat constructor; apply Hp | exact Ha].
Qed.

Lemma fits_sleep {R : Type} (ms : Z) :
  (forall r, P (Ev (Sleep ms) r)) -> fits okE P (sleep (R := R) w ms).
Proof.
  intros Hp s c s' evs H. unfold sleep in H.
  destruct (interrupt w (clock s)) eqn:Ei; inversion H; subst;
    (split; [repeat constructor; apply Hp |]); [| exact I].
  apply interruption_ok. eauto.
Qed.

End Calls.

End Rules.

(** ** Stepping through a fragment of the script *)

Ltac head_of t :=
  match t with
  | ?f _ => head_of f
  | _ => t
  end.

(** Decompose a goal [fits okE P m] along the syntax of [m]; [known]
    closes the fragments that have a lemma of their own. *)
Ltac fits_go known :=
  repeat first
    [ known
    | apply fits_ret | apply fits_return | apply fits_continue
    | apply fits_print | apply fits_raise
    | apply fits_set_browser | apply fits_set_page
    | apply fits_bind; [| intros ?]
    | apply fits_try_except; [| intros ? ? ?]
    | apply fits_try_finally
    | apply fits_for_each; intros ?
    | apply fits_call
    | apply fits_sleep | apply fits_on_page | apply fits_perform
    | match goal with
      | |- fits _ _ (if ?b then _ else _) => destruct b
      | |- fits _ _ (match ?o with Some _ => _ | None => _ end) => destruct o
      | |- fits _ _ ?m => let h := head_of m in unfold h
      end ].

(** ** Only exceptions and interruptions escape *)

Lemma value_error_is_exception (e : exn) :
  is_ValueError e = true -> is_Exception e = true.
Proof. destruct e; cbn; congruence. Qed.

Lemma index_raises (l : list Z) (i : nat) (e : exn) :
  index l i = Raises e -> is_Exception e = true.
Proof. unfold index. destruct (nth_error l i); intros H; inversion H. reflexivity. Qed.

Lemma pyotp_now_raises (secret : string) (t : Z) (e : exn) :
  Pyotp.now secret t = Raises e -> is_Exception e = true.
Proof.
  unfold Pyotp.now, Pyotp.generate_otp.
  destruct (Pyotp.timecode t <? 0); [intros H; inversion H; reflexivity |].
  destruct (Pyotp.byte_secret secret) as [key | e0] eqn:Ek; cbn [obind].
  2: { intros H. inversion H; subst.
       apply value_error_is_exception. exact (byte_secret_raises _ _ Ek). }
  set (h := SHA1.hmac key (Pyotp.int_to_bytestring (Pyotp.timecode t))).
  unfold index_last.
  destruct h as [| x h']; cbn [obind]; [intros H; inversion H; reflexivity |].
  set (h := x :: h'). set (lastb := last h 0).
  repeat match goal with
         | |- obind (index ?l ?i) _ = _ -> _ =>
             let E := fresh "E" in
             destruct (index l i) eqn:E; cbn [obind];
             [| intros H; inversion H; subst; exact (index_raises _ _ _ E)]
         end.
  intros H. inversion H.
Qed.

(** Fragments that read the state before they act, for any [okE] and
    [P] that allow printing, screenshots, exceptions and interruptions. *)
Section Fragments.

Variable w : World.
Variable okE : exn -> Prop.
Variable P : event -> Prop.

Hypothesis P_out : forall line, P (Out line).
Hypothesis P_screenshot : forall path r, P (Ev (Screenshot path) r).
Hypothesis okE_exception : forall e, is_Exception e = true -> okE e.
Hypothesis okE_interrupt : (exists t, interrupt w t = true) -> okE KeyboardInterrupt.

Lemma fits_take_screenshot {R : Type} (name : string) :
  fits okE P (take_screenshot (R := R) w name).
Proof.
  unfold take_screenshot. apply fits_call, fits_try_except.
  - apply (fits_reading okE P
             (fun s0 =>
                page_do w
                  (Screenshot
                     ("screenshots/receipt-" +++ name +++ "-"
                      +++ strftime w (clock s0) +++ ".png")) ;;
                print ("Screenshot saved: " +++ "screenshots/receipt-" +++ name +++ "-"
                       +++ strftime w (clock s0) +++ ".png") ;;
                return_ (Some ("screenshots/receipt-" +++ name +++ "-"
                               +++ strftime w (clock s0) +++ ".png")))).
    intros s0. fits_go fail; auto.
  - intros e _ _. fits_go fail; auto.
Qed.

Lemma fits_generate_totp_code {R : Type} (self : automation) :
  fits okE P (generate_totp_code (R := R) w self).
Proof.
  unfold generate_totp_code. apply fits_call.
  destruct (negb (truthy (two_factor_secret (creds self))) || negb (pyotp_installed w)).
  - apply fits_raise. auto.
  - apply fits_bind.
    + apply (fits_reading okE P
               (fun s0 =>
                  lift (Pyotp.now (str_option (two_factor_secret (creds self)))
                                  (wall_clock w (clock s0))))).
      intros s0. apply fits_lift. intros e He.
      apply okE_exception. exact (pyotp_now_raises _ _ _ He).
    + intros code. fits_go fail; auto.
Qed.

End Fragments.

Section Escapes.

Variable w : World.

Let okE : exn -> Prop := exn_ok w.
Let anything : event -> Prop := fun _ => True.

Lemma interruption_is_ok : (exists t, interrupt w t = true) -> okE KeyboardInterrupt.
Proof. intros H. right. split; [reflexivity | exact H]. Qed.

Lemma exception_is_ok (e : exn) : is_Exception e = true -> okE e.
Proof. intros H. left. exact H. Qed.

Ltac escapes_side :=
  try assumption;
  try exact interruption_is_ok;
  try (intros; exact I);
  try (intros; left; reflexivity).

Lemma take_screenshot_escapes {R : Type} (name : string) :
  fits okE anything (take_screenshot (R := R) w name).
Proof.
  apply fits_take_screenshot; try (intros; exact I);
    [exact exception_is_ok | exact interruption_is_ok].
Qed.

Lemma generate_totp_code_escapes {R : Type} (self : automation) :
  fits okE anything (generate_totp_code (R := R) w self).
Proof.
  apply fits_generate_totp_code; try (intros; exact I). exact exception_is_ok.
Qed.

Lemma cleanup_escapes {R : Type} : fits okE anything (cleanup (R := R) w).
Proof.
  unfold cleanup. apply fits_call.
  apply (fits_reading okE anything
           (fun s0 =>
              if browser s0
              then perform w PlaywrightError (do_ w) done CloseBrowser ;;
                   print "Browser closed"
              else ret tt)).
  intros s0. fits_go fail; escapes_side.
Qed.

Ltac escapes_known :=
  first [ apply take_screenshot_escapes
        | apply generate_totp_code_escapes
        | apply cleanup_escapes ].

Ltac escapes := fits_go escapes_known; escapes_side.



Lemma login_escapes {R : Type} (self : automation) :
  fits okE anything (login (R := R) w self).
Proof. escapes. Qed.



End Escapes.

(** ** How a run ends *)

Lemma plain_call {R R' : Type} (none : R) (body : M R unit) :
  plain (call (R' := R') none body).
Proof.
  intros s c s' evs H. unfold call in H.
  destruct (body s) as [[c1 s1] e1]. destruct c1; inversion H; eauto.
Qed.

Lemma plain_print {R : Type} (line : string) : plain (print (R := R) line).
Proof. intros s c s' evs H. inversion H. eauto. Qed.

Lemma plain_ret {R A : Type} (a : A) : plain (ret (R := R) a).
Proof. intros s c s' evs H. inversion H. eauto. Qed.

Lemma plain_sleep {R : Type} (w : World) (ms : Z) : plain (sleep (R := R) w ms).
Proof.
  intros s c s' evs H. unfold sleep in H.
  destruct (interrupt w (clock s)); inversion H; eauto.
Qed.

Lemma plain_bind {R A B : Type} (m : M R A) (k : A -> M R B) :
  plain m -> (forall a, plain (k a)) -> plain (bind m k).
Proof.
  intros Hm Hk s c s' evs H. unfold bind in H.
  destruct (m s) as [[c1 s1] e1] eqn:E1.
  destruct (Hm _ _ _ _ E1) as [[a ->] | [e ->]].
  - destruct (k a s1) as [[c2 s2] e2] eqn:E2.
    inversion H; subst. exact (Hk a _ _ _ _ E2).
  - inversion H; subst. eauto.
Qed.

Lemma ends_with_return {R A : Type} (x : R) : ends_with x (return_ (A := A) x).
Proof. intros s c s' evs H. inversion H. auto. Qed.

Lemma ends_with_bind {R A B : Type} (x : R) (m : M R A) (k : A -> M R B) :
  plain m -> (forall a, ends_with x (k a)) -> ends_with x (bind m k).
Proof.
  intros Hm Hk s c s' evs H. unfold bind in H.
  destruct (m s) as [[c1 s1] e1] eqn:E1.
  destruct (Hm _ _ _ _ E1) as [[a ->] | [e ->]].
  - destruct (k a s1) as [[c2 s2] e2] eqn:E2.
    inversion H; subst. exact (Hk a _ _ _ _ E2).
  - inversion H; subst. eauto.
Qed.




Section Exit.

Variable w : World.


Lemma run_failed_ends (self : automation) (e : exn) :
  ends_with (Some (failure_summary self e)) (run_failed w self e).
Proof.
  unfold run_failed.
  repeat (apply ends_with_bind;
          [first [apply plain_call | apply plain_print] | intros _]).
  apply ends_with_return.
Qed.

Lemma run_finally_plain (self : automation) : plain (run_finally w self).
Proof.
  unfold run_finally. apply plain_bind; [| intros _; apply plain_call].
  destruct (negb (test_mode self)); [apply plain_sleep | apply plain_ret].
Qed.




Lemma bind_print {R B : Type} (line : string) (k : unit -> M R B) (s : state) :
  bind (print line) k s = let '(c, s', e) := k tt s in (c, s', Out line :: e).
Proof. reflexivity. Qed.




Lemma exn_ok_uninterrupted (e : exn) :
  uninterrupted w -> exn_ok w e -> is_Exception e = true.
Proof.
  intros Hun [He | [_ [t Ht]]]; [exact He |]. rewrite Hun in Ht. discriminate.
Qed.

Lemma take_screenshot_calm {R : Type} (name : string) (s : state)
  (c : completion R (option string)) (s' : state) (evs : list event) :
  uninterrupted w ->
  take_screenshot w name s = (c, s', evs) -> exists v, c = Normal v.
Proof.
  intros Hun H.
  unfold take_screenshot, call, try_except, bind, page_do, on_page, perform,
    print, return_ in H.
  rewrite Hun in H.
  destruct (page s); [destruct (do_ w (clock s) _) |]; cbn in H;
    inversion H; eauto.
Qed.


Lemma run_failed_calm (self : automation) (e : exn) (s : state)
  (c : completion (option summary) unit) (s' : state) (evs : list event) :
  uninterrupted w ->
  run_failed w self e s = (c, s', evs) ->
  c = Return (Some (failure_summary self e)).
Proof.
  intros Hun H. unfold run_failed in H. rewrite bind_print in H.
  unfold bind in H.
  destruct (take_screenshot w "automation-error" s) as [[c1 s1] e1] eqn:E1.
  destruct (take_screenshot_calm _ _ _ _ _ Hun E1) as [v ->].
  cbn in H. inversion H. reflexivity.
Qed.

Lemma run_finally_calm (self : automation) (s : state)
  (c : completion (option summary) unit) (s' : state) (evs : list event) :
  calm w -> run_finally w self s = (c, s', evs) -> c = Normal tt.
Proof.
  intros (Hun & _ & Hclose) H.
  unfold run_finally, cleanup, call, bind, sleep, perform, print, ret in H.
  destruct (negb (test_mode self)); cbn in H; rewrite ?Hun in H; cbn in H;
    destruct (browser s); cbn in H; rewrite ?Hun, ?Hclose in H; cbn in H;
    inversion H; reflexivity.
Qed.


Lemma init_calm {R : Type} (tm : bool) (s : state)
  (c : completion R automation) (s' : state) (evs : list event) :
  calm w -> init_ w tm s = (c, s', evs) -> exists self, c = Normal self.
Proof.
  intros (Hun & Hmk & _) H.
  unfold init_, bind, set_browser, set_page, perform, ret in H. cbn in H.
  rewrite Hun, Hmk in H. inversion H. eauto.
Qed.




End Exit.

(** ** Credentials *)

Section Credentials.

Variable w : World.
Variable self : automation.

Let P : event -> Prop := types_credentials self.

Ltac credentials_side :=
  try (intros; exact I);
  try (intros; unfold P, types_credentials; auto).

Lemma login_types_credentials {R : Type} :
  fits (fun _ => True) P (login (R := R) w self).
Proof.
  fits_go ltac:(first [ apply fits_take_screenshot
                      | apply fits_generate_totp_code ]);
    credentials_side.
Qed.

End Credentials.

(** C3, as the code has it.  Missing [SMOKEBALL_USERNAME] or
    [SMOKEBALL_PASSWORD] does not make startup fail: the constructor takes
    the built-in default for each missing key and the configured value
    otherwise; it can only fail on the screenshots directory or on an
    interruption.  [login] then types the stored credentials. *)
Theorem missing_credentials_fall_back_to_defaults :
  forall (w : World) (tm : bool) (s : state) (c : completion unit automation)
         (s' : state) (evs : list event),
    init_ w tm s = (c, s', evs) ->
    match c with
    | Normal self =>
        (environ w "SMOKEBALL_USERNAME" = None ->
         username (creds self) = default_username)
        /\ (environ w "SMOKEBALL_PASSWORD" = None ->
            password (creds self) = default_password)
        /\ (forall v, environ w "SMOKEBALL_USERNAME" = Some v ->
                      username (creds self) = v)
        /\ (forall v, environ w "SMOKEBALL_PASSWORD" = Some v ->
                      password (creds self) = v)
        /\ forall s1 c1 s1' evs1,
             login (R := unit) w self s1 = (c1, s1', evs1) ->
             Forall (types_credentials self) evs1
    | Raise e => e = KeyboardInterrupt \/ exists m, e = OSError m
    | _ => False
    end.
Proof.
  intros w tm s c s' evs H.
  unfold init_, bind, set_browser, set_page, perform, ret in H. cbn in H.
  destruct (interrupt w (clock s)); [inversion H; subst; left; reflexivity |].
  destruct (do_ w (clock s) (Mkdir "screenshots")) as [[] | m];
    inversion H; subst; [| right; eauto].
  cbn. unfold getenv_default. repeat split.
  - intros ->. reflexivity.
  - intros ->. reflexivity.
  - intros v ->. reflexivity.
  - intros v ->. reflexivity.
  - intros s1 c1 s1' evs1 H1.
    exact (proj1 (login_types_credentials w _ _ _ _ _ H1)).
Qed.

Lemma missing_credentials_fall_back_to_defaults_witness :
  exists self,
    fst (fst (init_ (R := unit) Scenario.happy true start)) = Normal self
    /\ username (creds self) = default_username
    /\ password (creds self) = default_password.
Proof.
  pose proof (missing_credentials_fall_back_to_defaults Scenario.happy true start
                (fst (fst (init_ (R := unit) Scenario.happy true start)))
                (snd (fst (init_ (R := unit) Scenario.happy true start)))
                (snd (init_ (R := unit) Scenario.happy true start)) eq_refl) as H.
  cbn in H. destruct H as (Hu & Hp & _).
  eexists. split; [reflexivity |]. split; [apply Hu | apply Hp]; reflexivity.
Defined.

(** With an empty environment the script starts, and logs in with the
    built-in credentials. *)
Lemma missing_credentials_do_not_stop_startup :
  environ Scenario.happy "SMOKEBALL_USERNAME" = None
  /\ environ Scenario.happy "SMOKEBALL_PASSWORD" = None
  /\ let '(c, _, evs) := script Scenario.happy Scenario.default_args start in
     c = Raise (SystemExit 0)
     /\ existsb (typed_into (First (Css sel_email)) default_username) evs = true
     /\ existsb (typed_into (First (Css sel_password)) default_password) evs = true.
Proof. vm_compute. repeat split. Qed.

(** ** The form that is never filled *)

(** C1 fails on the code.  On a page where every control is shown and
    every call succeeds, [fill_receipt_form] returns as soon as the
    deposit control of the first strategy is clicked: nothing is typed
    into any field, and [run] still reports the form as filled. *)
Theorem deposit_click_ends_fill_receipt_form :
  let '(c, _, evs) :=
    fill_receipt_form (R := unit) Scenario.happy Scenario.tester
      Scenario.receipt_data Scenario.ready in
  c = Normal tt
  /\ first_match evs = Some 1%nat
  /\ existsb is_fill evs = false
  /\ fst (fst (run (R := unit) Scenario.happy Scenario.tester
                 (arg_matter_id Scenario.default_args) Scenario.receipt_data start))
     = Normal (Some {| success := true;
                       error := None;
                       message := "Receipt form filled successfully" |}).
Proof. vm_compute. repeat split. Qed.

(** ** The browser that is not closed *)

(** C10 fails on the code.  With [--submit], an interruption during the
    five-second wait of the [finally] block of [run] skips [cleanup]: the
    browser was launched and is never closed. *)
Theorem interrupt_before_close_leaks_browser :
  let '(c, s', evs) :=
    script (Scenario.interrupted_at 32) Scenario.submit_args start in
  c = Raise (SystemExit 1)
  /\ existsb is_launch evs = true
  /\ browser s' = true
  /\ existsb is_close evs = false
  /\ last evs (Out "") = Out (nl +++ "Interrupted by user").
Proof. vm_compute. repeat split. Qed.

(** ** The chain of deposit strategies *)

Lemma attempted_app (a b : list event) : attempted (a ++ b) = attempted a ++ attempted b.
Proof.
  induction a as [| e a IH]; [reflexivity |].
  cbn [app attempted]. now rewrite IH, app_assoc.
Qed.

Lemma matches_app (a b : list event) : matches (a ++ b) = matches a ++ matches b.
Proof.
  induction a as [| e a IH]; [reflexivity |].
  cbn [app matches]. now rewrite IH, app_assoc.
Qed.

Lemma after_first_match_app (a b : list event) :
  matches a = [] -> after_first_match (a ++ b) = after_first_match b.
Proof.
  induction a as [| e a IH]; [reflexivity |].
  cbn [app matches after_first_match]. intros H.
  destruct (match_of e); [discriminate | exact (IH H)].
Qed.

Section Strategies.

Variable w : World.
Hypothesis Hun : uninterrupted w.

(** Run a fragment on every answer the world can give. *)
Ltac crunch H :=
  repeat (cbn in H;
    match type of H with
    | context [interrupt w ?t] => rewrite (Hun t) in H
    | context [if page ?s then _ else _] => destruct (page s) eqn:?
    | context [match do_ w ?t ?a with _ => _ end] =>
        destruct (do_ w t a) as [[] | ?] eqn:?
    | context [match ask_bool w ?t ?a with _ => _ end] =>
        destruct (ask_bool w t a) as [[] | ?] eqn:?
    | context [match ask_text w ?t ?a with _ => _ end] =>
        destruct (ask_text w t a) as [? | ?] eqn:?
    | context [match ask_count w ?t ?a with _ => _ end] =>
        destruct (ask_count w t a) as [? | ?] eqn:?
    | context [if ?b then _ else _] => destruct b eqn:?
    end).

Ltac conclude Hclick :=
  unfold block_outcome, step_outcome; cbn;
  rewrite ?Hclick; cbn; rewrite ?andb_false_r; cbn;
  first [ solve [repeat split; auto]
        | solve [split; [| split]; auto; left; repeat split; auto]
        | solve [split; [| split]; auto; right; repeat split; auto] ].

Ltac conclude_loop :=
  unfold step_outcome; cbn;
  repeat match goal with
         | E : attempted _ = _ |- _ => rewrite E
         | E : matches _ = _ |- _ => rewrite E
         | E : existsb after_raise _ = _ |- _ => rewrite E
         end;
  cbn;
  (split; [reflexivity | split; [reflexivity | first [left; auto; fail | right; auto]]]).

Lemma direct_strategy_spec (number found : string) (l : locator) (j : nat) :
  click_strategy l = Some j ->
  (forall r, entry_of (Ev (IsVisible l 5000) r) = Some j) ->
  forall s c s' evs,
    direct_strategy w number l found s = (c, s', evs) ->
    step_outcome [j] j c evs.
Proof.
  intros Hclick Hentry s c s' evs H.
  unfold direct_strategy, dialog_opened, take_screenshot, try_except, bind, call,
    page_bool, page_do, on_page, perform, sleep, print, return_, ret in H.
  crunch H; inversion H; subst; clear H;
    unfold step_outcome; cbn [attempted]; rewrite Hentry; conclude Hclick.
Qed.

Lemma try_item_spec (announce : bool) (i : nat) (item : locator) (j : nat) :
  click_strategy item = Some j ->
  forall s c s' evs,
    try_item w announce i item s = (c, s', evs) ->
    block_outcome [] j c evs.
Proof.
  intros Hclick s c s' evs H.
  unfold try_item, dialog_opened, take_screenshot, try_except, bind, call,
    page_text, page_do, on_page, perform, sleep, print, return_, ret, continue_, any in H.
  crunch H; inversion H; subst; clear H; conclude Hclick.
Qed.

Lemma items_loop_spec (announce : bool) (l : locator) (j : nat) :
  (forall i, click_strategy (Nth l i) = Some j) ->
  forall xs s c s' evs,
    for_each xs (fun i => try_item w announce i (Nth l i)) s = (c, s', evs) ->
    step_outcome [] j c evs.
Proof.
  intros Hclick. induction xs as [| x xs IH]; intros s c s' evs H.
  - inversion H; subst. unfold step_outcome. cbn. auto.
  - cbn [for_each] in H.
    destruct (try_item w announce x (Nth l x) s) as [[c1 s1] e1] eqn:E1.
    destruct (try_item_spec _ _ _ _ (Hclick x) _ _ _ _ E1)
      as (Ha & Hr & [(-> & Hm & Hp) | ([-> | ->] & Hm)]).
    + inversion H; subst. unfold step_outcome.
      split; [exact Ha | split; [exact Hr | left; auto]].
    + destruct (for_each xs _ s1) as [[c2 s2] e2] eqn:E2.
      inversion H; subst.
      destruct (IH _ _ _ _ E2) as (Ha2 & Hr2 & Hc).
      unfold step_outcome.
      rewrite attempted_app, existsb_app, matches_app, after_first_match_app,
        Ha, Ha2, Hr, Hr2, Hm by exact Hm.
      split; [reflexivity | split; [reflexivity | exact Hc]].
    + destruct (for_each xs _ s1) as [[c2 s2] e2] eqn:E2.
      inversion H; subst.
      destruct (IH _ _ _ _ E2) as (Ha2 & Hr2 & Hc).
      unfold step_outcome.
      rewrite attempted_app, existsb_app, matches_app, after_first_match_app,
        Ha, Ha2, Hr, Hr2, Hm by exact Hm.
      split; [reflexivity | split; [reflexivity | exact Hc]].
Qed.

Lemma strategy5_spec (s : state) (c : completion unit unit) (s' : state)
  (evs : list event) :
  strategy5 w s = (c, s', evs) -> step_outcome [5%nat] 5 c evs.
Proof.
  intros H.
  unfold strategy5, try_except, bind, page_count, on_page, perform, print in H.
  crunch H.
  all: try match type of H with
           | context [for_each ?xs ?f ?s0] =>
               let Hl := fresh "Hl" in
               destruct (for_each xs f s0) as [[cl sl] el] eqn:Hl;
               apply (items_loop_spec true (Css sel_buttons) 5) in Hl;
               [destruct Hl as (Ha & Hr & [(-> & Hm & Hp) | (-> & Hm)]) | reflexivity]
           end.
  all: cbn in H; inversion H; subst; clear H.
  all: conclude_loop.
Qed.

Lemma strategy1_spec (s : state) (c : completion unit unit) (s' : state)
  (evs : list event) :
  strategy1 w s = (c, s', evs) -> step_outcome [1%nat] 1 c evs.
Proof.
  intros H.
  unfold strategy1, dialog_opened, take_screenshot, try_except, bind, call,
    page_bool, page_count, page_do, on_page, perform, sleep, print, return_, ret,
    any in H.
  crunch H.
  all: try match type of H with
           | context [for_each ?xs ?f ?s0] =>
               let Hl := fresh "Hl" in
               destruct (for_each xs f s0) as [[cl sl] el] eqn:Hl;
               apply (items_loop_spec false (Css sel_menu_items) 1) in Hl;
               [destruct Hl as (Ha & Hr & [(-> & Hm & Hp) | (-> & Hm)]) | reflexivity]
           end.
  all: cbn in H; inversion H; subst; clear H.
  all: conclude_loop.
Qed.


Lemma take_screenshot_quiet {R : Type} (name : string) (s : state)
  (c : completion R (option string)) (s' : state) (evs : list event) :
  take_screenshot w name s = (c, s', evs) ->
  (exists v, c = Normal v)
  /\ attempted evs = [] /\ matches evs = [] /\ existsb after_raise evs = false.
Proof.
  intros H.
  unfold take_screenshot, try_except, bind, call, page_do, on_page, perform, print,
    return_ in H.
  crunch H; inversion H; subst; cbn; eauto.
Qed.

Lemma chain_cons (j : nat) (m rest : M unit unit) :
  (j <= 7)%nat ->
  (forall s c s' evs, m s = (c, s', evs) -> step_outcome [j] j c evs) ->
  (forall s c s' evs, rest s = (c, s', evs) -> chain_outcome (S j) c evs) ->
  forall s c s' evs, (m ;; rest) s = (c, s', evs) -> chain_outcome j c evs.
Proof.
  intros Hj Hm Hrest s c s' evs H. unfold bind in H.
  destruct (m s) as [[c1 s1] e1] eqn:E1.
  destruct (Hm _ _ _ _ E1) as (Ha & Hr & [(-> & Hmt & Hp) | (-> & Hmt)]).
  - inversion H; subst. split; [exact Hr |]. exists j. split; [lia |].
    split; [rewrite Ha; replace (j + 1 - j)%nat with 1%nat by lia; reflexivity |].
    left. auto.
  - destruct (rest s1) as [[c2 s2] e2] eqn:E2. inversion H; subst.
    destruct (Hrest _ _ _ _ E2) as (Hr2 & k & Hk & Ha2 & Hc).
    split; [rewrite existsb_app, Hr, Hr2; reflexivity |].
    exists k. split; [lia |].
    split.
    { rewrite attempted_app, Ha, Ha2.
      replace (k + 1 - j)%nat with (S (k + 1 - S j)) by lia. reflexivity. }
    rewrite matches_app, after_first_match_app, Hmt by exact Hmt.
    destruct Hc as [(-> & Hle & Hm2 & Hp2) | (-> & -> & Hm2)].
    + left. repeat split; auto. lia.
    + right. auto.
Qed.

Lemma chain_end (s : state) (c : completion unit unit) (s' : state)
  (evs : list event) :
  (take_screenshot w "deposit-button-not-found" ;;
   raise (Exception not_found_message)) s = (c, s', evs) ->
  chain_outcome 8 c evs.
Proof.
  intros H. unfold bind in H.
  destruct (take_screenshot w _ s) as [[c1 s1] e1] eqn:E1.
  destruct (take_screenshot_quiet _ _ _ _ _ E1) as ([v ->] & Ha & Hm & Hr).
  cbn in H. inversion H; subst. rewrite app_nil_r.
  split; [exact Hr |]. exists 7%nat. split; [lia |]. split; [exact Ha |].
  right. auto.
Qed.

Lemma chain_spec (s : state) (c : completion unit unit) (s' : state)
  (evs : list event) :
  (strategy1 w ;; strategy2 w ;; strategy3 w ;; strategy4 w ;; strategy5 w ;;
   strategy6 w ;; strategy7 w ;;
   take_screenshot w "deposit-button-not-found" ;;
   raise (Exception not_found_message)) s = (c, s', evs) ->
  chain_outcome 1 c evs.
Proof.
  revert s c s' evs.
  apply chain_cons; [lia | exact strategy1_spec |].
  apply chain_cons; [lia | apply direct_strategy_spec; reflexivity |].
  apply chain_cons; [lia | apply direct_strategy_spec; reflexivity |].
  apply chain_cons; [lia | apply direct_strategy_spec; reflexivity |].
  apply chain_cons; [lia | exact strategy5_spec |].
  apply chain_cons; [lia | apply direct_strategy_spec; reflexivity |].
  apply chain_cons; [lia | apply direct_strategy_spec; reflexivity |].
  exact chain_end.
Qed.

Lemma open_deposit_form_spec (data : receipt) (s : state)
  (c : completion unit unit) (s' : state) (evs : list event) :
  open_deposit_form w data s = (c, s', evs) -> chain_outcome 1 c evs.
Proof.
  intros H. unfold open_deposit_form in H. rewrite !bind_print in H.
  unfold bind at 1 in H.
  destruct (take_screenshot w "before-fill-form" s) as [[c1 s1] e1] eqn:E1.
  destruct (take_screenshot_quiet _ _ _ _ _ E1) as ([v ->] & Ha & Hm & Hr).
  rewrite bind_print in H.
  match type of H with
  | context [bind (strategy1 w) ?k s1] =>
      destruct (bind (strategy1 w) k s1) as [[c2 s2] e2] eqn:E2
  end.
  apply chain_spec in E2. inversion H; subst.
  destruct E2 as (Hr2 & k & Hk & Ha2 & Hc).
  assert (forall l, matches (e1 ++ Out l :: e2) = matches e2) as Hmm
    by (intros l; rewrite matches_app, Hm; reflexivity).
  assert (forall l, after_first_match (e1 ++ Out l :: e2) = after_first_match e2)
    as Haf by (intros l; rewrite after_first_match_app by exact Hm; reflexivity).
  split.
  - cbn. rewrite existsb_app, Hr. cbn. exact Hr2.
  - exists k. split; [exact Hk |]. cbn. rewrite attempted_app, Ha. cbn.
    split; [exact Ha2 |]. rewrite Hmm, Haf. exact Hc.
Qed.

(** *** The fields *)

Ltac run_field H :=
  unfold fill_date, fill_received_from, fill_reason, fill_amount, try_except, bind,
    page_bool, page_do, on_page, perform, sleep, print, raise, ret in H;
  crunch H; inversion H; reflexivity.

Lemma fill_date_completes (data : receipt) (s : state) (c : completion unit unit)
  (s' : state) (evs : list event) :
  fill_date w data s = (c, s', evs) -> c = Normal tt.
Proof. intros H. run_field H. Qed.

Lemma fill_received_from_completes (data : receipt) (s : state)
  (c : completion unit unit) (s' : state) (evs : list event) :
  fill_received_from w data s = (c, s', evs) -> c = Normal tt.
Proof. intros H. run_field H. Qed.

Lemma fill_reason_completes (data : receipt) (s : state) (c : completion unit unit)
  (s' : state) (evs : list event) :
  fill_reason w data s = (c, s', evs) -> c = Normal tt.
Proof. intros H. run_field H. Qed.

Lemma fill_amount_completes (data : receipt) (s : state) (c : completion unit unit)
  (s' : state) (evs : list event) :
  fill_amount w data s = (c, s', evs) -> c = Normal tt.
Proof. intros H. run_field H. Qed.

Lemma fill_fields_completes (data : receipt) (s : state) (c : completion unit unit)
  (s' : state) (evs : list event) :
  fill_fields w data s = (c, s', evs) -> c = Normal tt.
Proof.
  intros H. unfold fill_fields in H.
  unfold bind at 1 in H.
  destruct (fill_date w data s) as [[c1 s1] e1] eqn:E1.
  rewrite (fill_date_completes _ _ _ _ _ E1) in H.
  unfold bind at 1 in H.
  destruct (fill_received_from w data s1) as [[c2 s2] e2] eqn:E2.
  rewrite (fill_received_from_completes _ _ _ _ _ E2) in H.
  unfold bind at 1 in H.
  destruct (fill_reason w data s2) as [[c3 s3] e3] eqn:E3.
  rewrite (fill_reason_completes _ _ _ _ _ E3) in H.
  unfold bind at 1 in H.
  destruct (fill_amount w data s3) as [[c4 s4] e4] eqn:E4.
  rewrite (fill_amount_completes _ _ _ _ _ E4) in H.
  unfold bind, sleep, ret in H. rewrite Hun in H.
  destruct (take_screenshot w "form-filled" _) as [[c5 s5] e5] eqn:E5.
  destruct (take_screenshot_quiet _ _ _ _ _ E5) as ([v ->] & _).
  inversion H. reflexivity.
Qed.

End Strategies.

(** *** Nothing follows the raise *)

Lemma diverts_raise {R A : Type} (e : exn) : diverts (raise (R := R) (A := A) e).
Proof. intros s c s' evs H a. inversion H. discriminate. Qed.

Lemma diverts_bind {R A B : Type} (m : M R A) (k : A -> M R B) :
  (forall a, diverts (k a)) -> diverts (bind m k).
Proof.
  intros Hk s c s' evs H b. unfold bind in H.
  destruct (m s) as [[c1 s1] e1]. destruct c1 as [a | r | e | |];
    try (inversion H; discriminate).
  destruct (k a s1) as [[c2 s2] e2] eqn:E2. inversion H; subst.
  exact (Hk a _ _ _ _ E2 b).
Qed.

Lemma open_deposit_form_diverts (w : World) (data : receipt) :
  diverts (open_deposit_form w data).
Proof.
  unfold open_deposit_form.
  repeat (apply diverts_bind; intros ?). apply diverts_raise.
Qed.

Lemma call_skips_after_divert {R' A : Type} (m : M unit A) (k : A -> M unit unit)
  (s : state) :
  diverts m -> call (R' := R') tt (bind m k) s = call tt (bind m (fun _ => ret tt)) s.
Proof.
  intros Hm. unfold call, bind.
  destruct (m s) as [[c1 s1] e1] eqn:E1.
  destruct c1 as [a | r | e | |]; try reflexivity.
  exfalso. exact (Hm _ _ _ _ E1 a eq_refl).
Qed.

Lemma fill_receipt_form_stops (w : World) (self : automation) (data : receipt)
  (s : state) :
  fill_receipt_form (R := unit) w self data s
  = call tt (open_deposit_form w data) s.
Proof.
  unfold fill_receipt_form.
  rewrite (call_skips_after_divert _ _ _ (open_deposit_form_diverts w data)).
  unfold call, bind.
  destruct (open_deposit_form w data s) as [[c1 s1] e1] eqn:E1.
  destruct c1 as [a | r | e | |]; try reflexivity.
  exfalso. exact (open_deposit_form_diverts w data _ _ _ _ E1 a eq_refl).
Qed.

Lemma fill_receipt_form_spec (w : World) (self : automation) (data : receipt)
  (s : state) (c : completion unit unit) (s' : state) (evs : list event) :
  uninterrupted w ->
  fill_receipt_form w self data s = (c, s', evs) ->
  existsb after_raise evs = false
  /\ exists k,
       (1 <= k <= 7)%nat
       /\ attempted evs = seq 1 k
       /\ ((c = Normal tt /\ matches evs = [k]
            /\ forallb passive (after_first_match evs) = true)
           \/ (c = Raise (Exception not_found_message) /\ k = 7%nat
               /\ matches evs = [])).
Proof.
  intros Hun H. rewrite fill_receipt_form_stops in H. unfold call in H.
  destruct (open_deposit_form w data s) as [[c1 s1] e1] eqn:E1.
  destruct (open_deposit_form_spec w Hun _ _ _ _ _ E1) as (Hr & k & Hk & Ha & Hc).
  replace (k + 1 - 1)%nat with k in Ha by lia.
  destruct Hc as [(-> & Hle & Hm & Hp) | (-> & -> & Hm)]; inversion H; subst.
  - split; [exact Hr |]. exists k. split; [lia |]. split; [exact Ha |]. left. auto.
  - split; [exact Hr |]. exists 7%nat. split; [lia |]. split; [exact Ha |]. right. auto.
Qed.

(** C2. In no execution does [fill_receipt_form] run a statement that
    follows the raise of line 353: the function is the same as its part up
    to that raise.  When nobody interrupts, it either returns right after
    the one successful click of a deposit control, with only the wait and
    the screenshot after it, or raises once all seven strategies were
    evaluated without a click; no field is typed into, the 30-second hold
    is not entered and the commit control is not touched. *)
Theorem statements_after_raise_never_run :
  forall (w : World) (self : automation) (data : receipt) (s : state),
    fill_receipt_form (R := unit) w self data s
    = call tt (open_deposit_form w data) s
    /\ (uninterrupted w ->
        forall c s' evs,
          fill_receipt_form (R := unit) w self data s = (c, s', evs) ->
          existsb after_raise evs = false
          /\ ((c = Normal tt
               /\ exists k, matches evs = [k]
                            /\ forallb passive (after_first_match evs) = true)
              \/ (c = Raise (Exception not_found_message)
                  /\ attempted evs = seq 1 7
                  /\ matches evs = []))).
Proof.
  intros w self data s. split; [apply fill_receipt_form_stops |].
  intros Hun c s' evs H.
  destruct (fill_receipt_form_spec _ _ _ _ _ _ _ Hun H) as (Hr & k & Hk & Ha & Hc).
  split; [exact Hr |].
  destruct Hc as [(-> & Hm & Hp) | (-> & -> & Hm)].
  - left. split; [reflexivity |]. exists k. auto.
  - right. auto.
Qed.

Lemma uninterrupted_fourth : uninterrupted Scenario.fourth.
Proof. intros t. reflexivity. Qed.

Lemma calm_bare : calm Scenario.bare.
Proof. repeat split; intros; reflexivity. Qed.

Lemma statements_after_raise_never_run_witness :
  existsb after_raise
    (snd (fill_receipt_form (R := unit) Scenario.fourth Scenario.tester
            Scenario.receipt_data Scenario.ready)) = false.
Proof.
  exact (proj1 (proj2 (statements_after_raise_never_run Scenario.fourth
                         Scenario.tester Scenario.receipt_data Scenario.ready)
                  uninterrupted_fourth _ _ _ (triple_eta _))).
Defined.

(** C6. When nobody interrupts and strategy [k] is the first whose
    deposit control is shown and clicked, the strategies evaluated are
    exactly 1, 2, ..., [k], in that order, and the function returns:
    strategies [k+1] to 7 are never evaluated. *)
Theorem first_match_short_circuits_chain :
  forall (w : World) (self : automation) (data : receipt) (s : state)
         (c : completion unit unit) (s' : state) (evs : list event) (k : nat),
    uninterrupted w ->
    fill_receipt_form w self data s = (c, s', evs) ->
    first_match evs = Some k ->
    attempted evs = seq 1 k /\ (1 <= k <= 7)%nat /\ c = Normal tt.
Proof.
  intros w self data s c s' evs k Hun H Hfirst.
  destruct (fill_receipt_form_spec _ _ _ _ _ _ _ Hun H) as (_ & k' & Hk & Ha & Hc).
  unfold first_match in Hfirst.
  destruct Hc as [(-> & Hm & _) | (_ & _ & Hm)]; rewrite Hm in Hfirst.
  - inversion Hfirst; subst. auto.
  - discriminate.
Qed.

Lemma first_match_short_circuits_chain_witness :
  attempted (snd (fill_receipt_form (R := unit) Scenario.fourth Scenario.tester
                    Scenario.receipt_data Scenario.ready))
  = [1; 2; 3; 4]%nat.
Proof.
  refine (proj1 (first_match_short_circuits_chain Scenario.fourth Scenario.tester
                   Scenario.receipt_data Scenario.ready _ _ _ 4
                   uninterrupted_fourth (triple_eta _) _)).
  reflexivity.
Defined.

(** ** Releasing the browser *)

Lemma steady_ret {R A : Type} (a : A) : steady (ret (R := R) a).
Proof. intros s c s' evs H. inversion H. reflexivity. Qed.

Lemma steady_return {R A : Type} (r : R) : steady (return_ (A := A) r).
Proof. intros s c s' evs H. inversion H. reflexivity. Qed.

Lemma steady_continue {R A : Type} : steady (continue_ (R := R) (A := A)).
Proof. intros s c s' evs H. inversion H. reflexivity. Qed.

Lemma steady_raise {R A : Type} (e : exn) : steady (raise (R := R) (A := A) e).
Proof. intros s c s' evs H. inversion H. reflexivity. Qed.

Lemma steady_print {R : Type} (line : string) : steady (print (R := R) line).
Proof. intros s c s' evs H. inversion H. reflexivity. Qed.

Lemma steady_lift {R A : Type} (o : outcome A) : steady (lift (R := R) o).
Proof. intros s c s' evs H. destruct o; inversion H; reflexivity. Qed.

Lemma steady_bind {R A B : Type} (m : M R A) (k : A -> M R B) :
  steady m -> (forall a, steady (k a)) -> steady (bind m k).
Proof.
  intros Hm Hk s c s' evs H. unfold bind in H.
  destruct (m s) as [[c1 s1] e1] eqn:E1. pose proof (Hm _ _ _ _ E1) as B1.
  destruct c1 as [a | r | e | |]; try (inversion H; subst; exact B1).
  destruct (k a s1) as [[c2 s2] e2] eqn:E2. inversion H; subst.
  rewrite (Hk a _ _ _ _ E2). exact B1.
Qed.

Lemma steady_try_except {R A : Type} (body : M R A) (catches : exn -> bool)
  (handler : exn -> M R A) :
  steady body -> (forall e, steady (handler e)) ->
  steady (try_except body catches handler).
Proof.
  intros Hb Hh s c s' evs H. unfold try_except in H.
  destruct (body s) as [[c1 s1] e1] eqn:E1. pose proof (Hb _ _ _ _ E1) as B1.
  destruct c1 as [a | r | e | |]; try (inversion H; subst; exact B1).
  destruct (catches e); [| inversion H; subst; exact B1].
  destruct (handler e s1) as [[c2 s2] e2] eqn:E2. inversion H; subst.
  rewrite (Hh e _ _ _ _ E2). exact B1.
Qed.

Lemma steady_for_each {R X : Type} (xs : list X) (body : X -> M R unit) :
  (forall x, steady (body x)) -> steady (for_each xs body).
Proof.
  intros Hb. induction xs as [| x xs IH]; intros s c s' evs H.
  - inversion H. reflexivity.
  - cbn [for_each] in H.
    destruct (body x s) as [[c1 s1] e1] eqn:E1. pose proof (Hb x _ _ _ _ E1) as B1.
    destruct c1 as [a | r | e | |]; try (inversion H; subst; exact B1);
      destruct (for_each xs body s1) as [[c2 s2] e2] eqn:E2; inversion H; subst;
      rewrite (IH _ _ _ _ E2); exact B1.
Qed.

Lemma steady_call {R R' : Type} (none : R) (body : M R unit) :
  steady body -> steady (call (R' := R') none body).
Proof.
  intros Hb s c s' evs H. unfold call in H.
  destruct (body s) as [[c1 s1] e1] eqn:E1. pose proof (Hb _ _ _ _ E1) as B1.
  destruct c1; inversion H; subst; exact B1.
Qed.

Lemma steady_reading {R A : Type} (f : state -> M R A) :
  (forall s0, steady (f s0)) -> steady (fun s => f s s).
Proof. intros Hf s c s' evs H. exact (Hf s _ _ _ _ H). Qed.

Lemma steady_perform {R A : Type} (w : World) (cls : string -> exn)
  (oracle : nat -> action -> answer A) (log : A -> reply) (a : action) :
  steady (perform (R := R) w cls oracle log a).
Proof.
  intros s c s' evs H. unfold perform in H.
  destruct (interrupt w (clock s)); [| destruct (oracle (clock s) a)];
    inversion H; reflexivity.
Qed.

Lemma steady_on_page {R A : Type} (w : World)
  (oracle : nat -> action -> answer A) (log : A -> reply) (a : action) :
  steady (on_page (R := R) w oracle log a).
Proof.
  intros s c s' evs H. unfold on_page in H.
  destruct (page s); [exact (steady_perform _ _ _ _ _ _ _ _ _ H) |].
  inversion H. reflexivity.
Qed.

Lemma steady_sleep {R : Type} (w : World) (ms : Z) : steady (sleep (R := R) w ms).
Proof.
  intros s c s' evs H. unfold sleep in H.
  destruct (interrupt w (clock s)); inversion H; reflexivity.
Qed.

Lemma steady_take_screenshot {R : Type} (w : World) (name : string) :
  steady (take_screenshot (R := R) w name).
Proof.
  unfold take_screenshot. apply steady_call, steady_try_except.
  - apply (steady_reading
             (fun s0 =>
                page_do w
                  (Screenshot
                     ("screenshots/receipt-" +++ name +++ "-"
                      +++ strftime w (clock s0) +++ ".png")) ;;
                print ("Screenshot saved: " +++ "screenshots/receipt-" +++ name +++ "-"
                       +++ strftime w (clock s0) +++ ".png") ;;
                return_ (Some ("screenshots/receipt-" +++ name +++ "-"
                               +++ strftime w (clock s0) +++ ".png")))).
    intros s0. apply steady_bind; [apply steady_on_page | intros _].
    apply steady_bind; [apply steady_print | intros _]. apply steady_return.
  - intros e. apply steady_bind; [apply steady_print | intros _]. apply steady_return.
Qed.

Lemma steady_generate_totp_code {R : Type} (w : World) (self : automation) :
  steady (generate_totp_code (R := R) w self).
Proof.
  unfold generate_totp_code. apply steady_call.
  destruct (_ || _); [apply steady_raise |].
  apply steady_bind.
  - apply (steady_reading
             (fun s0 =>
                lift (Pyotp.now (str_option (two_factor_secret (creds self)))
                                (wall_clock w (clock s0))))).
    intros s0. apply steady_lift.
  - intros code. apply steady_bind; [apply steady_print | intros _].
    apply steady_return.
Qed.

(** Decompose a goal [steady m] along the syntax of [m]. *)
Ltac steady_go :=
  repeat first
    [ apply steady_take_screenshot | apply steady_generate_totp_code
    | apply steady_ret | apply steady_return | apply steady_continue
    | apply steady_print | apply steady_raise
    | apply steady_bind; [| intros ?]
    | apply steady_try_except; [| intros ?]
    | apply steady_for_each; intros ?
    | apply steady_call
    | apply steady_sleep | apply steady_on_page | apply steady_perform
    | match goal with
      | |- steady (if ?b then _ else _) => destruct b
      | |- steady (match ?o with Some _ => _ | None => _ end) => destruct o
      | |- steady ?m => let h := head_of m in unfold h
      end ].

Lemma no_close_closes (evs : list event) :
  Forall off_browser evs -> closes evs = 0%nat /\ existsb is_launch evs = false.
Proof.
  unfold closes. induction 1 as [| e evs [Hc Hl] _ [IH1 IH2]]; [auto |].
  cbn [filter existsb]. rewrite Hc, Hl. auto.
Qed.

Lemma closes_app (a b : list event) : closes (a ++ b) = (closes a + closes b)%nat.
Proof. unfold closes. now rewrite filter_app, length_app. Qed.

Section Release.

Variable w : World.

(** Close a goal [fits _ off_browser m] for a fragment that does not
    touch the browser. *)
Ltac off :=
  fits_go ltac:(first [ apply fits_take_screenshot
                      | apply fits_generate_totp_code ]);
  try (intros; exact I);
  try (intros; split; reflexivity).

(** After [initialize], [self.browser] is set exactly when the launch
    went through. *)
Lemma initialize_acquires {R : Type} (s : state) (c : completion R unit)
  (s' : state) (evs : list event) :
  browser s = false ->
  initialize w s = (c, s', evs) ->
  closes evs = 0%nat /\ browser s' = existsb is_launch evs.
Proof.
  intros Hb H.
  unfold initialize, call, bind, print, perform, set_browser, set_page, page_do,
    on_page, perform in H.
  cbn in H.
  repeat match type of H with
         | context [if interrupt w ?t then _ else _] =>
             destruct (interrupt w t); cbn in H
         | context [match do_ w ?t ?a with _ => _ end] =>
             destruct (do_ w t a) as [[] | ?]; cbn in H
         end;
    inversion H; subst; cbn; auto.
Qed.

Lemma stages_after_initialize (self : automation) (matter : string)
  (data : receipt) :
  let rest : M (option summary) unit :=
    login w self ;;
    navigate_to_matter_transactions w matter account_id ;;
    fill_receipt_form w self data ;;
    print "Automation completed successfully!" ;;
    return_ (Some (success_summary self)) in
  steady rest /\ fits (fun _ => True) off_browser rest.
Proof. cbv zeta. split; [steady_go | off]. Qed.

Lemma run_stages_acquires (self : automation) (matter : string) (data : receipt)
  (s : state) (c : completion (option summary) unit) (s' : state)
  (evs : list event) :
  browser s = false ->
  run_stages w self matter data s = (c, s', evs) ->
  closes evs = 0%nat /\ browser s' = existsb is_launch evs.
Proof.
  intros Hb H. unfold run_stages in H. unfold bind at 1 in H.
  destruct (initialize w s) as [[c1 s1] e1] eqn:E1.
  destruct (initialize_acquires _ _ _ _ Hb E1) as [Hc1 Hb1].
  destruct c1 as [[] | r | e | |]; try (inversion H; subst; auto).
  destruct (stages_after_initialize self matter data) as [Hs Hf].
  cbv zeta in Hs, Hf.
  match type of H with
  | context [bind (login w self) ?k s1] =>
      destruct (bind (login w self) k s1) as [[c2 s2] e2] eqn:E2
  end.
  destruct (Hf _ _ _ _ E2) as [F2 _].
  destruct (no_close_closes _ F2) as [Hc2 Hl2].
  inversion H; subst.
  rewrite closes_app, existsb_app, Hc1, Hc2, Hl2, orb_false_r, (Hs _ _ _ _ E2).
  auto.
Qed.

Lemma run_failed_keeps (self : automation) (e : exn) :
  steady (run_failed w self e) /\ fits (fun _ => True) off_browser (run_failed w self e).
Proof. split; [steady_go | off]. Qed.

(** The [finally] block closes the browser once if there is one, unless
    its wait is interrupted. *)
Lemma run_finally_closes (self : automation) (s : state)
  (c : completion (option summary) unit) (s' : state) (evs : list event) :
  run_finally w self s = (c, s', evs) ->
  existsb is_launch evs = false
  /\ (In (Ev (Sleep 5000) Interrupted) evs
      \/ closes evs = (if browser s then 1 else 0)%nat).
Proof.
  intros H.
  unfold run_finally, cleanup, call, bind, sleep, perform, print, ret in H.
  destruct (negb (test_mode self)); cbn in H.
  - destruct (interrupt w (clock s)); cbn in H.
    + inversion H; subst. split; [reflexivity | left; left; reflexivity].
    + destruct (browser s); cbn in H;
        [destruct (interrupt w (S (clock s))); cbn in H;
         [| destruct (do_ w (S (clock s)) CloseBrowser) as [[] | ?]; cbn in H] |];
        inversion H; subst; split; try reflexivity; right; reflexivity.
  - destruct (browser s); cbn in H;
      [destruct (interrupt w (clock s)); cbn in H;
       [| destruct (do_ w (clock s) CloseBrowser) as [[] | ?]; cbn in H] |];
      inversion H; subst; split; try reflexivity; right; reflexivity.
Qed.

(** Where the release does hold: in every run of [run], interrupted or
    not, [browser.close()] is called exactly once if the browser was
    launched and not at all otherwise, unless the interruption falls on
    the five-second wait that precedes [cleanup] when [--submit] is
    given. *)
Lemma browser_closed_once_unless_wait_interrupted {R : Type} (self : automation)
  (matter : string) (data : receipt) (s : state)
  (c : completion R (option summary)) (s' : state) (evs : list event) :
  browser s = false ->
  run w self matter data s = (c, s', evs) ->
  ~ In (Ev (Sleep 5000) Interrupted) evs ->
  closes evs = (if existsb is_launch evs then 1 else 0)%nat.
Proof.
  intros Hb H Hwait. unfold run, call, try_finally, try_except in H.
  destruct (run_stages w self matter data s) as [[c1 s1] e1] eqn:E1.
  destruct (run_stages_acquires _ _ _ _ _ _ _ Hb E1) as [Hc1 Hb1].
  assert (forall s2 e2 (cf : completion (option summary) unit) s3 e3,
             browser s2 = browser s1 ->
             closes e2 = 0%nat -> existsb is_launch e2 = false ->
             run_finally w self s2 = (cf, s3, e3) ->
             evs = (e1 ++ e2) ++ e3 ->
             closes evs = (if existsb is_launch evs then 1 else 0)%nat) as Hfin.
  { intros s2 e2 cf s3 e3 Hb2 Hc2 Hl2 E3 ->.
    destruct (run_finally_closes _ _ _ _ _ E3) as [Hl3 [Hin | Hc3]].
    - exfalso. apply Hwait. apply in_or_app. right. exact Hin.
    - rewrite !closes_app, !existsb_app, Hc1, Hc2, Hc3, Hl2, Hl3, Hb2, Hb1.
      rewrite !orb_false_r. reflexivity. }
  assert (forall (cf : completion (option summary) unit) s3 e3,
             run_finally w self s1 = (cf, s3, e3) ->
             evs = e1 ++ e3 ->
             closes evs = (if existsb is_launch evs then 1 else 0)%nat) as Hfin0.
  { intros cf s3 e3 E3 ->.
    apply (Hfin s1 [] cf s3 e3); auto. now rewrite app_nil_r. }
  destruct c1 as [a | r | e | |].
  - destruct (run_finally w self s1) as [[cf s3] e3] eqn:E3.
    apply (Hfin0 _ _ _ eq_refl). destruct cf; inversion H; reflexivity.
  - destruct (run_finally w self s1) as [[cf s3] e3] eqn:E3.
    apply (Hfin0 _ _ _ eq_refl). destruct cf; inversion H; reflexivity.
  - destruct (is_Exception e).
    + destruct (run_failed w self e s1) as [[c2 s2] e2] eqn:E2.
      destruct (run_failed_keeps self e) as [Hs Hf].
      destruct (Hf _ _ _ _ E2) as [F2 _].
      destruct (no_close_closes _ F2) as [Hc2 Hl2].
      destruct (run_finally w self s2) as [[cf s3] e3] eqn:E3.
      apply (Hfin _ _ _ _ _ (Hs _ _ _ _ E2) Hc2 Hl2 E3).
      destruct cf, c2; inversion H; reflexivity.
    + destruct (run_finally w self s1) as [[cf s3] e3] eqn:E3.
      apply (Hfin0 _ _ _ eq_refl). destruct cf; inversion H; reflexivity.
  - destruct (run_finally w self s1) as [[cf s3] e3] eqn:E3.
    apply (Hfin0 _ _ _ eq_refl). destruct cf; inversion H; reflexivity.
  - destruct (run_finally w self s1) as [[cf s3] e3] eqn:E3.
    apply (Hfin0 _ _ _ eq_refl). destruct cf; inversion H; reflexivity.
Qed.

End Release.

(** ** The manual second factor *)

Lemma prompted_app_l (p e : list event) : prompted e -> prompted (p ++ e).
Proof.
  intros (pre & r & post & -> & H). exists (p ++ pre), r, post.
  split; [now rewrite app_assoc | exact H].
Qed.

Lemma prompted_app_r (e q : list event) : prompted e -> prompted (e ++ q).
Proof.
  intros (pre & r & post & -> & H). exists pre, r, (post ++ q). split.
  - rewrite <- app_assoc. reflexivity.
  - intros code Hc. destruct (H code Hc) as (r' & post' & ->).
    exists r', (post' ++ q). reflexivity.
Qed.

Lemma not_shown (e : list event) :
  Forall (fun x => x <> two_factor_shown) e -> ~ In two_factor_shown e.
Proof.
  intros F Hin. rewrite Forall_forall in F. exact (F _ Hin eq_refl).
Qed.

Lemma prompts_before {R A : Type} (m : M R A) : before_two_factor m -> prompts m.
Proof.
  intros Hm s c s' evs H Hin. destruct (Hm _ _ _ _ H) as [F _].
  exfalso. exact (not_shown _ F Hin).
Qed.

Lemma prompts_bind_l {R A B : Type} (m : M R A) (k : A -> M R B) :
  before_two_factor m -> (forall a, prompts (k a)) -> prompts (bind m k).
Proof.
  intros Hm Hk s c s' evs H Hin. unfold bind in H.
  destruct (m s) as [[c1 s1] e1] eqn:E1.
  destruct (Hm _ _ _ _ E1) as [F1 _].
  destruct c1 as [a | r | e | |];
    try (inversion H; subst; exfalso; exact (not_shown _ F1 Hin)).
  destruct (k a s1) as [[c2 s2] e2] eqn:E2. inversion H; subst.
  apply prompted_app_l, (Hk a _ _ _ _ E2).
  apply in_app_or in Hin. destruct Hin as [Hin | Hin]; [| exact Hin].
  exfalso. exact (not_shown _ F1 Hin).
Qed.

Lemma prompts_bind_r {R A B : Type} (m : M R A) (k : A -> M R B) :
  prompts m -> (forall a, before_two_factor (k a)) -> prompts (bind m k).
Proof.
  intros Hm Hk s c s' evs H Hin. unfold bind in H.
  destruct (m s) as [[c1 s1] e1] eqn:E1.
  destruct c1 as [a | r | e | |];
    try (inversion H; subst; exact (Hm _ _ _ _ E1 Hin)).
  destruct (k a s1) as [[c2 s2] e2] eqn:E2. inversion H; subst.
  destruct (Hk a _ _ _ _ E2) as [F2 _].
  apply prompted_app_r, (Hm _ _ _ _ E1).
  apply in_app_or in Hin. destruct Hin as [Hin | Hin]; [exact Hin |].
  exfalso. exact (not_shown _ F2 Hin).
Qed.

Lemma prompts_try_except {R A : Type} (body : M R A) (catches : exn -> bool)
  (handler : exn -> M R A) :
  prompts body -> (forall e, before_two_factor (handler e)) ->
  prompts (try_except body catches handler).
Proof.
  intros Hb Hh s c s' evs H Hin. unfold try_except in H.
  destruct (body s) as [[c1 s1] e1] eqn:E1.
  destruct c1 as [a | r | e | |];
    try (inversion H; subst; exact (Hb _ _ _ _ E1 Hin)).
  destruct (catches e); [| inversion H; subst; exact (Hb _ _ _ _ E1 Hin)].
  destruct (handler e s1) as [[c2 s2] e2] eqn:E2. inversion H; subst.
  destruct (Hh e _ _ _ _ E2) as [F2 _].
  apply prompted_app_r, (Hb _ _ _ _ E1).
  apply in_app_or in Hin. destruct Hin as [Hin | Hin]; [exact Hin |].
  exfalso. exact (not_shown _ F2 Hin).
Qed.

Lemma prompts_call {R R' : Type} (none : R) (body : M R unit) :
  prompts body -> prompts (call (R' := R') none body).
Proof.
  intros Hb s c s' evs H Hin. unfold call in H.
  destruct (body s) as [[c1 s1] e1] eqn:E1.
  destruct c1; inversion H; subst; exact (Hb _ _ _ _ E1 Hin).
Qed.

Section Manual.

Variable w : World.
Variable self : automation.

Hypothesis no_generator :
  truthy (two_factor_secret (creds self)) = false \/ pyotp_installed w = false.

Lemma generator_off :
  truthy (two_factor_secret (creds self)) && pyotp_installed w = false.
Proof.
  destruct no_generator as [-> | ->]; [reflexivity | apply andb_false_r].
Qed.

(** Close a goal [before_two_factor m]. *)
Ltac before :=
  unfold before_two_factor;
  fits_go ltac:(first [ apply fits_take_screenshot
                      | apply fits_generate_totp_code ]);
  try (intros; exact I);
  try (intros; unfold two_factor_shown; congruence).

Lemma page_do_first {R B : Type} (a : action) (k : unit -> M R B) (s : state)
  (c : completion R B) (s' : state) (evs : list event) :
  bind (page_do w a) k s = (c, s', evs) -> exists r rest, evs = Ev a r :: rest.
Proof.
  unfold bind, page_do, on_page, perform. intros H.
  destruct (page s); [| inversion H; subst; eauto].
  destruct (interrupt w (clock s)); [inversion H; subst; eauto |].
  destruct (do_ w (clock s) a) as [[] | msg]; [| inversion H; subst; eauto].
  destruct (k tt (tick s)) as [[c2 s2] e2]. inversion H; subst.
  cbn. eauto.
Qed.

(** The statements of the two-factor block once the field is awaited. *)
Lemma after_wait_prompts (k : string -> M unit unit) (s : state)
  (c : completion unit unit) (s' : state) (evs : list event) :
  (page_do w (WaitForSelector sel_two_factor 15000) ;;
   totp_code <-
     (if truthy (two_factor_secret (creds self)) && pyotp_installed w
      then generate_totp_code w self
      else
        print "Manual 2FA required - please enter code:" ;;
        perform w EOFError (ask_str w) Str (Input "Enter 2FA code: ")) ;;
   page_do w (Fill two_factor_input totp_code) ;;
   k totp_code) s = (c, s', evs) ->
  In two_factor_shown evs -> prompted evs.
Proof.
  rewrite generator_off. intros H Hin.
  unfold bind at 1, page_do at 1, on_page, perform in H.
  destruct (page s).
  2: { inversion H; subst. destruct Hin as [E | []]. discriminate E. }
  destruct (interrupt w (clock s)).
  { inversion H; subst. destruct Hin as [E | []]. discriminate E. }
  destruct (do_ w (clock s) _) as [[] | msg].
  2: { inversion H; subst. destruct Hin as [E | []]. discriminate E. }
  unfold bind at 1 in H. rewrite bind_print in H.
  unfold perform in H. cbn [clock tick] in H.
  destruct (interrupt w (S (clock s))).
  { inversion H; subst. exists [], Interrupted, []. split; [reflexivity |].
    intros code E. discriminate E. }
  destruct (ask_str w (S (clock s)) _) as [code | msg].
  2: { inversion H; subst. exists [], (Failed msg), []. split; [reflexivity |].
       intros code E. discriminate E. }
  match type of H with
  | context [bind (page_do w ?a) ?k0 ?s0] =>
      destruct (bind (page_do w a) k0 s0) as [[c2 s2] e2] eqn:E2
  end.
  destruct (page_do_first _ _ _ _ _ _ E2) as (r' & rest & ->).
  inversion H; subst.
  exists [], (Str code), (Ev (Fill two_factor_input code) r' :: rest).
  split; [reflexivity |]. intros code' E. inversion E; subst. eauto.
Qed.

Lemma login_two_factor_prompts : prompts (login_two_factor w self).
Proof.
  unfold login_two_factor.
  apply prompts_bind_l; [before | intros _].
  apply prompts_try_except; [| intros e; before].
  intros s c s' evs H. exact (after_wait_prompts _ _ _ _ _ H).
Qed.

Lemma login_prompts {R : Type} : prompts (login (R := R) w self).
Proof.
  unfold login.
  apply prompts_call.
  apply prompts_bind_l; [before | intros _].
  apply prompts_try_except; [| intros e; before].
  apply prompts_bind_l; [before | intros _].
  apply prompts_bind_l; [before | intros _].
  apply prompts_bind_l; [before | intros email_input].
  destruct email_input as [email_input |]; [| apply prompts_before; before].
  apply prompts_bind_l; [before | intros _].
  apply prompts_bind_l; [before | intros _].
  apply prompts_bind_l; [before | intros password_input].
  apply prompts_bind_l; [before | intros _].
  apply prompts_bind_l; [before | intros _].
  apply prompts_bind_l; [before | intros _].
  apply prompts_bind_l; [before | intros _].
  apply prompts_bind_l; [before | intros current_url].
  apply prompts_bind_r; [| intros _; before].
  destruct (negb (contains "dashboard" current_url)).
  - exact login_two_factor_prompts.
  - apply prompts_before. before.
Qed.

End Manual.


(** * Further properties of the script *)

(** ** Reading a run backwards *)

Lemma bind_inv {R A B : Type} (m : M R A) (k : A -> M R B) (s : state)
  (c : completion R B) (s' : state) (evs : list event) :
  bind m k s = (c, s', evs) ->
  exists c1 s1 e1,
    m s = (c1, s1, e1)
    /\ match c1 with
       | Normal a => exists e2, k a s1 = (c, s', e2) /\ evs = e1 ++ e2
       | _ => c = abrupt c1 /\ s' = s1 /\ evs = e1
       end.
Proof.
  unfold bind. intros H. destruct (m s) as [[c1 s1] e1].
  exists c1, s1, e1. split; [reflexivity |].
  destruct c1 as [a | r | e | |]; try (inversion H; subst; auto).
  destruct (k a s1) as [[c2 s2] e2]. inversion H; subst. eauto.
Qed.

Lemma call_inv {R R' : Type} (none : R) (body : M R unit) (s : state)
  (c : completion R' R) (s' : state) (evs : list event) :
  call none body s = (c, s', evs) ->
  exists c1,
    body s = (c1, s', evs)
    /\ c = match c1 with
           | Return r => Normal r
           | Raise e => Raise e
           | _ => Normal none
           end.
Proof.
  unfold call. intros H. destruct (body s) as [[c1 s1] e1].
  exists c1. destruct c1; inversion H; subst; auto.
Qed.

Lemma try_except_inv {R A : Type} (body : M R A) (catches : exn -> bool)
  (handler : exn -> M R A) (s : state) (c : completion R A) (s' : state)
  (evs : list event) :
  try_except body catches handler s = (c, s', evs) ->
  exists c1 s1 e1,
    body s = (c1, s1, e1)
    /\ ((exists e e2, c1 = Raise e /\ catches e = true
                      /\ handler e s1 = (c, s', e2) /\ evs = e1 ++ e2)
        \/ (c = c1 /\ s' = s1 /\ evs = e1
            /\ forall e, c1 = Raise e -> catches e = false)).
Proof.
  unfold try_except. intros H. destruct (body s) as [[c1 s1] e1].
  exists c1, s1, e1. split; [reflexivity |].
  destruct c1 as [a | r | e | |];
    try (right; inversion H; subst;
         split; [reflexivity | split; [reflexivity | split; [reflexivity |]]];
         intros e0 E; discriminate E).
  destruct (catches e) eqn:Ec.
  - destruct (handler e s1) as [[c2 s2] e2] eqn:Eh. inversion H; subst.
    left. exists e, e2. repeat split; auto.
  - right. inversion H; subst.
    split; [reflexivity | split; [reflexivity | split; [reflexivity |]]].
    intros e0 E. inversion E; subst. exact Ec.
Qed.

(** ** A screenshot that fails is reported, not raised *)

(** X1 (take_screenshot, lines 95-105).  Whatever happens to the
    screenshot, [take_screenshot] raises no [Exception]: it returns the
    path of the file exactly when the call went through, and otherwise
    prints the failure and returns [None]; only an interruption of the
    pending call gets out. *)
Theorem screenshot_failure_is_reported_not_raised :
  forall (w : World) (name : string) (s s' : state)
         (c : completion unit (option string)) (evs : list event),
    take_screenshot w name s = (c, s', evs) ->
    let path := "screenshots/receipt-" +++ name +++ "-"
                +++ strftime w (clock s) +++ ".png" in
    (c = Normal (Some path)
     /\ evs = [Ev (Screenshot path) Done; Out ("Screenshot saved: " +++ path)])
    \/ (exists r msg,
          r <> Done /\ c = Normal None
          /\ evs = [Ev (Screenshot path) r; Out ("Failed to take screenshot: " +++ msg)])
    \/ (c = Raise KeyboardInterrupt /\ interrupt w (clock s) = true
        /\ evs = [Ev (Screenshot path) Interrupted]).
Proof.
  intros w name s s' c evs H path.
  unfold take_screenshot, call, try_except, bind, page_do, on_page, perform,
    print, return_ in H.
  destruct (page s).
  - destruct (interrupt w (clock s)) eqn:Ei.
    + inversion H; subst. right. right. auto.
    + destruct (do_ w (clock s) _) as [[] | msg] eqn:Ed.
      * inversion H; subst. left. auto.
      * cbn in H. inversion H; subst. right. left.
        exists (Failed msg), msg. repeat split. discriminate.
  - cbn in H. inversion H; subst. right. left.
    exists NoPage, no_page_message. repeat split. discriminate.
Qed.

Lemma screenshot_failure_is_reported_not_raised_witness :
  let path := "screenshots/receipt-debug-20251121-101500.png" in
  (Normal (R := unit) (Some path) = Normal (Some path)
   /\ [Ev (Screenshot path) Done; Out ("Screenshot saved: " +++ path)]
      = [Ev (Screenshot path) Done; Out ("Screenshot saved: " +++ path)])
  \/ (exists r msg,
        r <> Done /\ Normal (R := unit) (Some path) = Normal None
        /\ [Ev (Screenshot path) Done; Out ("Screenshot saved: " +++ path)]
           = [Ev (Screenshot path) r; Out ("Failed to take screenshot: " +++ msg)])
  \/ (Normal (R := unit) (Some path) = Raise KeyboardInterrupt
      /\ interrupt Scenario.happy 11 = true
      /\ [Ev (Screenshot path) Done; Out ("Screenshot saved: " +++ path)]
         = [Ev (Screenshot path) Interrupted]).
Proof.
  exact (screenshot_failure_is_reported_not_raised Scenario.happy "debug"
           Scenario.ready _ _ _ eq_refl).
Defined.

(** ** What no run does *)

Lemma fits_same {R A : Type} (okE : exn -> Prop) (P : event -> Prop) (m m' : M R A) :
  (forall s, m s = m' s) -> fits okE P m' -> fits okE P m.
Proof. intros E Hm s c s' evs H. rewrite E in H. exact (Hm _ _ _ _ H). Qed.

Lemma fits_bind_yields {R A B : Type} (okE : exn -> Prop) (P : event -> Prop)
  (Q : A -> Prop) (m : M R A) (k : A -> M R B) :
  fits okE P m -> yields Q m -> (forall a, Q a -> fits okE P (k a)) ->
  fits okE P (bind m k).
Proof.
  intros Hm Hq Hk s c s' evs H.
  apply bind_inv in H. destruct H as (c1 & s1 & e1 & E1 & H).
  destruct (Hm _ _ _ _ E1) as [F1 O1].
  destruct c1 as [a | r | e | |];
    try (destruct H as (-> & -> & ->); split; [exact F1 | exact O1 || exact I]).
  destruct H as (e2 & E2 & ->).
  destruct (Hk a (Hq _ _ _ _ E1 a eq_refl) _ _ _ _ E2) as [F2 O2].
  split; [apply Forall_app; auto | exact O2].
Qed.

(** [fill_receipt_form] is its chain of strategies, whatever the caller. *)
Lemma fill_receipt_form_is_its_chain {R : Type} (w : World) (self : automation)
  (data : receipt) (s : state) :
  fill_receipt_form (R := R) w self data s
  = call tt (open_deposit_form w data) s.
Proof.
  unfold fill_receipt_form, call, bind.
  destruct (open_deposit_form w data s) as [[c1 s1] e1] eqn:E1.
  destruct c1 as [a | r | e | |]; try reflexivity.
  exfalso. exact (open_deposit_form_diverts w data _ _ _ _ E1 a eq_refl).
Qed.

Lemma fits_fill_receipt_form {R : Type} (okE : exn -> Prop) (P : event -> Prop)
  (w : World) (self : automation) (data : receipt) :
  fits okE P (call (R' := R) tt (open_deposit_form w data)) ->
  fits okE P (fill_receipt_form (R := R) w self data).
Proof. apply fits_same. intros s. apply fill_receipt_form_is_its_chain. Qed.

Lemma fits_cleanup {R : Type} (okE : exn -> Prop) (P : event -> Prop) (w : World) :
  ((exists t, interrupt w t = true) -> okE KeyboardInterrupt) ->
  (forall m, okE (PlaywrightError m)) ->
  (forall r, P (Ev CloseBrowser r)) -> P (Out "Browser closed") ->
  fits okE P (cleanup (R := R) w).
Proof.
  intros Hi He Hc Ho. unfold cleanup. apply fits_call.
  apply (fits_reading okE P
           (fun s0 =>
              if browser s0
              then perform w PlaywrightError (do_ w) done CloseBrowser ;;
                   print "Browser closed"
              else ret tt)).
  intros s0. fits_go fail; auto.
Qed.

(** The value of the two locators [login] looks up. *)
Lemma email_input_yields (w : World) :
  yields (fun v => v = Some (First (Css sel_email)))
    (try_except (R := unit)
       (page_do w (WaitForSelector sel_email 10000) ;;
        ret (Some (First (Css sel_email))))
       any
       (fun _ =>
          page_do w (WaitForSelector "textbox" 10000) ;;
          raise coroutine_not_subscriptable)).
Proof.
  intros s c s' evs H a ->.
  apply try_except_inv in H. destruct H as (c1 & s1 & e1 & E1 & H).
  apply bind_inv in E1. destruct E1 as (c0 & s0 & e0 & E0 & E1).
  destruct H as [(e & e2 & -> & _ & H & _) | (<- & _ & _ & _)].
  - apply bind_inv in H. destruct H as (c2 & s2 & e2' & _ & H).
    destruct c2; [destruct H as (e3 & H & _); inversion H
                 | destruct H as (H & _); discriminate H ..].
  - destruct c0; [destruct E1 as (e2 & E1 & _); inversion E1; reflexivity
                 | destruct E1 as (E1 & _); discriminate E1 ..].
Qed.

Lemma password_input_yields :
  yields (fun v => v = First (Css sel_password))
    (try_except (R := unit)
       (ret (First (Css sel_password)))
       any
       (fun _ => raise (TypeError "object of type 'coroutine' has no len()"))).
Proof.
  intros s c s' evs H a ->. cbv in H. inversion H. reflexivity.
Qed.

Lemma existsb_none {A : Type} (f : A -> bool) (l : list A) :
  Forall (fun x => f x = false) l -> existsb f l = false.
Proof.
  intros F. induction F as [| x l Hx _ IH]; [reflexivity |].
  cbn. rewrite Hx. exact IH.
Qed.

Section Reach.

Variable w : World.

Let anyE : exn -> Prop := fun _ => True.
Let P : event -> Prop := fun e => form_step e = false.

Ltac reach :=
  fits_go ltac:(first [ apply fits_take_screenshot
                      | apply fits_generate_totp_code
                      | apply fits_cleanup
                      | apply fits_fill_receipt_form ]);
  try (intros; exact I);
  try (intros; reflexivity).

Lemma login_reach {R : Type} (self : automation) :
  fits anyE P (login (R := R) w self).
Proof.
  unfold login. apply fits_call.
  apply fits_bind; [reach | intros _].
  apply fits_try_except; [| intros e _ _; reach].
  apply fits_bind; [reach | intros _].
  apply fits_bind; [reach | intros _].
  apply fits_bind_yields with (Q := fun v => v = Some (First (Css sel_email)));
    [reach | apply email_input_yields | intros email_input ->].
  apply fits_bind; [reach | intros _].
  apply fits_bind; [reach | intros _].
  apply fits_bind_yields with (Q := fun v => v = First (Css sel_password));
    [reach | apply password_input_yields | intros password_input ->].
  reach.
Qed.

Lemma script_reach (a : args) : fits anyE P (script w a).
Proof.
  fits_go ltac:(first [ apply fits_take_screenshot
                      | apply fits_generate_totp_code
                      | apply fits_cleanup
                      | apply fits_fill_receipt_form
                      | apply login_reach ]);
  try (intros; exact I);
  try (intros; reflexivity).
Qed.

End Reach.

(** X2 (main and run with all they call, lines 68-616).  No run of the
    script, with or without [--submit], whatever the page answers and
    whenever the user interrupts, makes a call on a field of the receipt
    or on the control that commits it, or enters the 30-second hold:
    those statements lie behind the raise of line 353. *)
Theorem no_run_touches_the_receipt_form :
  forall (w : World) (a : args) (s s' : state) (c : completion unit unit)
         (evs : list event),
    script w a s = (c, s', evs) -> existsb form_step evs = false.
Proof.
  intros w a s s' c evs H.
  destruct (script_reach w a _ _ _ _ H) as [F _].
  exact (existsb_none _ _ F).
Qed.

Lemma no_run_touches_the_receipt_form_witness :
  existsb form_step (snd (script Scenario.happy Scenario.submit_args start)) = false.
Proof.
  apply (no_run_touches_the_receipt_form Scenario.happy Scenario.submit_args start
           (snd (fst (script Scenario.happy Scenario.submit_args start)))
           (fst (fst (script Scenario.happy Scenario.submit_args start)))).
  apply triple_eta.
Defined.

Section Addresses.

Variable w : World.
Variable matter : string.

Ltac addresses :=
  fits_go ltac:(first [ apply fits_take_screenshot
                      | apply fits_generate_totp_code
                      | apply fits_cleanup ]);
  try (intros; exact I);
  try (intros; cbn; auto).

Lemma run_visits {R : Type} (self : automation) (data : receipt) :
  fits (fun _ => True) (visits matter) (run (R := R) w self matter data).
Proof. addresses. Qed.

End Addresses.

(** X3 (run with login and navigate_to_matter_transactions, lines
    107-224 and 537-564).  Whatever happens, a run sends the browser to
    no address but the login page and the transactions page of the
    matter it was given, under the account id fixed in [run]. *)
Theorem run_visits_two_addresses :
  forall (w : World) (self : automation) (matter : string) (data : receipt)
         (s s' : state) (c : completion unit (option summary)) (evs : list event),
    run w self matter data s = (c, s', evs) ->
    forall url wait_until r,
      In (Ev (Goto url wait_until) r) evs ->
      url = "https://app.smokeball.com.au"
      \/ url = transactions_url matter account_id.
Proof.
  intros w self matter data s s' c evs H url wait_until r Hin.
  destruct (run_visits w matter self data _ _ _ _ H) as [F _].
  rewrite Forall_forall in F. exact (F _ Hin).
Qed.

Lemma run_visits_two_addresses_witness :
  transactions_url (arg_matter_id Scenario.default_args) account_id
  = "https://app.smokeball.com.au"
  \/ transactions_url (arg_matter_id Scenario.default_args) account_id
     = transactions_url (arg_matter_id Scenario.default_args) account_id.
Proof.
  apply (run_visits_two_addresses Scenario.happy Scenario.tester
           (arg_matter_id Scenario.default_args) Scenario.receipt_data start
           (snd (fst (run Scenario.happy Scenario.tester
                        (arg_matter_id Scenario.default_args)
                        Scenario.receipt_data start)))
           (fst (fst (run Scenario.happy Scenario.tester
                        (arg_matter_id Scenario.default_args)
                        Scenario.receipt_data start)))
           (snd (run Scenario.happy Scenario.tester
                   (arg_matter_id Scenario.default_args)
                   Scenario.receipt_data start))
           (triple_eta _) _ None Done).
  vm_compute. repeat (first [left; reflexivity | right]).
Defined.

(** ** The browser, launched and released *)

(** X4 (initialize, lines 68-93).  [initialize] never closes a browser,
    and it sets [self.browser] exactly when the launch went through: the
    browser is recorded also when a later step of [initialize] fails or
    is interrupted.  When [initialize] completes, browser and page are
    both set. *)
Theorem initialize_records_the_browser_it_launched :
  forall (w : World) (s s' : state) (c : completion unit unit) (evs : list event),
    browser s = false ->
    initialize w s = (c, s', evs) ->
    closes evs = 0%nat
    /\ browser s' = existsb is_launch evs
    /\ (c = Normal tt -> browser s' = true /\ page s' = true).
Proof.
  intros w s s' c evs Hb H.
  unfold initialize, call, bind, print, perform, set_browser, set_page, page_do,
    on_page, perform in H.
  cbn in H.
  repeat match type of H with
         | context [if interrupt w ?t then _ else _] =>
             destruct (interrupt w t); cbn in H
         | context [match do_ w ?t ?a with _ => _ end] =>
             destruct (do_ w t a) as [[] | ?]; cbn in H
         end;
    inversion H; subst; cbn; repeat split; auto; discriminate.
Qed.

Lemma initialize_records_the_browser_it_launched_witness :
  closes (snd (initialize (R := unit) Scenario.happy start)) = 0%nat
  /\ browser (snd (fst (initialize (R := unit) Scenario.happy start)))
     = existsb is_launch (snd (initialize (R := unit) Scenario.happy start))
  /\ (fst (fst (initialize (R := unit) Scenario.happy start)) = Normal tt ->
      browser (snd (fst (initialize (R := unit) Scenario.happy start))) = true
      /\ page (snd (fst (initialize (R := unit) Scenario.happy start))) = true).
Proof.
  apply (initialize_records_the_browser_it_launched Scenario.happy start).
  - reflexivity.
  - apply triple_eta.
Defined.

Section Wait.

Variable w : World.
Variable self : automation.

Hypothesis in_test_mode : test_mode self = true.

Let P : event -> Prop := fun e => e <> Ev (Sleep 5000) Interrupted.

Lemma test_run_never_waits_to_close {R : Type} (matter : string) (data : receipt) :
  fits (fun _ => True) P (run (R := R) w self matter data).
Proof.
  unfold run, run_finally. rewrite in_test_mode. cbn [negb].
  fits_go ltac:(first [ apply fits_take_screenshot
                      | apply fits_generate_totp_code
                      | apply fits_cleanup
                      | apply fits_fill_receipt_form ]);
  try (intros; exact I);
  try (intros; unfold P; discriminate).
Qed.

End Wait.

(** X5 (run and cleanup, lines 531-564).  A run closes the browser once
    if it launched one and never otherwise, whatever fails and wherever
    the user interrupts, with one exception: the five-second wait that
    precedes [cleanup] outside test mode.  In test mode there is no such
    wait, so the browser a test run launched is always closed. *)
Theorem run_closes_the_browser_it_launched :
  forall (w : World) (self : automation) (matter : string) (data : receipt)
         (s s' : state) (c : completion unit (option summary)) (evs : list event),
    browser s = false ->
    run w self matter data s = (c, s', evs) ->
    test_mode self = true \/ ~ In (Ev (Sleep 5000) Interrupted) evs ->
    closes evs = (if existsb is_launch evs then 1 else 0)%nat.
Proof.
  intros w self matter data s s' c evs Hb H Hw.
  apply (browser_closed_once_unless_wait_interrupted w self matter data s c s' evs Hb H).
  destruct Hw as [Htm | Hw]; [| exact Hw].
  destruct (test_run_never_waits_to_close w self Htm matter data _ _ _ _ H) as [F _].
  rewrite Forall_forall in F. intros Hin. exact (F _ Hin eq_refl).
Qed.

Lemma run_closes_the_browser_it_launched_witness :
  closes (snd (run (R := unit) (Scenario.interrupted_at 20) Scenario.tester
                 (arg_matter_id Scenario.default_args) Scenario.receipt_data start))
  = (if existsb is_launch
          (snd (run (R := unit) (Scenario.interrupted_at 20) Scenario.tester
                  (arg_matter_id Scenario.default_args) Scenario.receipt_data start))
     then 1 else 0)%nat.
Proof.
  apply (run_closes_the_browser_it_launched (Scenario.interrupted_at 20)
           Scenario.tester (arg_matter_id Scenario.default_args)
           Scenario.receipt_data start
           (snd (fst (run (R := unit) (Scenario.interrupted_at 20) Scenario.tester
                        (arg_matter_id Scenario.default_args)
                        Scenario.receipt_data start)))
           (fst (fst (run (R := unit) (Scenario.interrupted_at 20) Scenario.tester
                        (arg_matter_id Scenario.default_args)
                        Scenario.receipt_data start)))).
  - reflexivity.
  - apply triple_eta.
  - left. reflexivity.
Defined.

(** ** Running a fragment on every answer *)

(** Lay open the combinators and the calls in the run [H]. *)
Ltac expose H :=
  unfold take_screenshot, try_except, bind, call, page_bool, page_do, page_text,
    page_count, page_str, on_page, perform, sleep, print, return_, ret, raise,
    continue_, any in H.

(** Split the run [H] of a fragment on every answer the world [w] can
    give, when nobody interrupts. *)
Ltac answers w Hun H :=
  repeat (cbn in H;
    match type of H with
    | context [interrupt w ?t] => rewrite (Hun t) in H
    | context [page ?s] =>
        match goal with E : page s = _ |- _ => rewrite E in H end
    | context [if page ?s then _ else _] => destruct (page s) eqn:?
    | context [match do_ w ?t ?a with _ => _ end] =>
        destruct (do_ w t a) as [[] | ?] eqn:?
    | context [match ask_bool w ?t ?a with _ => _ end] =>
        destruct (ask_bool w t a) as [[] | ?] eqn:?
    | context [match ask_text w ?t ?a with _ => _ end] =>
        destruct (ask_text w t a) as [? | ?] eqn:?
    | context [match ask_count w ?t ?a with _ => _ end] =>
        destruct (ask_count w t a) as [? | ?] eqn:?
    | context [match ask_str w ?t ?a with _ => _ end] =>
        destruct (ask_str w t a) as [? | ?] eqn:?
    end).

(** ** Navigation fails at the address or not at all *)

(** X6 (navigate_to_matter_transactions, lines 193-224).  When nobody
    interrupts, the navigation raises only if the browser cannot be sent
    to the transactions page, and then nothing else is tried; once the
    address is reached the function completes, whether or not the page
    settles or shows any content. *)
Theorem navigation_fails_only_at_the_address :
  forall (w : World) (matter account : string) (s s' : state)
         (c : completion unit unit) (evs : list event),
    uninterrupted w ->
    navigate_to_matter_transactions w matter account s = (c, s', evs) ->
    let url := transactions_url matter account in
    (c = Normal tt /\ In (Ev (Goto url None) Done) evs)
    \/ (exists e r,
          c = Raise e /\ is_Exception e = true /\ r <> Done
          /\ evs = [Out "Navigating to matter transactions...";
                    Out ("   Matter ID: " +++ matter);
                    Out ("   Account ID: " +++ account);
                    Out ("Navigating to: " +++ url);
                    Ev (Goto url None) r]).
Proof.
  intros w matter account s s' c evs Hun H url.
  unfold navigate_to_matter_transactions in H. fold url in H. expose H.
  answers w Hun H;
    inversion H; subst;
    first [ left; split; [reflexivity | cbn; tauto]
          | right; eexists; eexists;
            split; [reflexivity |];
            split; [reflexivity |];
            split; [| reflexivity]; discriminate ].
Qed.

Lemma navigation_fails_only_at_the_address_witness :
  let ran :=
    navigate_to_matter_transactions (R := unit) Scenario.bare "m-1" account_id
      Scenario.ready in
  (fst (fst ran) = Normal tt
   /\ In (Ev (Goto (transactions_url "m-1" account_id) None) Done) (snd ran))
  \/ (exists e r,
        fst (fst ran) = Raise e /\ is_Exception e = true /\ r <> Done
        /\ snd ran
           = [Out "Navigating to matter transactions...";
              Out ("   Matter ID: " +++ "m-1");
              Out ("   Account ID: " +++ account_id);
              Out ("Navigating to: " +++ transactions_url "m-1" account_id);
              Ev (Goto (transactions_url "m-1" account_id) None) r]).
Proof.
  intros ran.
  apply (navigation_fails_only_at_the_address Scenario.bare "m-1" account_id
           Scenario.ready (snd (fst ran))).
  - intros t. reflexivity.
  - apply triple_eta.
Defined.

(** ** The two-factor block of the login *)

Section Shows.

Variable Q : event -> Prop.
Variable T : option exn -> list event -> Prop.

Hypothesis T_quiet : forall x evs, Forall Q evs -> T x evs.
Hypothesis T_prefix : forall x e1 e2, Forall Q e1 -> T x e2 -> T x (e1 ++ e2).

Lemma shows_before {R A : Type} (m : M R A) :
  fits (fun _ => True) Q m -> shows T m.
Proof. intros Hm s c s' evs H. apply T_quiet. exact (proj1 (Hm _ _ _ _ H)). Qed.

Lemma shows_bind_yields {R A B : Type} (P : A -> Prop) (m : M R A) (k : A -> M R B) :
  fits (fun _ => True) Q m -> yields P m -> (forall a, P a -> shows T (k a)) ->
  shows T (bind m k).
Proof.
  intros Hm Hy Hk s c s' evs H.
  apply bind_inv in H. destruct H as (c1 & s1 & e1 & E1 & H).
  destruct (Hm _ _ _ _ E1) as [F1 _].
  destruct c1 as [a | r | e | |];
    try (destruct H as (-> & -> & ->); apply T_quiet; exact F1).
  destruct H as (e2 & E2 & ->).
  apply T_prefix; [exact F1 |].
  exact (Hk a (Hy _ _ _ _ E1 a eq_refl) _ _ _ _ E2).
Qed.

Lemma shows_bind_l {R A B : Type} (m : M R A) (k : A -> M R B) :
  fits (fun _ => True) Q m -> (forall a, shows T (k a)) -> shows T (bind m k).
Proof.
  intros Hm Hk. apply (shows_bind_yields (fun _ => True) m k Hm).
  - intros s c s' evs _ a _. exact I.
  - intros a _. exact (Hk a).
Qed.

End Shows.

(** The statements of [login] from the first call to the click on the
    login control, each of them quiet; [tail] is for what follows. *)
Ltac login_spine Hq Hp quiet tail :=
  apply (shows_bind_l _ _ Hq Hp); [quiet | intros _];
  apply (shows_bind_l _ _ Hq Hp); [quiet | intros _];
  apply (shows_bind_yields _ _ Hq Hp (fun v => v = Some (First (Css sel_email))));
    [quiet | apply email_input_yields | intros ? ->];
  apply (shows_bind_l _ _ Hq Hp); [quiet | intros _];
  apply (shows_bind_l _ _ Hq Hp); [quiet | intros _];
  apply (shows_bind_yields _ _ Hq Hp (fun v => v = First (Css sel_password)));
    [quiet | apply password_input_yields | intros ? ->];
  apply (shows_bind_l _ _ Hq Hp); [quiet | intros _];
  apply (shows_bind_l _ _ Hq Hp); [quiet | intros _];
  apply (shows_bind_l _ _ Hq Hp); [quiet | intros _];
  apply (shows_bind_l _ _ Hq Hp); [quiet | intros _];
  tail.

Ltac fragments :=
  first [ apply fits_take_screenshot | apply fits_generate_totp_code ].

(** The same fragments for a [P] that tells the printed lines apart. *)
Section Lines.

Variable w : World.
Variable P : event -> Prop.

Let anyE : exn -> Prop := fun _ => True.

Hypothesis P_screenshot : forall path r, P (Ev (Screenshot path) r).
Hypothesis P_saved : forall path, P (Out ("Screenshot saved: " +++ path)).
Hypothesis P_failed : forall msg, P (Out ("Failed to take screenshot: " +++ msg)).
Hypothesis P_generated : forall code, P (Out ("Generated 2FA code: " +++ code)).

Lemma fits_take_screenshot_lines {R : Type} (name : string) :
  fits anyE P (take_screenshot (R := R) w name).
Proof.
  unfold take_screenshot. apply fits_call, fits_try_except.
  - apply (fits_reading anyE P
             (fun s0 =>
                page_do w
                  (Screenshot
                     ("screenshots/receipt-" +++ name +++ "-"
                      +++ strftime w (clock s0) +++ ".png")) ;;
                print ("Screenshot saved: " +++ "screenshots/receipt-" +++ name +++ "-"
                       +++ strftime w (clock s0) +++ ".png") ;;
                return_ (Some ("screenshots/receipt-" +++ name +++ "-"
                               +++ strftime w (clock s0) +++ ".png")))).
    intros s0. fits_go fail; auto; intros; exact I.
  - intros e _ _. fits_go fail; auto.
Qed.

Lemma fits_generate_totp_code_lines {R : Type} (self : automation) :
  fits anyE P (generate_totp_code (R := R) w self).
Proof.
  unfold generate_totp_code. apply fits_call.
  destruct (negb (truthy (two_factor_secret (creds self))) || negb (pyotp_installed w)).
  - apply fits_raise. exact I.
  - apply fits_bind.
    + apply (fits_reading anyE P
               (fun s0 =>
                  lift (Pyotp.now (str_option (two_factor_secret (creds self)))
                                  (wall_clock w (clock s0))))).
      intros s0. apply fits_lift. intros e He. exact I.
    + intros code. fits_go fail; auto.
Qed.

End Lines.

Ltac fragment_lines :=
  first [ apply fits_take_screenshot_lines | apply fits_generate_totp_code_lines ].

(** Two events differ by their constructors. *)
Ltac differ :=
  cbv beta; intros;
  match goal with
  | |- _ <> _ => let E := fresh "E" in intros E; discriminate E
  end.

Lemma address_quiet (x : option exn) (evs : list event) :
  Forall before_address evs -> address_decides x evs.
Proof.
  intros F url Hin. rewrite Forall_forall in F.
  destruct (F _ Hin) as [_ Hu]. exfalso. exact (Hu _ eq_refl).
Qed.

Lemma address_prefix (x : option exn) (e1 e2 : list event) :
  Forall before_address e1 -> address_decides x e2 -> address_decides x (e1 ++ e2).
Proof.
  intros F H url Hin. rewrite existsb_app.
  rewrite (existsb_none second_factor_step e1).
  2: { eapply Forall_impl; [| exact F]. intros e He. exact (proj1 He). }
  apply in_app_or in Hin. destruct Hin as [Hin | Hin]; [| exact (H url Hin)].
  rewrite Forall_forall in F. destruct (F _ Hin) as [_ Hu].
  exfalso. exact (Hu _ eq_refl).
Qed.

Lemma address_suffix (x y : option exn) (e1 e2 : list event) :
  address_decides x e1 -> Forall before_address e2 -> address_decides y (e1 ++ e2).
Proof.
  intros H F url Hin. rewrite existsb_app.
  rewrite (existsb_none second_factor_step e2).
  2: { eapply Forall_impl; [| exact F]. intros e He. exact (proj1 He). }
  rewrite orb_false_r.
  apply in_app_or in Hin. destruct Hin as [Hin | Hin]; [exact (H url Hin) |].
  rewrite Forall_forall in F. destruct (F _ Hin) as [_ Hu].
  exfalso. exact (Hu _ eq_refl).
Qed.

Lemma wrapped_quiet (x : option exn) (evs : list event) :
  Forall (fun e => e <> two_factor_required) evs -> second_factor_wrapped x evs.
Proof.
  intros F Hin. rewrite Forall_forall in F. exfalso. exact (F _ Hin eq_refl).
Qed.

Lemma wrapped_prefix (x : option exn) (e1 e2 : list event) :
  Forall (fun e => e <> two_factor_required) e1 ->
  second_factor_wrapped x e2 -> second_factor_wrapped x (e1 ++ e2).
Proof.
  intros F H Hin. apply H.
  apply in_app_or in Hin. destruct Hin as [Hin | Hin]; [| exact Hin].
  rewrite Forall_forall in F. exfalso. exact (F _ Hin eq_refl).
Qed.

Section SecondFactor.

Variable w : World.
Variable self : automation.

Ltac quiet_address :=
  fits_go fragment_lines;
  try (intros; exact I);
  try (intros; split; [reflexivity | differ]).

Ltac quiet_required :=
  fits_go fragment_lines; try (intros; exact I); try differ.

(** The block opens with its line. *)
Lemma login_two_factor_opens (s : state) :
  exists c s' rest,
    login_two_factor w self s = (c, s', two_factor_required :: rest).
Proof.
  unfold login_two_factor. unfold bind at 1, print at 1.
  match goal with
  | |- context [try_except ?b ?f ?h s] =>
      destruct (try_except b f h s) as [[c2 s2] e2]
  end.
  exists c2, s2, e2. reflexivity.
Qed.

(** The block does not read the address. *)
Lemma login_two_factor_keeps_address :
  fits (fun _ => True) (fun e => forall r, e <> Ev Url r) (login_two_factor w self).
Proof.
  fits_go fragments; try (intros; exact I); try differ.
Qed.

Lemma address_tail :
  shows address_decides
    (current_url <- page_str w Url ;;
     (if negb (contains "dashboard" current_url)
      then login_two_factor w self
      else ret tt) ;;
     print "Successfully logged in").
Proof.
  intros s c s' evs H url Hin.
  apply bind_inv in H. destruct H as (c1 & s1 & e1 & E1 & H).
  unfold page_str, on_page, perform in E1.
  destruct (page s).
  2: { inversion E1; subst. destruct H as (_ & _ & ->).
       destruct Hin as [E | []]. discriminate E. }
  destruct (interrupt w (clock s)).
  { inversion E1; subst. destruct H as (_ & _ & ->).
    destruct Hin as [E | []]. discriminate E. }
  destruct (ask_str w (clock s) Url) as [u | msg].
  2: { inversion E1; subst. destruct H as (_ & _ & ->).
       destruct Hin as [E | []]. discriminate E. }
  inversion E1; subst. destruct H as (e2 & H & ->).
  apply bind_inv in H. destruct H as (c2 & s2 & e3 & E2 & H).
  assert (Hno : forall r, ~ In (Ev Url r) e2).
  { intros r Hr.
    assert (F : Forall (fun e => forall r, e <> Ev Url r) e2).
    { destruct (contains "dashboard" u); cbn [negb] in E2.
      - destruct c2; [destruct H as (e4 & H & ->) | destruct H as (_ & _ & ->) ..];
          inversion E2; subst; try constructor.
        inversion H; subst. repeat constructor. intros r0 E. discriminate E.
      - pose proof (proj1 (login_two_factor_keeps_address _ _ _ _ E2)) as F3.
        destruct c2; [destruct H as (e4 & H & ->) | destruct H as (_ & _ & ->) ..];
          try exact F3.
        inversion H; subst. apply Forall_app. split; [exact F3 |].
        repeat constructor. intros r0 E. discriminate E. }
    rewrite Forall_forall in F. exact (F _ Hr r eq_refl). }
  destruct Hin as [E | Hin]; [| exfalso; exact (Hno _ Hin)].
  inversion E; subst url. cbn [app existsb second_factor_step orb].
  destruct (contains "dashboard" u) eqn:Ec; cbn [negb] in *.
  - inversion E2; subst. destruct H as (e4 & H & ->). inversion H; subst. reflexivity.
  - destruct (login_two_factor_opens (tick s)) as (c0 & s0 & rest & E0).
    rewrite E0 in E2. inversion E2; subst.
    destruct c2; [destruct H as (e4 & H & ->) | destruct H as (_ & _ & ->) ..];
      reflexivity.
Qed.

Lemma login_decides {R : Type} : shows address_decides (login (R := R) w self).
Proof.
  intros s c s' evs H.
  unfold login in H. apply call_inv in H. destruct H as (c0 & H & _).
  apply bind_inv in H. destruct H as (c1 & s1 & e1 & E1 & H).
  inversion E1; subst. destruct H as (e2 & H & ->).
  apply (address_prefix (raised c)); [repeat constructor; intros r E; discriminate E |].
  apply try_except_inv in H. destruct H as (c2 & s2 & e3 & E2 & H).
  assert (Hb : address_decides (raised c2) e3).
  { revert E2. generalize s1 c2 s2 e3.
    change (shows address_decides
              (page_do w (Goto "https://app.smokeball.com.au" (Some "networkidle")) ;;
               take_screenshot w "login-page" ;;
               email_input <-
                 try_except
                   (page_do w (WaitForSelector sel_email 10000) ;;
                    ret (Some (First (Css sel_email))))
                   any
                   (fun _ =>
                      page_do w (WaitForSelector "textbox" 10000) ;;
                      raise coroutine_not_subscriptable) ;;
               match email_input with
               | None => raise (Exception "Could not find email input field")
               | Some email_input =>
                   page_do w (Fill email_input (username (creds self))) ;;
                   sleep w 1000 ;;
                   password_input <-
                     try_except
                       (ret (First (Css sel_password)))
                       any
                       (fun _ => raise (TypeError "object of type 'coroutine' has no len()")) ;;
                   page_do w (Fill password_input (password (creds self))) ;;
                   sleep w 1000 ;;
                   try_except
                     (page_do w (Click (First (ByRole "button" "Log in" (Some false)))))
                     any
                     (fun _ => page_do w (Click (First (FilterText (Css "button") "log")))) ;;
                   sleep w 3000 ;;
                   current_url <- page_str w Url ;;
                   (if negb (contains "dashboard" current_url)
                    then login_two_factor w self
                    else ret tt) ;;
                   print "Successfully logged in"
               end)).
    login_spine address_quiet address_prefix quiet_address ltac:(exact address_tail). }
  destruct H as [(e & e4 & -> & _ & H & ->) | (_ & _ & -> & _)]; [| exact Hb].
  apply (address_suffix (Some e)); [exact Hb |].
  match type of H with
  | ?m _ = _ =>
      assert (Hh : fits (fun _ => True) before_address m) by quiet_address
  end.
  exact (proj1 (Hh _ _ _ _ H)).
Qed.

End SecondFactor.

(** X7 (login, lines 154-188).  The address read after the login click
    decides whether the two-factor block runs: a run of [login] that
    read the address contains steps of that block exactly when the
    address does not contain "dashboard". *)
Theorem address_decides_second_factor :
  forall (w : World) (self : automation) (s s' : state)
         (c : completion unit unit) (evs : list event) (url : string),
    login w self s = (c, s', evs) ->
    In (Ev Url (Str url)) evs ->
    existsb second_factor_step evs = negb (contains "dashboard" url).
Proof.
  intros w self s s' c evs url H Hin. exact (login_decides w self _ _ _ _ H url Hin).
Qed.

Lemma address_decides_second_factor_witness :
  existsb second_factor_step
    (snd (login (R := unit) Scenario.two_factor Scenario.tester Scenario.ready))
  = negb (contains "dashboard" "https://app.smokeball.com.au/#/login").
Proof.
  apply (address_decides_second_factor Scenario.two_factor Scenario.tester
           Scenario.ready
           (snd (fst (login (R := unit) Scenario.two_factor Scenario.tester
                        Scenario.ready)))
           (fst (fst (login (R := unit) Scenario.two_factor Scenario.tester
                        Scenario.ready)))).
  - apply triple_eta.
  - vm_compute. repeat (first [left; reflexivity | right]).
Defined.

(** ** How a failed login is reported *)

Lemma raised_some {R A : Type} (c : completion R A) (e : exn) :
  raised c = Some e -> c = Raise e.
Proof. destruct c; intros H; inversion H. reflexivity. Qed.

Section Wrapped.

Variable w : World.
Variable self : automation.

Hypothesis Hun : uninterrupted w.

Ltac escaping :=
  fits_go ltac:(first [ apply take_screenshot_escapes
                      | apply generate_totp_code_escapes ]);
  try assumption;
  try exact (interruption_is_ok w);
  try (intros; exact I);
  try (intros; left; reflexivity).

Ltac quiet_required :=
  fits_go fragment_lines; try (intros; exact I); try differ.

(** What is caught and raised again with a prefix. *)
Lemma reraised (name pre : string) (e0 : exn) (s : state)
  (c : completion unit unit) (s' : state) (evs : list event) :
  (take_screenshot w name ;; raise (Exception (pre +++ str_exn e0))) s = (c, s', evs) ->
  c = Raise (Exception (pre +++ str_exn e0))
  /\ Forall (fun e => e <> two_factor_required) evs.
Proof.
  intros H. split.
  - apply bind_inv in H. destruct H as (c1 & s1 & e1 & E1 & H).
    destruct (take_screenshot_calm w _ _ _ _ _ Hun E1) as (v & ->).
    destruct H as (e2 & H & _). inversion H. reflexivity.
  - match type of H with
    | ?m _ = _ =>
        assert (Hh : fits (fun _ => True) (fun e => e <> two_factor_required) m)
          by quiet_required
    end.
    exact (proj1 (Hh _ _ _ _ H)).
Qed.

Lemma login_two_factor_wrapped (s : state) (c : completion unit unit)
  (s' : state) (evs : list event) (e : exn) :
  login_two_factor w self s = (c, s', evs) -> c = Raise e ->
  exists msg, e = Exception ("2FA failed: " +++ msg).
Proof.
  intros H ->. unfold login_two_factor in H.
  apply bind_inv in H. destruct H as (c1 & s1 & e1 & E1 & H).
  inversion E1; subst. destruct H as (e2 & H & _).
  apply try_except_inv in H. destruct H as (c2 & s2 & e3 & E2 & H).
  destruct H as [(e0 & e4 & -> & _ & H & _) | (<- & _ & _ & Hc)].
  - destruct (reraised _ _ _ _ _ _ _ H) as [E _]. inversion E; subst.
    eexists. reflexivity.
  - exfalso.
    match type of E2 with
    | ?m _ = _ =>
        assert (Hm : fits (exn_ok w) (fun _ => True) m) by escaping
    end.
    pose proof (proj2 (Hm _ _ _ _ E2)) as Hok. cbn in Hok.
    pose proof (exn_ok_uninterrupted w e Hun Hok) as He.
    rewrite (Hc e eq_refl) in He. discriminate He.
Qed.

Lemma wrapped_tail :
  shows second_factor_wrapped
    (current_url <- page_str w Url ;;
     (if negb (contains "dashboard" current_url)
      then login_two_factor w self
      else ret tt) ;;
     print "Successfully logged in").
Proof.
  intros s c s' evs H Hin e Hx. apply raised_some in Hx. subst c.
  apply bind_inv in H. destruct H as (c1 & s1 & e1 & E1 & H).
  assert (F1 : Forall (fun e => e <> two_factor_required) e1).
  { assert (Hm : fits (fun _ => True) (fun e => e <> two_factor_required)
                   (page_str (R := unit) w Url)) by quiet_required.
    exact (proj1 (Hm _ _ _ _ E1)). }
  destruct c1 as [u | r | e1' | |];
    try (destruct H as (_ & _ & ->); rewrite Forall_forall in F1;
         exfalso; exact (F1 _ Hin eq_refl)).
  destruct H as (e2 & H & _).
  apply bind_inv in H. destruct H as (c2 & s2 & e3 & E2 & H).
  destruct c2 as [[] | r | e2' | |];
    try (destruct H as (H & _); discriminate H).
  - destruct H as (e4 & H & _). inversion H.
  - destruct H as (H & _). inversion H; subst e2'.
    destruct (negb (contains "dashboard" u)).
    + exact (login_two_factor_wrapped _ _ _ _ _ E2 eq_refl).
    + inversion E2.
Qed.

Lemma login_wrapped {R : Type} (s : state) (c : completion R unit) (s' : state)
  (evs : list event) :
  login w self s = (c, s', evs) ->
  c = Normal tt
  \/ exists msg,
       c = Raise (Exception ("Login failed: " +++ msg))
       /\ (In two_factor_required evs ->
           exists msg', msg = "2FA failed: " +++ msg').
Proof.
  intros H0. pose proof H0 as H.
  unfold login in H. apply call_inv in H. destruct H as (c0 & H & Ec).
  apply bind_inv in H. destruct H as (c1 & s1 & e1 & E1 & H).
  inversion E1; subst c1 s1 e1. destruct H as (e2 & H & ->).
  apply try_except_inv in H. destruct H as (c2 & s2 & e3 & E2 & H).
  destruct H as [(e & e4 & -> & _ & H & ->) | (-> & _ & _ & Hc)].
  - right. destruct (reraised _ _ _ _ _ _ _ H) as [-> F4].
    exists (str_exn e). split; [exact Ec |].
    intros Hin. cbn [app] in Hin. destruct Hin as [E | Hin]; [discriminate E |].
    apply in_app_or in Hin. destruct Hin as [Hin | Hin].
    2: { rewrite Forall_forall in F4. exfalso. exact (F4 _ Hin eq_refl). }
    assert (Hb : second_factor_wrapped (raised (R := unit) (A := unit) (Raise e)) e3).
    { revert E2. generalize s (Raise (R := unit) (A := unit) e) s2 e3.
      change (shows second_factor_wrapped
                (page_do w (Goto "https://app.smokeball.com.au" (Some "networkidle")) ;;
                 take_screenshot w "login-page" ;;
                 email_input <-
                   try_except
                     (page_do w (WaitForSelector sel_email 10000) ;;
                      ret (Some (First (Css sel_email))))
                     any
                     (fun _ =>
                        page_do w (WaitForSelector "textbox" 10000) ;;
                        raise coroutine_not_subscriptable) ;;
                 match email_input with
                 | None => raise (Exception "Could not find email input field")
                 | Some email_input =>
                     page_do w (Fill email_input (username (creds self))) ;;
                     sleep w 1000 ;;
                     password_input <-
                       try_except
                         (ret (First (Css sel_password)))
                         any
                         (fun _ =>
                            raise (TypeError "object of type 'coroutine' has no len()")) ;;
                     page_do w (Fill password_input (password (creds self))) ;;
                     sleep w 1000 ;;
                     try_except
                       (page_do w (Click (First (ByRole "button" "Log in" (Some false)))))
                       any
                       (fun _ =>
                          page_do w (Click (First (FilterText (Css "button") "log")))) ;;
                     sleep w 3000 ;;
                     current_url <- page_str w Url ;;
                     (if negb (contains "dashboard" current_url)
                      then login_two_factor w self
                      else ret tt) ;;
                     print "Successfully logged in"
                 end)).
      login_spine wrapped_quiet wrapped_prefix quiet_required
        ltac:(exact wrapped_tail). }
    destruct (Hb Hin e eq_refl) as (msg' & ->). exists msg'. reflexivity.
  - destruct c2 as [[] | [] | e | |]; try (left; exact Ec).
    exfalso. subst c.
    pose proof (proj2 (login_escapes w self _ _ _ _ H0)) as Hok. cbn in Hok.
    pose proof (exn_ok_uninterrupted w e Hun Hok) as He.
    rewrite (Hc e eq_refl) in He. discriminate He.
Qed.

End Wrapped.

(** X8 (login, lines 107-191).  When nobody interrupts, [login] either
    completes or raises an [Exception] whose text starts with
    "Login failed: "; and once the two-factor block was entered, the
    text goes on with "2FA failed: ". *)
Theorem login_failure_names_its_stage :
  forall (w : World) (self : automation) (s s' : state)
         (c : completion unit unit) (evs : list event),
    uninterrupted w ->
    login w self s = (c, s', evs) ->
    c = Normal tt
    \/ exists msg,
         c = Raise (Exception ("Login failed: " +++ msg))
         /\ (In (Out "2FA required...") evs ->
             exists msg', msg = "2FA failed: " +++ msg').
Proof.
  intros w self s s' c evs Hun H. exact (login_wrapped w self Hun _ _ _ _ H).
Qed.

Lemma login_failure_names_its_stage_witness :
  fst (fst (login (R := unit) Scenario.happy Scenario.tester start)) = Normal tt
  \/ exists msg,
       fst (fst (login (R := unit) Scenario.happy Scenario.tester start))
       = Raise (Exception ("Login failed: " +++ msg))
       /\ (In (Out "2FA required...")
             (snd (login (R := unit) Scenario.happy Scenario.tester start)) ->
           exists msg', msg = "2FA failed: " +++ msg').
Proof.
  apply (login_failure_names_its_stage Scenario.happy Scenario.tester start
           (snd (fst (login (R := unit) Scenario.happy Scenario.tester start)))).
  - intros t. reflexivity.
  - apply triple_eta.
Defined.

(** ** The configured secret answers the second factor *)

Section Generator.

Variable w : World.
Variable self : automation.
Variable secret : string.

Hypothesis configured : two_factor_secret (creds self) = Some secret.
Hypothesis not_empty : secret <> "".
Hypothesis installed : pyotp_installed w = true.

Let P : event -> Prop := typed_code w secret.

Lemma generator_on :
  truthy (two_factor_secret (creds self)) && pyotp_installed w = true.
Proof.
  rewrite configured, installed. destruct secret; [contradiction | reflexivity].
Qed.

Lemma generate_totp_code_yields {R : Type} :
  yields (fun code => exists t, Pyotp.now secret (wall_clock w t) = Returns code)
    (generate_totp_code (R := R) w self).
Proof.
  intros s c s' evs H a ->. unfold generate_totp_code in H.
  pose proof generator_on as Hg. apply andb_prop in Hg. destruct Hg as [Ht Hi].
  rewrite Ht, Hi in H. cbn [negb orb] in H. rewrite configured in H. cbn [str_option] in H.
  unfold call, bind, lift, print, return_ in H.
  destruct (Pyotp.now secret (wall_clock w (clock s))) as [code | e] eqn:En;
    cbn in H; inversion H; subst.
  eexists. exact En.
Qed.

Ltac typed :=
  fits_go fragments;
  try (intros; exact I);
  try (intros; intros E; discriminate E).

Lemma login_two_factor_typed :
  fits (fun _ => True) P (login_two_factor w self).
Proof.
  unfold login_two_factor.
  apply fits_bind; [typed | intros _].
  apply fits_try_except; [| intros e _ _; typed].
  apply fits_bind; [typed | intros _].
  rewrite generator_on.
  apply fits_bind_yields
    with (Q := fun code => exists t, Pyotp.now secret (wall_clock w t) = Returns code);
    [typed | apply generate_totp_code_yields | intros code Hcode].
  typed. intros r _. exact Hcode.
Qed.

Lemma login_typed {R : Type} : fits (fun _ => True) P (login (R := R) w self).
Proof.
  unfold login. apply fits_call.
  apply fits_bind; [typed | intros _].
  apply fits_try_except; [| intros e _ _; typed].
  apply fits_bind; [typed | intros _].
  apply fits_bind; [typed | intros _].
  apply fits_bind_yields with (Q := fun v => v = Some (First (Css sel_email)));
    [typed | apply email_input_yields | intros email_input ->].
  apply fits_bind; [typed | intros _].
  apply fits_bind; [typed | intros _].
  apply fits_bind_yields with (Q := fun v => v = First (Css sel_password));
    [typed | apply password_input_yields | intros password_input ->].
  fits_go ltac:(first [ apply login_two_factor_typed | fragments ]);
    try (intros; exact I);
    try (intros; intros E; discriminate E).
Qed.

End Generator.

(** X9 (login and generate_totp_code, lines 58-66 and 157-186).  With a
    secret configured and pyotp installed, no run of [login] asks
    anybody for a code, and whatever it types into the two-factor field
    is a code that [pyotp] computed from the secret at some reading of
    the clock. *)
Theorem configured_secret_answers_the_second_factor :
  forall (w : World) (self : automation) (secret : string) (s s' : state)
         (c : completion unit unit) (evs : list event),
    two_factor_secret (creds self) = Some secret ->
    secret <> "" ->
    pyotp_installed w = true ->
    login w self s = (c, s', evs) ->
    (forall prompt r, ~ In (Ev (Input prompt) r) evs)
    /\ forall code r,
         In (Ev (Fill two_factor_input code) r) evs ->
         exists t, Pyotp.now secret (wall_clock w t) = Returns code.
Proof.
  intros w self secret s s' c evs Hs Hne Hi H.
  destruct (login_typed w self secret Hs Hne Hi _ _ _ _ H) as [F _].
  rewrite Forall_forall in F. split.
  - intros prompt r Hin. exact (F _ Hin).
  - intros code r Hin. exact (F _ Hin eq_refl).
Qed.

Lemma configured_secret_answers_the_second_factor_witness :
  let w := {| environ := environ Scenario.with_secret;
              pyotp_installed := true;
              wall_clock := fun _ => 59;
              strftime := strftime Scenario.happy;
              interrupt := interrupt Scenario.happy;
              do_ := do_ Scenario.happy;
              ask_bool := ask_bool Scenario.happy;
              ask_text := ask_text Scenario.happy;
              ask_count := ask_count Scenario.happy;
              ask_str := ask_str Scenario.two_factor |} in
  let evs := snd (login (R := unit) w Scenario.with_totp Scenario.ready) in
  (forall prompt r, ~ In (Ev (Input prompt) r) evs)
  /\ forall code r,
       In (Ev (Fill two_factor_input code) r) evs ->
       exists t, Pyotp.now Scenario.secret (wall_clock w t) = Returns code.
Proof.
  intros w evs.
  apply (configured_secret_answers_the_second_factor w Scenario.with_totp
           Scenario.secret Scenario.ready
           (snd (fst (login (R := unit) w Scenario.with_totp Scenario.ready)))
           (fst (fst (login (R := unit) w Scenario.with_totp Scenario.ready)))).
  - reflexivity.
  - discriminate.
  - reflexivity.
  - apply triple_eta.
Defined.

(** ** The e-mail field that has no fallback *)

Lemma email_quiet (x : option exn) (evs : list event) :
  Forall before_email evs -> email_field_needed x evs.
Proof.
  intros F (r & _ & Hin). rewrite Forall_forall in F.
  exfalso. exact (proj2 (F _ Hin) r eq_refl).
Qed.

Lemma email_prefix (x : option exn) (e1 e2 : list event) :
  Forall before_email e1 -> email_field_needed x e2 ->
  email_field_needed x (e1 ++ e2).
Proof.
  intros F H (r & Hr & Hin).
  assert (F1 : existsb is_fill e1 = false).
  { apply existsb_none. eapply Forall_impl; [| exact F]. intros e He. exact (proj1 He). }
  rewrite existsb_app, F1. cbn [orb]. apply H. exists r. split; [exact Hr |].
  apply in_app_or in Hin. destruct Hin as [Hin | Hin]; [| exact Hin].
  rewrite Forall_forall in F. exfalso. exact (proj2 (F _ Hin) r eq_refl).
Qed.

(** A screenshot and a raise: it raises. *)
Lemma handler_raises (w : World) (name : string) (e0 : exn) (s : state)
  (c : completion unit unit) (s' : state) (evs : list event) :
  (take_screenshot w name ;; raise e0) s = (c, s', evs) -> exists e, c = Raise e.
Proof.
  intros H. apply bind_inv in H. destruct H as (c1 & s1 & e1 & E1 & H).
  destruct (plain_call _ _ _ _ _ _ E1) as [(a & ->) | (e & ->)].
  - destruct H as (e2 & H & _). inversion H. eexists. reflexivity.
  - destruct H as (-> & _). eexists. reflexivity.
Qed.

Section Email.

Variable w : World.
Variable self : automation.

Ltac quiet_email :=
  fits_go fragments;
  try (intros; exact I);
  try (intros; split; [reflexivity | differ]).

Lemma email_wait_cases (s : state) (c : completion unit (option locator))
  (s' : state) (evs : list event) :
  (page_do w (WaitForSelector sel_email 10000) ;;
   ret (Some (First (Css sel_email)))) s = (c, s', evs) ->
  (c = Normal (Some (First (Css sel_email))) /\ evs = [email_awaited Done])
  \/ ((exists e, c = Raise e) /\ exists r, evs = [email_awaited r]).
Proof.
  unfold bind, page_do, on_page, perform, ret. intros H.
  destruct (page s); [| inversion H; subst; right; eauto].
  destruct (interrupt w (clock s)); [inversion H; subst; right; eauto |].
  destruct (do_ w (clock s) _) as [[] | m]; inversion H; subst; [left | right]; eauto.
Qed.

Lemma textbox_fallback_raises (s : state) (c : completion unit (option locator))
  (s' : state) (evs : list event) :
  (page_do w (WaitForSelector "textbox" 10000) ;;
   raise coroutine_not_subscriptable) s = (c, s', evs) ->
  (exists e, c = Raise e) /\ exists r, evs = [Ev (WaitForSelector "textbox" 10000) r].
Proof.
  unfold bind, page_do, on_page, perform, raise. intros H.
  destruct (page s); [| inversion H; subst; eauto].
  destruct (interrupt w (clock s)); [inversion H; subst; eauto |].
  destruct (do_ w (clock s) _) as [[] | m]; inversion H; subst; eauto.
Qed.

Lemma email_tail (K : option locator -> M unit unit) :
  (forall v, fits (fun _ => True) (fun e => forall r, e <> email_awaited r) (K v)) ->
  shows email_field_needed
    (email_input <-
       try_except
         (page_do w (WaitForSelector sel_email 10000) ;;
          ret (Some (First (Css sel_email))))
         any
         (fun _ =>
            page_do w (WaitForSelector "textbox" 10000) ;;
            raise coroutine_not_subscriptable) ;;
     K email_input).
Proof.
  intros HK s c s' evs H (r & Hr & Hin).
  apply bind_inv in H. destruct H as (c1 & s1 & e1 & E1 & H).
  apply try_except_inv in E1. destruct E1 as (cb & sb & eb & Eb & E1).
  destruct (email_wait_cases _ _ _ _ Eb) as [(-> & ->) | ((e & ->) & r1 & ->)].
  - destruct E1 as [(e & e2 & E & _) | (-> & _ & -> & _)]; [discriminate E |].
    destruct H as (e2 & H & ->). exfalso.
    destruct Hin as [E | Hin]; [inversion E; subst; exact (Hr eq_refl) |].
    pose proof (proj1 (HK _ _ _ _ _ H)) as F. rewrite Forall_forall in F.
    exact (F _ Hin r eq_refl).
  - destruct E1 as [(e0 & e2 & _ & _ & E & ->) | (_ & _ & _ & Hc)].
    2: { discriminate (Hc e eq_refl). }
    destruct (textbox_fallback_raises _ _ _ _ E) as [(e' & ->) (r2 & ->)].
    destruct H as (-> & _ & ->). split; [eexists; reflexivity | reflexivity].
Qed.

Lemma login_needs_email {R : Type} :
  shows email_field_needed (login (R := R) w self).
Proof.
  intros s c s' evs H.
  unfold login in H. apply call_inv in H. destruct H as (c0 & H & Ec).
  apply bind_inv in H. destruct H as (c1 & s1 & e1 & E1 & H).
  inversion E1; subst c1 s1 e1. destruct H as (e2 & H & ->).
  apply try_except_inv in H. destruct H as (c2 & s2 & e3 & E2 & H).
  assert (Hb : email_field_needed (raised c2) e3).
  { revert E2. generalize s c2 s2 e3.
    apply (shows_bind_l _ _ email_quiet email_prefix); [quiet_email | intros _].
    apply (shows_bind_l _ _ email_quiet email_prefix); [quiet_email | intros _].
    apply email_tail. intros [email_input |];
      fits_go fragments; try (intros; exact I); try differ. }
  intros (r & Hr & Hin). cbn [app] in Hin.
  destruct Hin as [E | Hin]; [discriminate E |].
  cbn [app existsb is_fill orb].
  destruct H as [(e & e4 & -> & _ & H & ->) | (-> & _ & -> & _)].
  - destruct (handler_raises _ _ _ _ _ _ _ H) as (e' & ->). subst c.
    split; [eexists; reflexivity |].
    match type of H with
    | ?m _ = _ =>
        assert (Hh : fits (fun _ => True) before_email m) by quiet_email
    end.
    pose proof (proj1 (Hh _ _ _ _ H)) as F4.
    rewrite existsb_app.
    rewrite (existsb_none is_fill e4).
    2: { eapply Forall_impl; [| exact F4]. intros x Hx. exact (proj1 Hx). }
    rewrite orb_false_r. apply Hb. exists r. split; [exact Hr |].
    apply in_app_or in Hin. destruct Hin as [Hin | Hin]; [exact Hin |].
    rewrite Forall_forall in F4. exfalso. exact (proj2 (F4 _ Hin) r eq_refl).
  - destruct (Hb (ex_intro _ r (conj Hr Hin))) as [(e & He) Hf].
    apply raised_some in He. subst c2 c. split; [eexists; reflexivity | exact Hf].
Qed.

End Email.

(** X10 (login, lines 115-129).  The wait for the e-mail field has no
    working fallback: the list of text boxes the handler asks for is
    never awaited, so using it raises.  Whenever that wait fails or is
    interrupted, [login] raises and has typed nothing. *)
Theorem login_needs_the_email_field :
  forall (w : World) (self : automation) (s s' : state)
         (c : completion unit unit) (evs : list event) (r : reply),
    login w self s = (c, s', evs) ->
    In (Ev (WaitForSelector sel_email 10000) r) evs ->
    r <> Done ->
    (exists e, c = Raise e) /\ existsb is_fill evs = false.
Proof.
  intros w self s s' c evs r H Hin Hr.
  destruct (login_needs_email w self _ _ _ _ H (ex_intro _ r (conj Hr Hin)))
    as [(e & He) Hf].
  apply raised_some in He. split; [eauto | exact Hf].
Qed.

Lemma login_needs_the_email_field_witness :
  let w := {| environ := environ Scenario.happy;
              pyotp_installed := true;
              wall_clock := wall_clock Scenario.happy;
              strftime := strftime Scenario.happy;
              interrupt := interrupt Scenario.happy;
              do_ := fun _ a =>
                       match a with
                       | WaitForSelector _ _ => Err "Timeout 10000ms exceeded."
                       | _ => Ans tt
                       end;
              ask_bool := ask_bool Scenario.happy;
              ask_text := ask_text Scenario.happy;
              ask_count := ask_count Scenario.happy;
              ask_str := ask_str Scenario.happy |} in
  (exists e, fst (fst (login (R := unit) w Scenario.tester Scenario.ready)) = Raise e)
  /\ existsb is_fill (snd (login (R := unit) w Scenario.tester Scenario.ready)) = false.
Proof.
  intros w.
  apply (login_needs_the_email_field w Scenario.tester Scenario.ready
           (snd (fst (login (R := unit) w Scenario.tester Scenario.ready)))
           (fst (fst (login (R := unit) w Scenario.tester Scenario.ready)))
           (snd (login (R := unit) w Scenario.tester Scenario.ready))
           (Failed "Timeout 10000ms exceeded.")).
  - apply triple_eta.
  - vm_compute. repeat (first [left; reflexivity | right]).
  - discriminate.
Defined.

(** ** The filter of the fifth strategy *)

(** Split the run [H] of a fragment on every answer the world [w] can
    give and on every moment the user can choose. *)
Ltac answers_all w H :=
  repeat (cbn in H;
    match type of H with
    | context [page ?s] =>
        match goal with E : page s = _ |- _ => rewrite E in H end
    | context [if page ?s then _ else _] => destruct (page s) eqn:?
    | context [if interrupt w ?t then _ else _] => destruct (interrupt w t) eqn:?
    | context [match do_ w ?t ?a with _ => _ end] =>
        destruct (do_ w t a) as [[] | ?] eqn:?
    | context [match ask_bool w ?t ?a with _ => _ end] =>
        destruct (ask_bool w t a) as [[] | ?] eqn:?
    | context [match ask_text w ?t ?a with _ => _ end] =>
        destruct (ask_text w t a) as [? | ?] eqn:?
    | context [match ask_count w ?t ?a with _ => _ end] =>
        destruct (ask_count w t a) as [? | ?] eqn:?
    | context [match ask_str w ?t ?a with _ => _ end] =>
        destruct (ask_str w t a) as [? | ?] eqn:?
    | context [if ?b then _ else _] => destruct b eqn:?
    end).

Lemma clicks_deposit_nil : clicks_deposit_buttons [].
Proof. intros l r []. Qed.

Lemma clicks_deposit_app (a b : list event) :
  clicks_deposit_buttons a -> clicks_deposit_buttons b ->
  clicks_deposit_buttons (a ++ b).
Proof.
  intros Ha Hb l r Hin. apply in_app_or in Hin.
  destruct Hin as [Hin | Hin];
    [destruct (Ha l r Hin) as (i & text & E & Ht & Hc)
    | destruct (Hb l r Hin) as (i & text & E & Ht & Hc)];
    exists i, text; repeat split; auto; apply in_or_app; auto.
Qed.

Lemma clicks_deposit_none (evs : list event) :
  Forall (fun e => forall l r, e <> Ev (Click l) r) evs -> clicks_deposit_buttons evs.
Proof.
  intros F l r Hin. rewrite Forall_forall in F. exfalso. exact (F _ Hin l r eq_refl).
Qed.

Lemma for_each_all {R X : Type} (T : list event -> Prop) (xs : list X)
  (body : X -> M R unit) :
  T [] -> (forall a b, T a -> T b -> T (a ++ b)) ->
  (forall x s c s' evs, body x s = (c, s', evs) -> T evs) ->
  forall s c s' evs, for_each xs body s = (c, s', evs) -> T evs.
Proof.
  intros Hnil Happ Hb. induction xs as [| x xs IH]; intros s c s' evs H.
  - inversion H. exact Hnil.
  - cbn [for_each] in H.
    destruct (body x s) as [[c1 s1] e1] eqn:E1.
    pose proof (Hb _ _ _ _ _ E1) as T1.
    destruct c1 as [a | r | e | |]; try (inversion H; subst; exact T1);
      destruct (for_each xs body s1) as [[c2 s2] e2] eqn:E2;
      inversion H; subst; (apply Happ; [exact T1 | exact (IH _ _ _ _ E2)]).
Qed.

Section Filter.

Variable w : World.

Lemma try_item_filters (i : nat) (s : state) (c : completion unit unit)
  (s' : state) (evs : list event) :
  try_item w true i (Nth (Css sel_buttons) i) s = (c, s', evs) ->
  clicks_deposit_buttons evs.
Proof.
  intros H. unfold try_item, dialog_opened in H. expose H.
  answers_all w H; inversion H; subst; clear H;
    intros l r Hin; cbn in Hin;
    repeat (destruct Hin as [E | Hin]; [try discriminate E |]);
    try contradiction;
    inversion E; subst;
    match goal with
    | Hc : truthy ?t && contains _ _ = true |- _ =>
        apply andb_prop in Hc; destruct Hc as [Ht Hc];
        destruct t as [text |]; [| discriminate Ht];
        exists i, text; split; [reflexivity |];
        split; [cbn; auto | exact Hc]
    end.
Qed.

Lemma strategy5_filters (s : state) (c : completion unit unit) (s' : state)
  (evs : list event) :
  strategy5 w s = (c, s', evs) -> clicks_deposit_buttons evs.
Proof.
  intros H. unfold strategy5 in H.
  apply try_except_inv in H. destruct H as (c1 & s1 & e1 & E1 & H).
  assert (T1 : clicks_deposit_buttons e1).
  { apply bind_inv in E1. destruct E1 as (c2 & s2 & e2 & E2 & E1).
    assert (F2 : clicks_deposit_buttons e2).
    { apply clicks_deposit_none.
      assert (Hm : fits (fun _ => True) (fun e => forall l r, e <> Ev (Click l) r)
                     (page_count (R := unit) w (All (Css sel_buttons))))
        by (fits_go fail; try (intros; exact I); try differ).
      exact (proj1 (Hm _ _ _ _ E2)). }
    destruct c2 as [n | r | e | |]; try (destruct E1 as (_ & _ & ->); exact F2).
    destruct E1 as (e3 & E1 & ->). apply clicks_deposit_app; [exact F2 |].
    apply bind_inv in E1. destruct E1 as (c3 & s3 & e4 & E3 & E1).
    inversion E3; subst.
    destruct E1 as (e5 & E1 & ->). apply clicks_deposit_app.
    - apply clicks_deposit_none. repeat constructor. differ.
    - revert E1. apply for_each_all.
      + exact clicks_deposit_nil.
      + exact clicks_deposit_app.
      + intros x s0 c0 s0' evs0. apply try_item_filters. }
  destruct H as [(e & e2 & _ & _ & H & ->) | (_ & _ & -> & _)]; [| exact T1].
  apply clicks_deposit_app; [exact T1 |].
  inversion H; subst. apply clicks_deposit_none. repeat constructor. differ.
Qed.

End Filter.

(** X11 (fill_receipt_form, strategy 5, lines 308-325).  Whatever the
    page answers, the fifth strategy clicks nothing but a button of its
    list whose text it has read and found to contain "deposit", in
    any letter case. *)
Theorem strategy5_clicks_only_deposit_buttons :
  forall (w : World) (s s' : state) (c : completion unit unit) (evs : list event)
         (l : locator) (r : reply),
    strategy5 w s = (c, s', evs) ->
    In (Ev (Click l) r) evs ->
    exists i text,
      l = Nth (Css sel_buttons) i
      /\ In (Ev (TextContent l) (Text (Some text))) evs
      /\ contains "deposit" (lower text) = true.
Proof.
  intros w s s' c evs l r H Hin. exact (strategy5_filters w _ _ _ _ H l r Hin).
Qed.

Lemma strategy5_clicks_only_deposit_buttons_witness :
  exists i text,
    Nth (Css sel_buttons) 0 = Nth (Css sel_buttons) i
    /\ In (Ev (TextContent (Nth (Css sel_buttons) 0)) (Text (Some text)))
          (snd (strategy5 Scenario.happy Scenario.ready))
    /\ contains "deposit" (lower text) = true.
Proof.
  apply (strategy5_clicks_only_deposit_buttons Scenario.happy Scenario.ready
           (snd (fst (strategy5 Scenario.happy Scenario.ready)))
           (fst (fst (strategy5 Scenario.happy Scenario.ready)))
           (snd (strategy5 Scenario.happy Scenario.ready))
           (Nth (Css sel_buttons) 0) Done).
  - apply triple_eta.
  - vm_compute. repeat (first [left; reflexivity | right]).
Defined.

(** ** What a reported success means *)

Lemma try_finally_inv {R A : Type} (body : M R A) (final : M R unit) (s : state)
  (c : completion R A) (s' : state) (evs : list event) :
  try_finally body final s = (c, s', evs) ->
  exists cb s1 e1 cf e2,
    body s = (cb, s1, e1) /\ final s1 = (cf, s', e2) /\ evs = e1 ++ e2
    /\ c = match cf with
           | Normal _ => cb
           | _ => abrupt cf
           end.
Proof.
  unfold try_finally. intros H.
  destruct (body s) as [[cb s1] e1]. destruct (final s1) as [[cf s2] e2] eqn:Ef.
  exists cb, s1, e1, cf, e2.
  destruct cf; inversion H; subst; repeat split; auto.
Qed.

Lemma matches_none (evs : list event) :
  Forall (fun e => match_of e = None) evs -> matches evs = [].
Proof.
  intros F. induction F as [| e l He _ IH]; [reflexivity |].
  cbn [matches]. rewrite He, IH. reflexivity.
Qed.

Section Success.

Variable w : World.
Variable self : automation.

Hypothesis Hun : uninterrupted w.

Ltac unmatched :=
  fits_go ltac:(first [ apply fits_take_screenshot
                      | apply fits_generate_totp_code
                      | apply fits_cleanup ]);
  try (intros; exact I);
  try (intros; reflexivity);
  try (intros []; reflexivity).

(** A stage ahead of the form: it clicks no deposit control, and it
    completes or raises. *)
Lemma stage_ahead {B : Type} (m : M (option summary) unit)
  (k : unit -> M (option summary) B) (s : state) (c : completion (option summary) B)
  (s' : state) (evs : list event) :
  fits (fun _ => True) (fun e => match_of e = None) m -> plain m ->
  bind m k s = (c, s', evs) ->
  (exists e, c = Raise e /\ matches evs = [])
  \/ exists s1 e1 e2,
       k tt s1 = (c, s', e2) /\ evs = e1 ++ e2 /\ matches e1 = [].
Proof.
  intros Hm Hp H. apply bind_inv in H. destruct H as (c1 & s1 & e1 & E1 & H).
  pose proof (matches_none _ (proj1 (Hm _ _ _ _ E1))) as M1.
  destruct (Hp _ _ _ _ E1) as [([] & ->) | (e & ->)].
  - destruct H as (e2 & H & ->). right. exists s1, e1, e2. auto.
  - destruct H as (-> & _ & ->). left. exists e. auto.
Qed.

Lemma run_stages_outcome (matter : string) (data : receipt) (s : state)
  (c : completion (option summary) unit) (s' : state) (evs : list event) :
  run_stages w self matter data s = (c, s', evs) ->
  (exists e, c = Raise e /\ matches evs = [])
  \/ (c = Return (Some (success_summary self)) /\ exists k, matches evs = [k]).
Proof.
  intros H. unfold run_stages in H.
  apply stage_ahead in H; [| unmatched | apply plain_call].
  destruct H as [H | (s1 & e1 & e2 & H & -> & M1)]; [left; exact H |].
  rewrite matches_app, M1. cbn [app]. clear M1 e1.
  apply stage_ahead in H; [| unmatched | apply plain_call].
  destruct H as [H | (s2 & e1 & e3 & H & -> & M1)]; [left; exact H |].
  rewrite matches_app, M1. cbn [app]. clear M1 e1.
  apply stage_ahead in H; [| unmatched | apply plain_call].
  destruct H as [H | (s3 & e1 & e4 & H & -> & M1)]; [left; exact H |].
  rewrite matches_app, M1. cbn [app]. clear M1 e1.
  apply bind_inv in H. destruct H as (c1 & s4 & e1 & E1 & H).
  rewrite fill_receipt_form_is_its_chain in E1.
  apply call_inv in E1. destruct E1 as (c0 & E0 & ->).
  destruct (open_deposit_form_spec w Hun _ _ _ _ _ E0) as (_ & k & _ & _ & Hc).
  destruct Hc as [(-> & _ & Mk & _) | (-> & _ & Mk)].
  - destruct H as (e2 & H & ->). right. cbv in H. inversion H; subst.
    split; [reflexivity |]. exists k. rewrite matches_app, Mk. reflexivity.
  - destruct H as (-> & _ & ->). left. eexists. split; [reflexivity | exact Mk].
Qed.

Lemma run_success (matter : string) (data : receipt) (s s' : state) (r : summary)
  (evs : list event) :
  run (R := unit) w self matter data s = (Normal (Some r), s', evs) ->
  success r = is_some (first_match evs).
Proof.
  intros H. unfold run in H.
  apply call_inv in H. destruct H as (c0 & H & Ec).
  apply try_finally_inv in H.
  destruct H as (cb & s1 & e1 & cf & e2 & Eb & Ef & -> & ->).
  assert (M2 : matches e2 = []).
  { apply matches_none.
    assert (Hm : fits (fun _ => True) (fun e => match_of e = None) (run_finally w self))
      by unmatched.
    exact (proj1 (Hm _ _ _ _ Ef)). }
  destruct (run_finally_plain w self _ _ _ _ Ef) as [([] & ->) | (e & ->)];
    [| discriminate Ec].
  unfold first_match. rewrite matches_app, M2, app_nil_r.
  apply try_except_inv in Eb. destruct Eb as (c1 & s2 & e3 & E1 & Eb).
  destruct (run_stages_outcome _ _ _ _ _ _ E1) as [(e & -> & M1) | (-> & k & M1)].
  - destruct Eb as [(e0 & e4 & E & _ & Eh & ->) | (-> & _ & _ & _)];
      [| discriminate Ec].
    inversion E; subst e0.
    assert (M4 : matches e4 = []).
    { apply matches_none.
      assert (Hm : fits (fun _ => True) (fun e => match_of e = None) (run_failed w self e))
        by unmatched.
      exact (proj1 (Hm _ _ _ _ Eh)). }
    rewrite matches_app, M1, M4.
    destruct (run_failed_ends w self e _ _ _ _ Eh) as [-> | (e' & ->)];
      [| discriminate Ec].
    inversion Ec. reflexivity.
  - destruct Eb as [(e0 & e4 & E & _) | (-> & _ & -> & _)]; [discriminate E |].
    rewrite M1. inversion Ec. reflexivity.
Qed.

End Success.

(** X12 (run with fill_receipt_form, lines 226-353 and 537-564).  When
    nobody interrupts, the summary a run returns says success exactly
    when one of the seven strategies clicked a deposit control; what
    was to be typed into the form plays no part, in test mode or not. *)
Theorem run_reports_success_iff_deposit_clicked :
  forall (w : World) (self : automation) (matter : string) (data : receipt)
         (s s' : state) (r : summary) (evs : list event),
    uninterrupted w ->
    run (R := unit) w self matter data s = (Normal (Some r), s', evs) ->
    success r = is_some (first_match evs).
Proof.
  intros w self matter data s s' r evs Hun H.
  exact (run_success w self Hun _ _ _ _ _ _ H).
Qed.

Lemma run_reports_success_iff_deposit_clicked_witness :
  success (failure_summary Scenario.tester (Exception not_found_message))
  = is_some (first_match
               (snd (run (R := unit) Scenario.bare Scenario.tester
                       (arg_matter_id Scenario.default_args)
                       Scenario.receipt_data start))).
Proof.
  apply (run_reports_success_iff_deposit_clicked Scenario.bare Scenario.tester
           (arg_matter_id Scenario.default_args) Scenario.receipt_data start
           (snd (fst (run (R := unit) Scenario.bare Scenario.tester
                        (arg_matter_id Scenario.default_args)
                        Scenario.receipt_data start)))).
  - intros t. reflexivity.
  - vm_compute. reflexivity.
Defined.

(** ** The test of the second factor *)

Lemma digit_not_space (c : ascii) : is_digit c = true -> is_space c = false.
Proof.
  unfold is_digit, is_space. intros H.
  apply andb_prop in H. destruct H as [H1 H2].
  apply Nat.leb_le in H1. apply Nat.leb_le in H2.
  apply orb_false_intro; apply andb_false_intro2; apply Nat.leb_gt; lia.
Qed.

Lemma drop_space_digits (cs : list ascii) :
  forallb is_digit cs = true -> drop_space cs = cs.
Proof.
  destruct cs as [| c rest]; [reflexivity |]. cbn. intros H.
  apply andb_prop in H. rewrite (digit_not_space c (proj1 H)). reflexivity.
Qed.

Lemma forallb_rev {A : Type} (f : A -> bool) (l : list A) :
  forallb f l = true -> forallb f (rev l) = true.
Proof.
  rewrite !forallb_forall. intros H x Hx. apply H. apply in_rev. exact Hx.
Qed.

Lemma strip_digits (cs : list ascii) :
  forallb is_digit cs = true -> strip cs = cs.
Proof.
  intros H. unfold strip.
  rewrite (drop_space_digits cs H).
  rewrite (drop_space_digits (rev cs) (forallb_rev _ _ H)).
  apply rev_involutive.
Qed.

Lemma int_digits_digits (cs : list ascii) :
  forallb is_digit cs = true ->
  forall acc after_digit,
    cs <> [] \/ after_digit = true ->
    exists n, int_digits cs acc after_digit = Some n.
Proof.
  induction cs as [| c rest IH]; intros H acc b Hb.
  - destruct Hb as [Hb | ->]; [contradiction | cbn; eauto].
  - cbn in H. apply andb_prop in H. destruct H as [Hc Hr].
    cbn. rewrite Hc. apply IH; auto.
Qed.

Lemma sign_of_digit (c : ascii) (rest : list ascii) :
  is_digit c = true ->
  match c :: rest with
  | "-"%char :: r => (-1, r)
  | "+"%char :: r => (1, r)
  | _ => (1, c :: rest)
  end = (1, c :: rest).
Proof.
  intros H.
  destruct c as [[] [] [] [] [] [] [] []]; try reflexivity;
    vm_compute in H; discriminate H.
Qed.

(** [int] reads a text of digits. *)
Lemma int_str_digits (code : string) :
  forallb is_digit (list_ascii_of_string code) = true ->
  code <> "" ->
  exists n, int_str code = Returns n.
Proof.
  intros H Hne. unfold int_str. rewrite (strip_digits _ H).
  destruct (list_ascii_of_string code) as [| c rest] eqn:E.
  - destruct code; [contradiction | discriminate E].
  - cbn in H. pose proof (proj1 (andb_prop _ _ H)) as Hc.
    rewrite (sign_of_digit c rest Hc).
    destruct (int_digits_digits (c :: rest)) with (acc := 0) (after_digit := false)
      as (n & ->).
    + cbn. exact H.
    + left. discriminate.
    + eauto.
Qed.

Lemma now_returns (secret : string) (t : Z) :
  valid_base32 secret = true -> 0 <= t ->
  exists code,
    Pyotp.now secret t = Returns code
    /\ code <> ""
    /\ forallb is_digit (list_ascii_of_string code) = true.
Proof.
  intros Hv Ht.
  pose proof (valid_base32_nonempty secret Hv) as Hne.
  destruct (proj2 (byte_secret_returns_iff secret Hne) Hv) as (key & Hk).
  assert (Hq : 0 <= Pyotp.timecode t).
  { unfold Pyotp.timecode, Pyotp.interval. apply Z.quot_pos; lia. }
  destruct (generate_otp_returns secret key _ Hk Hq) as (code & Hc & Hl & Hd).
  exists code. split; [exact Hc |]. split; [| exact Hd].
  intros ->. discriminate Hl.
Qed.

Lemma now_raises (secret : string) (t : Z) :
  secret <> "" -> valid_base32 secret = false ->
  exists e, Pyotp.now secret t = Raises e /\ is_Exception e = true.
Proof.
  intros Hne Hv.
  destruct (generate_otp_raises secret (Pyotp.timecode t) Hne Hv) as (e & He & Hve).
  exists e. split; [exact He | exact (value_error_is_exception e Hve)].
Qed.

(** *** How a statement ends *)

Lemma always_print {R : Type} (line : string) :
  always completes (print (R := R) line).
Proof. intros s c s' evs H. inversion H. exists tt. reflexivity. Qed.

Lemma always_ret {R A : Type} (a : A) : always completes (ret (R := R) a).
Proof. intros s c s' evs H. inversion H. exists a. reflexivity. Qed.

Lemma always_return {R A : Type} (v : R) :
  always (fun c => c = Return v) (return_ (A := A) v).
Proof. intros s c s' evs H. inversion H. reflexivity. Qed.

Lemma always_raise {R A : Type} (e : exn) :
  always (fun c => c = Raise e) (raise (R := R) (A := A) e).
Proof. intros s c s' evs H. inversion H. reflexivity. Qed.

Lemma always_bind {R A B : Type} (Q : A -> Prop) (C : completion R B -> Prop)
  (m : M R A) (k : A -> M R B) :
  always completes m -> yields Q m -> (forall a, Q a -> always C (k a)) ->
  always C (bind m k).
Proof.
  intros Hm Hq Hk s c s' evs H.
  apply bind_inv in H. destruct H as (c1 & s1 & e1 & E1 & H).
  destruct (Hm _ _ _ _ E1) as (a & ->). destruct H as (e2 & H & _).
  exact (Hk a (Hq _ _ _ _ E1 a eq_refl) _ _ _ _ H).
Qed.

Lemma always_then {R A B : Type} (C : completion R B -> Prop)
  (m : M R A) (k : A -> M R B) :
  always completes m -> (forall a, always C (k a)) -> always C (bind m k).
Proof.
  intros Hm Hk. apply (always_bind (fun _ => True) C m k Hm).
  - intros s c s' evs _ a _. exact I.
  - intros a _. exact (Hk a).
Qed.

Lemma always_bind_fails {R A B : Type} (m : M R A) (k : A -> M R B) :
  always fails m -> always fails (bind m k).
Proof.
  intros Hm s c s' evs H.
  apply bind_inv in H. destruct H as (c1 & s1 & e1 & E1 & H).
  destruct (Hm _ _ _ _ E1) as (e & -> & He). destruct H as (-> & _).
  exists e. split; [reflexivity | exact He].
Qed.

Lemma always_try_through {R A : Type} (C : completion R A -> Prop)
  (body : M R A) (catches : exn -> bool) (handler : exn -> M R A) :
  always C body -> (forall e, ~ C (Raise e)) ->
  always C (try_except body catches handler).
Proof.
  intros Hb Hc s c s' evs H.
  apply try_except_inv in H. destruct H as (c1 & s1 & e1 & E1 & H).
  pose proof (Hb _ _ _ _ E1) as H1.
  destruct H as [(e & e2 & -> & _) | (-> & _)]; [| exact H1].
  exfalso. exact (Hc e H1).
Qed.

Lemma always_try_caught {R A : Type} (C : completion R A -> Prop)
  (body : M R A) (handler : exn -> M R A) :
  always fails body -> (forall e, always C (handler e)) ->
  always C (try_except body is_Exception handler).
Proof.
  intros Hb Hh s c s' evs H.
  apply try_except_inv in H. destruct H as (c1 & s1 & e1 & E1 & H).
  destruct (Hb _ _ _ _ E1) as (e & -> & He).
  destruct H as [(e0 & e2 & E & _ & H & _) | (_ & _ & _ & Hc)].
  - exact (Hh e0 _ _ _ _ H).
  - rewrite (Hc e eq_refl) in He. discriminate He.
Qed.

Lemma always_for_each {R X : Type} (xs : list X) (body : X -> M R unit) :
  (forall x, always completes (body x)) -> always completes (for_each xs body).
Proof.
  intros Hb. induction xs as [| x xs IH]; intros s c s' evs H.
  - inversion H. exists tt. reflexivity.
  - cbn [for_each] in H.
    destruct (body x s) as [[c1 s1] e1] eqn:E1.
    destruct (Hb x _ _ _ _ E1) as (a & ->).
    destruct (for_each xs body s1) as [[c2 s2] e2] eqn:E2.
    inversion H; subst. exact (IH _ _ _ _ E2).
Qed.

Lemma always_call {R R' : Type} (none v : R) (body : M R unit) :
  always (fun c => c = Return v) body ->
  always (fun c => c = Normal v) (call (R' := R') none body).
Proof.
  intros Hb s c s' evs H. apply call_inv in H. destruct H as (c1 & E1 & ->).
  rewrite (Hb _ _ _ _ E1). reflexivity.
Qed.

Lemma always_lift {R A : Type} (a : A) :
  always completes (lift (R := R) (Returns a)).
Proof. apply always_ret. Qed.

Section TestScript.

Variable w : World.

Hypothesis Hun : uninterrupted w.
Hypothesis Hclock : after_epoch w.

Lemma always_sleep {R : Type} (ms : Z) : always completes (sleep (R := R) w ms).
Proof.
  intros s c s' evs H. unfold sleep in H. rewrite Hun in H.
  inversion H. exists tt. reflexivity.
Qed.

Section Usable.

Variable secret : string.
Hypothesis Hvalid : valid_base32 secret = true.

Lemma totp_now_completes {R : Type} :
  always completes (totp_now (R := R) w secret).
Proof.
  intros s c s' evs H. unfold totp_now in H.
  destruct (now_returns secret _ Hvalid (Hclock (clock s))) as (code & E & _).
  rewrite E in H. inversion H. exists code. reflexivity.
Qed.

Lemma totp_now_yields {R : Type} :
  yields (fun code => code <> ""
                      /\ forallb is_digit (list_ascii_of_string code) = true)
    (totp_now (R := R) w secret).
Proof.
  intros s c s' evs H a ->. unfold totp_now in H.
  destruct (now_returns secret _ Hvalid (Hclock (clock s))) as (code & E & Hne & Hd).
  rewrite E in H. inversion H; subst. auto.
Qed.

Lemma show_code_completes (i : nat) : always completes (show_code w secret i).
Proof.
  unfold show_code.
  apply always_then; [apply totp_now_completes | intros code].
  apply (always_bind _ _ _ _ totp_now_completes totp_now_yields).
  intros again (Hne & Hd).
  destruct (int_str_digits again Hd Hne) as (n & ->).
  apply always_then; [apply always_lift | intros n0].
  apply always_then; [apply always_print | intros _].
  destruct (i <? 2)%nat; [apply always_sleep | apply always_ret].
Qed.

End Usable.

Lemma totp_now_fails {R : Type} (secret : string) :
  secret <> "" -> valid_base32 secret = false ->
  always fails (totp_now (R := R) w secret).
Proof.
  intros Hne Hv s c s' evs H. unfold totp_now in H.
  destruct (now_raises secret (wall_clock w (clock s)) Hne Hv) as (e & E & He).
  rewrite E in H. inversion H. exists e. auto.
Qed.

Ltac prints :=
  repeat (apply always_then; [apply always_print | intros _]).

Lemma test_2fa_generation_result {R : Type} :
  always (fun c => c = Normal (secret_usable w)) (test_2fa_generation (R := R) w).
Proof.
  unfold test_2fa_generation, secret_usable. apply always_call. prints.
  destruct (environ w "SMOKEBALL_2FA_SECRET") as [[| a r] |];
    cbn [truthy negb str_option].
  - prints. apply always_return.
  - set (secret := String a r).
    assert (Hne : secret <> "") by discriminate.
    prints. destruct (valid_base32 secret) eqn:Hv.
    + apply always_try_through; [| intros e E; discriminate E].
      prints.
      apply always_then; [apply (totp_now_completes secret Hv) | intros code].
      prints.
      apply always_then;
        [apply always_for_each; intros i; apply (show_code_completes secret Hv) |
         intros _].
      prints. apply always_return.
    + apply always_try_caught.
      * apply (always_then (R := bool)); [apply always_print | intros _].
        apply always_bind_fails. apply (totp_now_fails secret Hne Hv).
      * intros e. prints. apply always_return.
  - prints. apply always_return.
Qed.

End TestScript.

(** X13 (test_2fa_generation of test-2fa-automation.py, lines 27-81).
    When nobody interrupts and the clock reads a time after the epoch,
    the first test passes exactly when [SMOKEBALL_2FA_SECRET] is set
    and is valid base32; in every other case it returns [False], and
    it raises nothing. *)
Theorem test_2fa_generation_passes_iff_secret_usable :
  forall (w : World) (s s' : state) (c : completion unit bool) (evs : list event),
    uninterrupted w ->
    after_epoch w ->
    test_2fa_generation w s = (c, s', evs) ->
    c = Normal (secret_usable w).
Proof.
  intros w s s' c evs Hun Hclock H.
  exact (test_2fa_generation_result w Hun Hclock _ _ _ _ H).
Qed.

Lemma test_2fa_generation_passes_iff_secret_usable_witness :
  fst (fst (test_2fa_generation (R := unit) Scenario.with_secret start)) = Normal true.
Proof.
  apply (test_2fa_generation_passes_iff_secret_usable Scenario.with_secret start
           (snd (fst (test_2fa_generation (R := unit) Scenario.with_secret start)))
           (fst (fst (test_2fa_generation (R := unit) Scenario.with_secret start)))
           (snd (test_2fa_generation (R := unit) Scenario.with_secret start))).
  - intros t. reflexivity.
  - intros t. change (0 <= 30 + Z.of_nat t). lia.
  - apply triple_eta.
Defined.

Lemma always_normal_completes {R A : Type} (v : A) (m : M R A) :
  always (fun c => c = Normal v) m -> always completes m.
Proof. intros Hm s c s' evs H. exists v. exact (Hm _ _ _ _ H). Qed.

Lemma always_normal_yields {R A : Type} (v : A) (m : M R A) :
  always (fun c => c = Normal v) m -> yields (fun a => a = v) m.
Proof.
  intros Hm s c s' evs H a E. rewrite (Hm _ _ _ _ H) in E. inversion E. reflexivity.
Qed.

Lemma always_bind_raise {R A B : Type} (e : exn) (m : M R A) (k : A -> M R B) :
  always (fun c => c = Raise e) m -> always (fun c => c = Raise e) (bind m k).
Proof.
  intros Hm s c s' evs H.
  apply bind_inv in H. destruct H as (c1 & s1 & e1 & E1 & H).
  rewrite (Hm _ _ _ _ E1) in H. destruct H as (-> & _). reflexivity.
Qed.

Lemma always_try_passes {R A : Type} (e : exn) (body : M R A)
  (catches : exn -> bool) (handler : exn -> M R A) :
  always (fun c => c = Raise e) body -> catches e = false ->
  always (fun c => c = Raise e) (try_except body catches handler).
Proof.
  intros Hb Hc s c s' evs H.
  apply try_except_inv in H. destruct H as (c1 & s1 & e1 & E1 & H).
  pose proof (Hb _ _ _ _ E1) as ->.
  destruct H as [(e0 & e2 & E & Hcatch & _) | (-> & _)]; [| reflexivity].
  inversion E; subst e0. rewrite Hc in Hcatch. discriminate Hcatch.
Qed.

Lemma always_call_raise {R R' : Type} (none : R) (e : exn) (body : M R unit) :
  always (fun c => c = Raise e) body ->
  always (fun c => c = Raise e) (call (R' := R') none body).
Proof.
  intros Hb s c s' evs H. apply call_inv in H. destruct H as (c1 & E1 & ->).
  rewrite (Hb _ _ _ _ E1). reflexivity.
Qed.

Ltac prints :=
  repeat (apply always_then; [apply always_print | intros _]).

Lemma generate_fails {R : Type} (w : World) (self : automation) (secret : string) :
  two_factor_secret (creds self) = Some secret ->
  secret <> "" ->
  pyotp_installed w && valid_base32 secret = false ->
  always fails (generate_totp_code (R := R) w self).
Proof.
  intros Hs Hne Hb s c s' evs H.
  unfold generate_totp_code, call, bind, lift, print, return_, raise in H.
  rewrite Hs in H.
  destruct secret as [| a r]; [contradiction |]. cbn [truthy negb orb str_option] in H.
  destruct (pyotp_installed w); cbn [negb andb] in *.
  - destruct (now_raises (String a r) (wall_clock w (clock s)) Hne Hb) as (e & E & He).
    rewrite E in H. cbn in H. inversion H. exists e. auto.
  - inversion H. eexists. split; reflexivity.
Qed.

(** Without Playwright the import ends the process. *)
Lemma import_exits {R : Type} (w : World) :
  always (fun c => c = Raise (SystemExit 1)) (import_automation (R := R) w false).
Proof.
  unfold import_automation, module_head, import_playwright.
  apply always_bind_raise. prints. apply always_raise.
Qed.

Lemma integration_exits {R : Type} (w : World) :
  always (fun c => c = Raise (SystemExit 1))
    (test_automation_2fa_integration (R := R) w false).
Proof.
  unfold test_automation_2fa_integration. apply always_call_raise. prints.
  apply always_try_passes; [| reflexivity].
  apply always_bind_raise. apply import_exits.
Qed.

Section Integration.

Variable w : World.

Hypothesis Hcalm : calm w.
Hypothesis Hclock : after_epoch w.

Lemma import_completes {R : Type} :
  always completes (import_automation (R := R) w true).
Proof.
  unfold import_automation, module_head, import_playwright, import_pyotp.
  apply always_then; [apply always_ret | intros _].
  destruct (pyotp_installed w); [apply always_ret |].
  apply always_then; [apply always_print | intros _; apply always_print].
Qed.

Lemma init_completes {R : Type} (tm : bool) : always completes (init_ (R := R) w tm).
Proof. intros s c s' evs H. exact (init_calm w tm _ _ _ _ Hcalm H). Qed.

Lemma init_yields {R : Type} (tm : bool) :
  yields (fun self => two_factor_secret (creds self)
                      = environ w "SMOKEBALL_2FA_SECRET")
    (init_ (R := R) w tm).
Proof.
  intros s c s' evs H a ->.
  unfold init_, bind, set_browser, set_page, perform, ret in H. cbn in H.
  destruct (interrupt w (clock s)); [discriminate H |].
  destruct (do_ w (clock s) (Mkdir "screenshots")) as [[] | m]; inversion H.
  reflexivity.
Qed.

Lemma generate_completes {R : Type} (self : automation) (secret : string) :
  pyotp_installed w = true ->
  two_factor_secret (creds self) = Some secret ->
  valid_base32 secret = true ->
  always completes (generate_totp_code (R := R) w self).
Proof.
  intros Hi Hs Hv s c s' evs H.
  unfold generate_totp_code, call, bind, lift, print, return_ in H.
  rewrite Hs, Hi in H.
  destruct secret as [| a r]; [discriminate Hv |]. cbn [truthy negb orb str_option] in H.
  destruct (now_returns (String a r) _ Hv (Hclock (clock s))) as (code & E & _).
  rewrite E in H. cbn in H. inversion H. exists code. reflexivity.
Qed.

Lemma integration_result {R : Type} :
  always (fun c => c = Normal (pyotp_installed w && secret_usable w))
    (test_automation_2fa_integration (R := R) w true).
Proof.
  unfold test_automation_2fa_integration, secret_usable. apply always_call. prints.
  apply always_try_through; [| intros e E; discriminate E].
  apply always_then; [apply import_completes | intros _]. prints.
  apply (always_bind _ _ _ _ (init_completes true) (init_yields true)).
  intros automation Hs.
  destruct (environ w "SMOKEBALL_2FA_SECRET") as [[| a r] |];
    rewrite Hs; cbn [truthy].
  - rewrite andb_false_r. prints. apply always_return.
  - set (secret := String a r) in *.
    assert (Hne : secret <> "") by discriminate.
    prints.
    destruct (pyotp_installed w && valid_base32 secret) eqn:Hb.
    + apply andb_prop in Hb. destruct Hb as [Hi Hv].
      apply always_try_through; [| intros e E; discriminate E].
      apply always_then;
        [apply (generate_completes automation secret Hi Hs Hv) | intros code].
      prints. apply always_return.
    + apply always_try_caught.
      * apply always_bind_fails. apply (generate_fails w automation secret Hs Hne Hb).
      * intros e. prints. apply always_return.
  - rewrite andb_false_r. prints. apply always_return.
Qed.

Lemma test_script_result (playwright_installed : bool) :
  always (fun c => c = Raise (SystemExit
                                (if pyotp_installed w && playwright_installed
                                    && secret_usable w
                                 then 0 else 1)))
    (test_script w playwright_installed).
Proof.
  unfold test_script.
  pose proof (integration_result (R := unit)) as H2.
  destruct (pyotp_installed w); cbn [negb andb] in *.
  - prints.
    pose proof (test_2fa_generation_result w (proj1 Hcalm) Hclock (R := unit)) as H1.
    apply (always_bind _ _ _ _ (always_normal_completes _ _ H1)
             (always_normal_yields _ _ H1)).
    intros test1_result ->.
    destruct playwright_installed; cbn [andb].
    + apply (always_bind _ _ _ _ (always_normal_completes _ _ H2)
               (always_normal_yields _ _ H2)).
      intros test2_result ->. prints.
      destruct (secret_usable w); cbn [andb]; prints; apply always_raise.
    + apply always_bind_raise. apply integration_exits.
  - prints. apply always_raise.
Qed.

End Integration.

(** X14 (test_automation_2fa_integration of test-2fa-automation.py,
    lines 84-122, with the head of the module it imports, lines 28-40 of
    smokeball_receipt_automation.py).  When nobody interrupts, the
    screenshots directory can be made and the clock reads a time after
    the epoch: with Playwright installed the second test returns [True]
    exactly when pyotp is installed and the secret the automation object
    holds is set and valid base32, and [False] otherwise; without
    Playwright it returns nothing, the import ends the process through
    [sys.exit(1)]. *)
Theorem integration_test_passes_iff_generator_works :
  forall (w : World) (playwright_installed : bool) (s s' : state)
         (c : completion unit bool) (evs : list event),
    calm w ->
    after_epoch w ->
    test_automation_2fa_integration w playwright_installed s = (c, s', evs) ->
    c = (if playwright_installed
         then Normal (pyotp_installed w && secret_usable w)
         else Raise (SystemExit 1)).
Proof.
  intros w [|] s s' c evs Hcalm Hclock H.
  - exact (integration_result w Hcalm Hclock _ _ _ _ H).
  - exact (integration_exits w _ _ _ _ H).
Qed.

Lemma integration_test_passes_iff_generator_works_witness :
  fst (fst (test_automation_2fa_integration (R := unit) Scenario.with_secret true
              start))
  = Normal true
  /\ fst (fst (test_automation_2fa_integration (R := unit) Scenario.with_secret false
                 start))
     = Raise (SystemExit 1).
Proof.
  split.
  - apply (integration_test_passes_iff_generator_works Scenario.with_secret true start
             (snd (fst (test_automation_2fa_integration (R := unit)
                          Scenario.with_secret true start)))
             (fst (fst (test_automation_2fa_integration (R := unit)
                          Scenario.with_secret true start)))
             (snd (test_automation_2fa_integration (R := unit)
                     Scenario.with_secret true start))).
    + split; [| split]; intros t; reflexivity.
    + intros t. change (0 <= 30 + Z.of_nat t). lia.
    + apply triple_eta.
  - apply (integration_test_passes_iff_generator_works Scenario.with_secret false start
             (snd (fst (test_automation_2fa_integration (R := unit)
                          Scenario.with_secret false start)))
             (fst (fst (test_automation_2fa_integration (R := unit)
                          Scenario.with_secret false start)))
             (snd (test_automation_2fa_integration (R := unit)
                     Scenario.with_secret false start))).
    + split; [| split]; intros t; reflexivity.
    + intros t. change (0 <= 30 + Z.of_nat t). lia.
    + apply triple_eta.
Defined.

(** X15 (the main block of test-2fa-automation.py, lines 19-23 and
    125-148).  Under the same conditions the test script ends with exit
    status 0 exactly when pyotp and Playwright are installed and
    [SMOKEBALL_2FA_SECRET] is set and valid base32, and with exit status
    1 otherwise. *)
Theorem test_script_exit_status :
  forall (w : World) (playwright_installed : bool) (s s' : state)
         (c : completion unit unit) (evs : list event),
    calm w ->
    after_epoch w ->
    test_script w playwright_installed s = (c, s', evs) ->
    c = Raise (SystemExit (if pyotp_installed w && playwright_installed
                              && secret_usable w
                           then 0 else 1))
    /\ exit_status c = (if pyotp_installed w && playwright_installed
                           && secret_usable w
                        then 0 else 1).
Proof.
  intros w pw s s' c evs Hcalm Hclock H.
  rewrite (test_script_result w Hcalm Hclock pw _ _ _ _ H).
  split; reflexivity.
Qed.

Lemma test_script_exit_status_witness :
  (fst (fst (test_script Scenario.with_secret true start)) = Raise (SystemExit 0)
   /\ exit_status (fst (fst (test_script Scenario.with_secret true start))) = 0)
  /\ (fst (fst (test_script Scenario.with_secret false start)) = Raise (SystemExit 1)
      /\ exit_status (fst (fst (test_script Scenario.with_secret false start))) = 1).
Proof.
  split.
  - apply (test_script_exit_status Scenario.with_secret true start
             (snd (fst (test_script Scenario.with_secret true start)))
             (fst (fst (test_script Scenario.with_secret true start)))
             (snd (test_script Scenario.with_secret true start))).
    + split; [| split]; intros t; reflexivity.
    + intros t. change (0 <= 30 + Z.of_nat t). lia.
    + apply triple_eta.
  - apply (test_script_exit_status Scenario.with_secret false start
             (snd (fst (test_script Scenario.with_secret false start)))
             (fst (fst (test_script Scenario.with_secret false start)))
             (snd (test_script Scenario.with_secret false start))).
    + split; [| split]; intros t; reflexivity.
    + intros t. change (0 <= 30 + Z.of_nat t). lia.
    + apply triple_eta.
Defined.
(** ** The text of a value *)

(** [repr] of a text picks its quotes and escapes as the interpreter
    does. *)
Lemma repr_str_examples :
  repr_str "abc" = "'abc'"
  /\ repr_str "it's" = String double_quote ("it's" +++ String double_quote "")
  /\ repr_str ("say " +++ String double_quote "x")
     = "'say " +++ String double_quote "x'"
  /\ repr_str ("it's " +++ String double_quote "x")
     = "'it\'s " +++ String double_quote "x'"
  /\ repr_str ("a" +++ String "010" (String "009" "b\c")) = "'a\n\tb\\c'"
  /\ repr_str (String "001" (String "127" "")) = "'\x01\x7f'".
Proof. vm_compute. repeat split. Qed.

(** ** The process from its first line *)







(** ** A secret that is no base32 *)

Lemma page_do_done {R : Type} (w : World) (a : action) (s : state)
  (c : completion R unit) (s' : state) (evs : list event) :
  page_do w a s = (c, s', evs) -> In (Ev a Done) evs -> c = Normal tt.
Proof.
  unfold page_do, on_page, perform. intros H Hin.
  destruct (page s);
    [destruct (interrupt w (clock s));
       [| destruct (do_ w (clock s) a) as [[] | m]] |];
    inversion H; subst; destruct Hin as [E | []];
    try discriminate E; reflexivity.
Qed.

Lemma shown_quiet (x : option exn) (evs : list event) :
  Forall (fun e => e <> two_factor_shown) evs -> shown_then_raises x evs.
Proof.
  intros F Hin. rewrite Forall_forall in F. exfalso. exact (F _ Hin eq_refl).
Qed.

Lemma shown_prefix (x : option exn) (e1 e2 : list event) :
  Forall (fun e => e <> two_factor_shown) e1 ->
  shown_then_raises x e2 -> shown_then_raises x (e1 ++ e2).
Proof.
  intros F H Hin.
  apply in_app_or in Hin. destruct Hin as [Hin | Hin].
  - rewrite Forall_forall in F. exfalso. exact (F _ Hin eq_refl).
  - destruct (H Hin) as [Hr He]. split; [apply in_or_app; right; exact Hr | exact He].
Qed.

Section Malformed.

Variable w : World.
Variable self : automation.
Variable secret : string.

Hypothesis configured : two_factor_secret (creds self) = Some secret.
Hypothesis not_empty : secret <> "".
Hypothesis installed : pyotp_installed w = true.
Hypothesis malformed : valid_base32 secret = false.

Ltac quiet_shown :=
  fits_go fragment_lines; try (intros; exact I); try differ.

Lemma login_two_factor_fails :
  shows shown_then_raises (login_two_factor w self).
Proof.
  intros s c s' evs H Hin. unfold login_two_factor in H.
  apply bind_inv in H. destruct H as (c1 & s1 & e1 & E1 & H).
  inversion E1; subst c1 s1 e1. destruct H as (e2 & H & ->).
  split; [left; reflexivity |].
  cbn [app] in Hin. destruct Hin as [E | Hin]; [discriminate E |].
  apply try_except_inv in H. destruct H as (c2 & s2 & e3 & E2 & H).
  destruct H as [(e0 & e4 & -> & _ & H & ->) | (-> & _ & -> & _)].
  - destruct (handler_raises _ _ _ _ _ _ _ H) as (e & ->). eexists. reflexivity.
  - apply bind_inv in E2. destruct E2 as (c3 & s3 & e5 & E3 & E2).
    destruct c3 as [[] | r | e | |].
    + destruct E2 as (e6 & E2 & _).
      rewrite (generator_on w self secret configured not_empty installed) in E2.
      apply bind_inv in E2. destruct E2 as (c4 & s4 & e7 & E4 & E2).
      assert (Hb : pyotp_installed w && valid_base32 secret = false)
        by (rewrite malformed; apply andb_false_r).
      destruct (generate_fails w self secret configured not_empty Hb _ _ _ _ E4)
        as (e & -> & _).
      destruct E2 as (-> & _). eexists. reflexivity.
    + destruct E2 as (_ & _ & ->).
      discriminate (page_do_done _ _ _ _ _ _ E3 Hin).
    + destruct E2 as (-> & _). eexists. reflexivity.
    + destruct E2 as (_ & _ & ->).
      discriminate (page_do_done _ _ _ _ _ _ E3 Hin).
    + destruct E2 as (_ & _ & ->).
      discriminate (page_do_done _ _ _ _ _ _ E3 Hin).
Qed.

Lemma malformed_tail :
  shows shown_then_raises
    (current_url <- page_str w Url ;;
     (if negb (contains "dashboard" current_url)
      then login_two_factor w self
      else ret tt) ;;
     print "Successfully logged in").
Proof.
  intros s c s' evs H Hin.
  apply bind_inv in H. destruct H as (c1 & s1 & e1 & E1 & H).
  assert (F1 : Forall (fun e => e <> two_factor_shown) e1).
  { assert (Hm : fits (fun _ => True) (fun e => e <> two_factor_shown)
                   (page_str (R := unit) w Url)) by quiet_shown.
    exact (proj1 (Hm _ _ _ _ E1)). }
  destruct c1 as [u | r | e1' | |];
    try (destruct H as (_ & _ & ->); rewrite Forall_forall in F1;
         exfalso; exact (F1 _ Hin eq_refl)).
  destruct H as (e2 & H & ->).
  apply in_app_or in Hin. destruct Hin as [Hin | Hin].
  { rewrite Forall_forall in F1. exfalso. exact (F1 _ Hin eq_refl). }
  apply bind_inv in H. destruct H as (c2 & s2 & e3 & E2 & H).
  assert (H3 : In two_factor_shown e3).
  { destruct c2 as [[] | r | e2' | |];
      try (destruct H as (_ & _ & ->); exact Hin).
    destruct H as (e4 & H & ->). inversion H; subst.
    apply in_app_or in Hin. destruct Hin as [Hin | [E | []]];
      [exact Hin | discriminate E]. }
  destruct (negb (contains "dashboard" u)).
  2: { inversion E2; subst. destruct H3. }
  destruct (login_two_factor_fails _ _ _ _ E2 H3) as (Hr & e & He).
  apply raised_some in He. subst c2. destruct H as (-> & _ & ->).
  split; [apply in_or_app; right; exact Hr | eexists; reflexivity].
Qed.

Lemma login_shown_then_raises {R : Type} (s : state) (c : completion R unit)
  (s' : state) (evs : list event) :
  login w self s = (c, s', evs) ->
  In two_factor_shown evs ->
  In two_factor_required evs /\ exists e, c = Raise e.
Proof.
  intros H Hin.
  unfold login in H. apply call_inv in H. destruct H as (c0 & H & Ec).
  apply bind_inv in H. destruct H as (c1 & s1 & e1 & E1 & H).
  inversion E1; subst c1 s1 e1. destruct H as (e2 & H & ->).
  cbn [app] in Hin. destruct Hin as [E | Hin]; [discriminate E |].
  apply try_except_inv in H. destruct H as (c2 & s2 & e3 & E2 & H).
  assert (Hb : shown_then_raises (raised c2) e3).
  { revert E2. generalize s c2 s2 e3.
    change (shows shown_then_raises
              (page_do w (Goto "https://app.smokeball.com.au" (Some "networkidle")) ;;
               take_screenshot w "login-page" ;;
               email_input <-
                 try_except
                   (page_do w (WaitForSelector sel_email 10000) ;;
                    ret (Some (First (Css sel_email))))
                   any
                   (fun _ =>
                      page_do w (WaitForSelector "textbox" 10000) ;;
                      raise coroutine_not_subscriptable) ;;
               match email_input with
               | None => raise (Exception "Could not find email input field")
               | Some email_input =>
                   page_do w (Fill email_input (username (creds self))) ;;
                   sleep w 1000 ;;
                   password_input <-
                     try_except
                       (ret (First (Css sel_password)))
                       any
                       (fun _ =>
                          raise (TypeError "object of type 'coroutine' has no len()")) ;;
                   page_do w (Fill password_input (password (creds self))) ;;
                   sleep w 1000 ;;
                   try_except
                     (page_do w (Click (First (ByRole "button" "Log in" (Some false)))))
                     any
                     (fun _ =>
                        page_do w (Click (First (FilterText (Css "button") "log")))) ;;
                   sleep w 3000 ;;
                   current_url <- page_str w Url ;;
                   (if negb (contains "dashboard" current_url)
                    then login_two_factor w self
                    else ret tt) ;;
                   print "Successfully logged in"
               end)).
    login_spine shown_quiet shown_prefix quiet_shown ltac:(exact malformed_tail). }
  destruct H as [(e & e4 & -> & _ & H & ->) | (-> & _ & -> & _)].
  - assert (F4 : Forall (fun e => e <> two_factor_shown) e4).
    { match type of H with
      | ?m _ = _ =>
          assert (Hh : fits (fun _ => True) (fun e => e <> two_factor_shown) m)
            by quiet_shown
      end.
      exact (proj1 (Hh _ _ _ _ H)). }
    destruct (handler_raises _ _ _ _ _ _ _ H) as (e' & ->).
    apply in_app_or in Hin. destruct Hin as [Hin | Hin].
    2: { rewrite Forall_forall in F4. exfalso. exact (F4 _ Hin eq_refl). }
    destruct (Hb Hin) as (Hr & _).
    split; [cbn [app]; right; apply in_or_app; left; exact Hr | eexists; exact Ec].
  - destruct (Hb Hin) as (Hr & e & He). apply raised_some in He. subst c2.
    split; [cbn [app]; right; exact Hr | eexists; exact Ec].
Qed.

End Malformed.

Lemma typed_code_no_input (w : World) (secret : string) (evs : list event) :
  Forall (typed_code w secret) evs -> existsb is_input evs = false.
Proof.
  intros F. apply existsb_none. eapply Forall_impl; [| exact F].
  intros e H. destruct e as [a r | line]; [| reflexivity].
  destruct a; try reflexivity. destruct H.
Qed.

Lemma prompted_has_input (evs : list event) :
  prompted evs -> existsb is_input evs = true.
Proof.
  intros (pre & r & post & -> & _).
  rewrite existsb_app. cbn. apply orb_true_r.
Qed.

(** C8, as the code has it.  When [login] has seen the two-factor field
    appear: if the secret is absent or empty, or pyotp is missing, it
    announces the manual entry and waits at the prompt right away, and a
    code typed there goes into the field next.  A secret that is set
    but is no base32 is not treated as a missing one: with pyotp
    installed nobody is asked for a code, the generation fails and
    [login] raises; when nobody interrupts, what it raises is an
    [Exception] whose text starts with "Login failed: 2FA failed: ". *)
Theorem second_factor_without_usable_secret :
  forall (w : World) (self : automation) (s : state) (c : completion unit unit)
         (s' : state) (evs : list event),
    login w self s = (c, s', evs) ->
    In two_factor_shown evs ->
    (truthy (two_factor_secret (creds self)) = false \/ pyotp_installed w = false ->
     prompted evs)
    /\ (forall secret,
          two_factor_secret (creds self) = Some secret ->
          secret <> "" ->
          pyotp_installed w = true ->
          valid_base32 secret = false ->
          existsb is_input evs = false
          /\ (exists e, c = Raise e)
          /\ (uninterrupted w ->
              exists msg,
                c = Raise (Exception ("Login failed: 2FA failed: " +++ msg)))).
Proof.
  intros w self s c s' evs H Hin. split.
  - intros Hno. exact (login_prompts w self Hno _ _ _ _ H Hin).
  - intros secret Hs Hne Hi Hv.
    destruct (login_shown_then_raises w self secret Hs Hne Hi Hv _ _ _ _ H Hin)
      as (Hr & e & He).
    split; [| split].
    + apply (typed_code_no_input w secret).
      exact (proj1 (login_typed w self secret Hs Hne Hi _ _ _ _ H)).
    + exists e. exact He.
    + intros Hun.
      destruct (login_wrapped w self Hun _ _ _ _ H) as [Hc | (msg & Hc & Hm)].
      * rewrite Hc in He. discriminate He.
      * destruct (Hm Hr) as (msg' & ->). exists msg'. exact Hc.
Qed.

Lemma second_factor_without_usable_secret_witness :
  prompted (snd (login (R := unit) Scenario.two_factor Scenario.tester Scenario.ready)).
Proof.
  refine (proj1 (second_factor_without_usable_secret Scenario.two_factor
                   Scenario.tester Scenario.ready _ _ _ (triple_eta _) _) _).
  - vm_compute. repeat (first [left; reflexivity | right]).
  - left. reflexivity.
Defined.

(** A secret that is set but is no base32, on a login page that shows
    the two-factor field: the constructor takes the secret as it is,
    and [login] fails with "2FA failed" right after the field appears;
    it has prompted nobody. *)
Lemma malformed_secret_fails_without_prompt :
  fst (fst (init_ (R := unit) two_factor_malformed true start)) = Normal with_malformed
  /\ let '(c, _, evs) :=
       login (R := unit) two_factor_malformed with_malformed Scenario.ready in
     c = Raise (Exception "Login failed: 2FA failed: Non-base32 digit found")
     /\ In two_factor_shown evs
     /\ existsb is_input evs = false
     /\ ~ prompted evs.
Proof.
  split; [reflexivity |].
  destruct (login (R := unit) two_factor_malformed with_malformed Scenario.ready)
    as [[c s'] evs] eqn:E.
  vm_compute in E. inversion E; subst. clear E.
  split; [reflexivity |].
  split; [repeat (first [left; reflexivity | right]) |].
  split; [reflexivity |].
  intros Hp. apply prompted_has_input in Hp. discriminate Hp.
Qed.

(** ** The missing deposit control ends the run *)

(** X16 (fill_receipt_form and run, lines 240-353 and 537-564).  When
    nobody interrupts and the browser closes: if no strategy yields a
    match, [fill_receipt_form] has evaluated all seven and raises the
    plain [Exception] of line 353, whose fixed text names the "Deposit
    Funds" button and lists no strategy; once the earlier stages have
    completed, [run] ends there with the failure summary that carries
    that text. *)
Theorem exhausted_chain_ends_the_run :
  forall (w : World) (self : automation) (data : receipt),
    calm w ->
    (forall s c s' evs,
        fill_receipt_form (R := unit) w self data s = (c, s', evs) ->
        first_match evs = None ->
        c = Raise (Exception not_found_message) /\ attempted evs = seq 1 7)
    /\ (forall matter s s1 ev1 s2 ev2 s3 ev3 s4 ev4,
           initialize (R := option summary) w s = (Normal tt, s1, ev1) ->
           login (R := option summary) w self s1 = (Normal tt, s2, ev2) ->
           navigate_to_matter_transactions (R := option summary) w matter
             account_id s2
           = (Normal tt, s3, ev3) ->
           fill_receipt_form (R := option summary) w self data s3
           = (Raise (Exception not_found_message), s4, ev4) ->
           exists s5 ev5,
             run (R := unit) w self matter data s
             = (Normal (Some (failure_summary self (Exception not_found_message))),
                s5, ev1 ++ ev2 ++ ev3 ++ ev4 ++ ev5)).
Proof.
  intros w self data Hcalm. pose proof Hcalm as (Hun & _ & _).
  split.
  - intros s c s' evs H Hnone.
    destruct (fill_receipt_form_spec _ _ _ _ _ _ _ Hun H) as (_ & k & Hk & Ha & Hc).
    unfold first_match in Hnone.
    destruct Hc as [(_ & Hm & _) | (-> & -> & Hm)].
    + rewrite Hm in Hnone. discriminate.
    + auto.
  - intros matter s s1 ev1 s2 ev2 s3 ev3 s4 ev4 H1 H2 H3 H4.
    unfold run, call, try_finally, try_except, run_stages.
    unfold bind at 1. rewrite H1.
    unfold bind at 1. rewrite H2.
    unfold bind at 1. rewrite H3.
    unfold bind at 1. rewrite H4.
    cbn [abrupt is_Exception].
    destruct (run_failed w self (Exception not_found_message) s4)
      as [[c5 s5] e5] eqn:E5.
    rewrite (run_failed_calm _ _ _ _ _ _ _ Hun E5).
    destruct (run_finally w self s5) as [[c6 s6] e6] eqn:E6.
    rewrite (run_finally_calm _ _ _ _ _ _ Hcalm E6).
    exists s6, (e5 ++ e6). rewrite <- !app_assoc. reflexivity.
Qed.

Lemma exhausted_chain_ends_the_run_witness :
  fst (fst (fill_receipt_form (R := unit) Scenario.bare Scenario.tester
              Scenario.receipt_data Scenario.ready))
  = Raise (Exception not_found_message)
  /\ fst (fst (run (R := unit) Scenario.bare Scenario.tester
                 (arg_matter_id Scenario.default_args) Scenario.receipt_data start))
     = Normal (Some (failure_summary Scenario.tester (Exception not_found_message))).
Proof.
  pose proof (exhausted_chain_ends_the_run Scenario.bare Scenario.tester
                Scenario.receipt_data calm_bare) as (Ha & Hb).
  split.
  - refine (proj1 (Ha Scenario.ready _ _ _ (triple_eta _) _)).
    vm_compute. reflexivity.
  - set (m := arg_matter_id Scenario.default_args).
    set (X1 := initialize (R := option summary) Scenario.bare start).
    set (X2 := login (R := option summary) Scenario.bare Scenario.tester
                 (snd (fst X1))).
    set (X3 := navigate_to_matter_transactions (R := option summary) Scenario.bare m
                 account_id (snd (fst X2))).
    set (X4 := fill_receipt_form (R := option summary) Scenario.bare Scenario.tester
                 Scenario.receipt_data (snd (fst X3))).
    assert (X1 = (Normal tt, snd (fst X1), snd X1)) as H1 by (vm_compute; reflexivity).
    assert (X2 = (Normal tt, snd (fst X2), snd X2)) as H2 by (vm_compute; reflexivity).
    assert (X3 = (Normal tt, snd (fst X3), snd X3)) as H3 by (vm_compute; reflexivity).
    assert (X4 = (Raise (Exception not_found_message), snd (fst X4), snd X4)) as H4
      by (vm_compute; reflexivity).
    destruct (Hb m start _ _ _ _ _ _ _ _ H1 H2 H3 H4) as (s5 & ev5 & E).
    rewrite E. reflexivity.
Defined.

(** ** The fields whose failures nobody sees *)

(** C7 fails on the code, in what it says of the form fields.  On a page
    where the menu opens the deposit dialog and no field of the receipt
    form can be found, [run] reports success: it has looked for no field
    and logged no failure of one.  The statements that try each field,
    log its failure and go on to the next are there (lines 355-487):
    run by themselves on that page they make one attempt on each of the
    four fields and print each failure; but they come after the raise
    of line 353, where no run arrives.  What the claim says of the
    deposit control holds: on a page without it all seven strategies
    are tried and the [Exception] of line 353 ends [fill_receipt_form]. *)
Theorem field_failures_are_never_logged :
  (let '(c, _, evs) :=
     run (R := unit) without_fields Scenario.tester
       (arg_matter_id Scenario.default_args) Scenario.receipt_data start in
   c = Normal (Some {| success := true;
                       error := None;
                       message := "Receipt form filled successfully" |})
   /\ first_match evs = Some 1%nat
   /\ existsb form_step evs = false
   /\ existsb (logs "Could not fill") evs = false
   /\ existsb (logs "Failed to fill") evs = false)
  /\ (let '(c, _, evs) :=
        fill_fields without_fields Scenario.receipt_data Scenario.ready in
      c = Normal tt
      /\ length (filter form_step evs) = 4%nat
      /\ printed evs
         = ["Filling date: 21/11/2025";
            "Could not fill date field with label method: Timeout 30000ms exceeded.";
            "Failed to fill date: 'coroutine' object is not subscriptable";
            "Filling Received From: Stanford, Logan";
            "Could not fill Received From field: Timeout 30000ms exceeded.";
            "Failed to fill Received From: 'coroutine' object is not subscriptable";
            "Filling reason: On account of test search fees";
            "Could not fill reason field: Timeout 30000ms exceeded.";
            "Failed to fill reason: 'coroutine' object is not subscriptable";
            "Filling amount: $81.7";
            "Could not fill amount field: Timeout 30000ms exceeded.";
            "Failed to fill amount: 'coroutine' object is not subscriptable";
            "Screenshot saved: screenshots/receipt-form-filled-20251121-101500.png"])
  /\ (let '(c, _, evs) :=
        fill_receipt_form (R := unit) Scenario.bare Scenario.tester
          Scenario.receipt_data Scenario.ready in
      c = Raise (Exception not_found_message)
      /\ attempted evs = seq 1 7).
Proof. vm_compute. repeat split. Qed.
